(** * s12-swBVH: host-side construction of a software LBVH

    A shallow embedding of [samples/s12-swBVH/hostCode.cpp].  The host
    program allocates the buffers of a linear bounding volume hierarchy,
    seeds the root box, launches the five compute kernels and the
    sort that build the tree, reads the tree back and then renders.

    The embedding is a state-and-error monad over a model of the GPRT
    context: buffers are addressed by handle, every device submission is
    recorded together with the device memory it starts from, and an
    access outside a mapped buffer aborts the run while keeping what was
    recorded so far. *)

From Stdlib Require Import ZArith String List Bool Lia SpecFloat.
Import ListNotations.
Local Open Scope string_scope.
Local Open Scope list_scope.
Local Open Scope Z_scope.

Set Implicit Arguments.

(** ** Machine integers

    [uint32_t] values are integers in [0, 2^32); arithmetic wraps. *)

Definition wrap32 (z : Z) : Z := z mod 2 ^ 32.
Definition u32_add (a b : Z) : Z := wrap32 (a + b).
Definition u32_sub (a b : Z) : Z := wrap32 (a - b).
Definition u32_mul (a b : Z) : Z := wrap32 (a * b).

(** ** Single-precision values

    A [float] is a binary32 datum: precision 24, maximal exponent 128. *)

Definition f32 := spec_float.
Definition f32_prec : Z := 24.
Definition f32_emax : Z := 128.

(** The literal [1e20f]: the binary32 value nearest to ten to the
    twentieth. *)
Definition lit_1e20f : f32 := S754_finite false 11368684 43.

Definition f32_neg (x : f32) : f32 := SFopp x.

Definition f32_pos_inf : f32 := S754_infinity false.
Definition f32_neg_inf : f32 := S754_infinity true.

Definition f32_is_finite (x : f32) : bool :=
  match x with
  | S754_zero _ | S754_finite _ _ _ => true
  | _ => false
  end.

(** ** Vector types shared by host and device *)

Record float3 := mk_float3 { f3_x : f32; f3_y : f32; f3_z : f32 }.
Record uint3 := mk_uint3 { u3_x : Z; u3_y : Z; u3_z : Z }.
Record int4 := mk_int4 { i4_x : Z; i4_y : Z; i4_z : Z; i4_w : Z }.
Record int2 := mk_int2 { i2_x : Z; i2_y : Z }.

(** ** Buffer elements

    A buffer created without initial data holds unspecified contents; a
    component that was never stored to is [None].  Only [float3] elements
    are stored to one component at a time by the host. *)

Inductive elem_type := Tfloat3 | Tuint3 | Tuint32 | Tint4 | Tuint8.

Inductive elem :=
| Efloat3 (x y z : option f32)
| Euint3 (v : option uint3)
| Euint32 (v : option Z)
| Eint4 (v : option int4)
| Euint8 (v : option Z).

Definition uninit (t : elem_type) : elem :=
  match t with
  | Tfloat3 => Efloat3 None None None
  | Tuint3 => Euint3 None
  | Tuint32 => Euint32 None
  | Tint4 => Eint4 None
  | Tuint8 => Euint8 None
  end.

Definition of_float3 (v : float3) : elem :=
  Efloat3 (Some (f3_x v)) (Some (f3_y v)) (Some (f3_z v)).
Definition of_uint3 (v : uint3) : elem := Euint3 (Some v).

Inductive axis := X | Y | Z3.

Definition set_component (a : axis) (v : f32) (e : elem) : option elem :=
  match e with
  | Efloat3 x y z =>
      Some match a with
           | X => Efloat3 (Some v) y z
           | Y => Efloat3 x (Some v) z
           | Z3 => Efloat3 x y (Some v)
           end
  | _ => None
  end.

(** ** Device memory and buffers *)

(** A buffer object of the host is its position in the context's table;
    the device handle of buffer [b] is [S b], and [0] is the null handle
    of a zero-initialised record. *)
Definition handle := nat.

Definition resolve (hs : list handle) : list nat :=
  flat_map (fun h => match h with O => [] | S b => [b] end) hs.

(** Contents of every buffer, by buffer and element index. *)
Definition memory := nat -> Z -> elem.

Record Buffer := mk_Buffer {
  buf_type : elem_type;
  buf_count : Z;
  buf_data : Z -> elem;
  buf_mapped : bool;
  buf_live : bool
}.

Definition dead_buffer : Buffer :=
  mk_Buffer Tuint8 0 (fun _ => uninit Tuint8) false false.

Definition get_buffer (bs : list Buffer) (b : nat) : Buffer :=
  nth b bs dead_buffer.

Definition mem_of (bs : list Buffer) : memory :=
  fun h i => buf_data (get_buffer bs h) i.

Fixpoint update_buffer (bs : list Buffer) (h : nat) (f : Buffer -> Buffer)
  : list Buffer :=
  match bs, h with
  | [], _ => []
  | b :: bs', O => f b :: bs'
  | b :: bs', S h' => b :: update_buffer bs' h' f
  end.

Definition store_data (d : Z -> elem) (i : Z) (e : elem) : Z -> elem :=
  fun j => if Z.eqb j i then e else d j.

Definition in_handles (b : nat) (hs : list handle) : bool :=
  existsb (Nat.eqb b) (resolve hs).

(** What a device program leaves behind: it can change the elements of
    the buffers it was given, inside their bounds, and nothing else. *)
Fixpoint commit_from (h : nat) (ws : list handle) (m' : memory)
  (bs : list Buffer) : list Buffer :=
  match bs with
  | [] => []
  | b :: bs' =>
      (if in_handles h ws
       then mk_Buffer (buf_type b) (buf_count b)
              (fun i => if (0 <=? i) && (i <? buf_count b)
                        then m' h i else buf_data b i)
              (buf_mapped b) (buf_live b)
       else b) :: commit_from (S h) ws m' bs'
  end.

Definition commit (ws : list handle) (m' : memory) (bs : list Buffer)
  : list Buffer := commit_from O ws m' bs.

(** ** Records shared with the device programs *)

(** Modelled from the spec: [LBVHData] is declared in [lbvh.h], which is
    not among the sources.  The fields are the ones [main] assigns: the
    primitive count, the two derived counts, and the handles of the two
    inputs and the four outputs.  The counts are unsigned 32-bit, like
    the counter that [main] compares with [numNodes]. *)
Record LBVHData := mk_LBVHData {
  numPrims : Z;
  numInner : Z;
  numNodes : Z;
  triangles : handle;
  positions : handle;
  mortonCodes : handle;
  ids : handle;
  nodes : handle;
  aabbs : handle
}.

Definition no_handle : handle := O.

(** [LBVHData lbvhParams = {}] *)
Definition LBVHData_zero : LBVHData :=
  mk_LBVHData 0 0 0 no_handle no_handle no_handle no_handle no_handle no_handle.

Definition set_numPrims (v : Z) (p : LBVHData) : LBVHData :=
  mk_LBVHData v (numInner p) (numNodes p) (triangles p) (positions p)
    (mortonCodes p) (ids p) (nodes p) (aabbs p).
Definition set_numInner (v : Z) (p : LBVHData) : LBVHData :=
  mk_LBVHData (numPrims p) v (numNodes p) (triangles p) (positions p)
    (mortonCodes p) (ids p) (nodes p) (aabbs p).
Definition set_numNodes (v : Z) (p : LBVHData) : LBVHData :=
  mk_LBVHData (numPrims p) (numInner p) v (triangles p) (positions p)
    (mortonCodes p) (ids p) (nodes p) (aabbs p).
Definition set_triangles (v : handle) (p : LBVHData) : LBVHData :=
  mk_LBVHData (numPrims p) (numInner p) (numNodes p) v (positions p)
    (mortonCodes p) (ids p) (nodes p) (aabbs p).
Definition set_positions (v : handle) (p : LBVHData) : LBVHData :=
  mk_LBVHData (numPrims p) (numInner p) (numNodes p) (triangles p) v
    (mortonCodes p) (ids p) (nodes p) (aabbs p).
Definition set_mortonCodes (v : handle) (p : LBVHData) : LBVHData :=
  mk_LBVHData (numPrims p) (numInner p) (numNodes p) (triangles p)
    (positions p) v (ids p) (nodes p) (aabbs p).
Definition set_ids (v : handle) (p : LBVHData) : LBVHData :=
  mk_LBVHData (numPrims p) (numInner p) (numNodes p) (triangles p)
    (positions p) (mortonCodes p) v (nodes p) (aabbs p).
Definition set_nodes (v : handle) (p : LBVHData) : LBVHData :=
  mk_LBVHData (numPrims p) (numInner p) (numNodes p) (triangles p)
    (positions p) (mortonCodes p) (ids p) v (aabbs p).
Definition set_aabbs (v : handle) (p : LBVHData) : LBVHData :=
  mk_LBVHData (numPrims p) (numInner p) (numNodes p) (triangles p)
    (positions p) (mortonCodes p) (ids p) (nodes p) v.

(** The buffers a compute program can reach through its record. *)
Definition lbvh_handles (p : LBVHData) : list handle :=
  [triangles p; positions p; mortonCodes p; ids p; nodes p; aabbs p].

(** Modelled from the spec: [RayGenData] is declared in [sharedCode.h],
    which is not among the sources.  The fields are the ones [main]
    assigns. *)
Record Camera := mk_Camera {
  cam_pos : float3; cam_dir_00 : float3; cam_dir_du : float3; cam_dir_dv : float3
}.

Record RayGenData := mk_RayGenData {
  frameBuffer : handle;
  iTime : spec_float;
  iFrame : Z;
  camera : Camera
}.

Definition zero3 : float3 :=
  mk_float3 (S754_zero false) (S754_zero false) (S754_zero false).
Definition Camera_zero : Camera := mk_Camera zero3 zero3 zero3 zero3.
Definition RayGenData_zero : RayGenData :=
  mk_RayGenData no_handle (S754_zero false) 0 Camera_zero.

Definition set_frameBuffer (v : handle) (d : RayGenData) : RayGenData :=
  mk_RayGenData v (iTime d) (iFrame d) (camera d).
Definition set_iTime (v : spec_float) (d : RayGenData) : RayGenData :=
  mk_RayGenData (frameBuffer d) v (iFrame d) (camera d).
Definition set_iFrame (v : Z) (d : RayGenData) : RayGenData :=
  mk_RayGenData (frameBuffer d) (iTime d) v (camera d).
Definition set_camera (v : Camera) (d : RayGenData) : RayGenData :=
  mk_RayGenData (frameBuffer d) (iTime d) (iFrame d) v.

Definition raygen_handles (p : RayGenData) : list handle := [frameBuffer p].

(** ** The context *)

Record Compute := mk_Compute { c_entry : string; c_params : LBVHData }.
Record RayGen := mk_RayGen { r_entry : string; r_params : RayGenData }.

(** A device submission, with the device memory it starts from. *)
Inductive event :=
| EvCompute (entry : string) (params : LBVHData) (nthreads : Z) (pre : memory)
| EvSort (keys vals scratch : nat) (pre : memory)
| EvRayGen (entry : string) (params : RayGenData) (w h : Z) (pre : memory).

Inductive out_item :=
| OutLog (msg : string)
| OutNode (node lo hi : elem).

Record context := mk_context {
  buffers : list Buffer;
  computes : list Compute;
  raygens : list RayGen;
  sbt_compute : list LBVHData;
  sbt_raygen : list RayGenData;
  submitted : list event;
  console : list out_item
}.

Definition empty_context : context := mk_context [] [] [] [] [] [] [].

Definition with_buffers (bs : list Buffer) (c : context) : context :=
  mk_context bs (computes c) (raygens c) (sbt_compute c) (sbt_raygen c)
    (submitted c) (console c).
Definition with_computes (cs : list Compute) (c : context) : context :=
  mk_context (buffers c) cs (raygens c) (sbt_compute c) (sbt_raygen c)
    (submitted c) (console c).
Definition with_raygens (rs : list RayGen) (c : context) : context :=
  mk_context (buffers c) (computes c) rs (sbt_compute c) (sbt_raygen c)
    (submitted c) (console c).
Definition with_sbt (sc : list LBVHData) (sr : list RayGenData) (c : context)
  : context :=
  mk_context (buffers c) (computes c) (raygens c) sc sr (submitted c) (console c).
Definition with_submitted (l : list event) (c : context) : context :=
  mk_context (buffers c) (computes c) (raygens c) (sbt_compute c) (sbt_raygen c)
    l (console c).
Definition with_console (l : list out_item) (c : context) : context :=
  mk_context (buffers c) (computes c) (raygens c) (sbt_compute c) (sbt_raygen c)
    (submitted c) l.

(** ** The host monad

    A computation transforms the context and returns a value, or aborts
    ([None]) at an invalid access; the context reached is kept either
    way. *)

Definition M (A : Type) : Type := context -> context * option A.

Definition ret {A} (a : A) : M A := fun c => (c, Some a).
Definition abort {A} : M A := fun c => (c, None).
Definition bind {A B} (m : M A) (f : A -> M B) : M B :=
  fun c => match m c with
           | (c', Some a) => f a c'
           | (c', None) => (c', None)
           end.
Definition get : M context := fun c => (c, Some c).
Definition put (c : context) : M unit := fun _ => (c, Some tt).
Definition modify (f : context -> context) : M unit := fun c => (f c, Some tt).
Definition guard (b : bool) : M unit := if b then ret tt else abort.

Declare Scope host_scope.
Delimit Scope host_scope with host.
Notation "x <- m ;; k" := (bind m (fun x => k))
  (at level 61, m at next level, right associativity) : host_scope.
Notation "m ;; k" := (bind m (fun _ => k))
  (at level 61, right associativity) : host_scope.
Local Open Scope host_scope.

Definition run {A} (m : M A) : context * option A := m empty_context.

(** ** What the host program does not contain

    The device programs are linked in as opaque modules
    ([extern GPRTProgram lbvhDeviceCode], [s12_deviceCode]); the sort is
    a capability of the library.  Each is a transformation of device
    memory that the host cannot look into. *)
Record Device := mk_Device {
  lbvh_program : string -> LBVHData -> Z -> memory -> memory;
  sort_program : nat -> nat -> nat -> memory -> memory;
  ray_program : string -> RayGenData -> Z -> Z -> memory -> memory;
  (** [count] of [gprtDeviceBufferCreate] when the call leaves it out *)
  default_count : Z;
  (** the camera arithmetic of the render loop: from [lookFrom] and the
      last and current cursor positions to the new [lookFrom] and the
      camera frame *)
  orbit : float3 -> spec_float * spec_float -> spec_float * spec_float ->
          float3 * Camera
}.

(** What the window system reports during one turn of the render loop. *)
Record frame_input := mk_frame_input {
  cursor : spec_float * spec_float;
  left_pressed : bool;
  time : spec_float;
  should_close : bool
}.

(** ** The GPRT calls used by [main] *)

Inductive sbt_flags := GPRT_SBT_COMPUTE | GPRT_SBT_RAYGEN | GPRT_SBT_ALL.

(** Modelled from the spec: the GPRT entry points below are declared in
    [gprt.h], which is not among the sources.  A buffer is created with
    the given element count, with the initial data when there is some;
    a host pointer is valid while the buffer is mapped and inside its
    bounds; a launch runs the device program to completion on the
    parameters last uploaded by [gprtBuildShaderBindingTable], so that
    its writes are in device memory when the call returns. *)
Definition upload (t : elem_type) (count : Z) (l : list elem) : Z -> elem :=
  fun i => if (0 <=? i) && (i <? count)
           then nth (Z.to_nat i) l (uninit t)
           else uninit t.

Definition gprtDeviceBufferCreate (t : elem_type) (count : Z)
  (init : option (list elem)) : M nat :=
  fun c =>
    let data := match init with
                | Some l => upload t count l
                | None => fun _ => uninit t
                end in
    (with_buffers (buffers c ++ [mk_Buffer t count data false true]) c,
     Some (length (buffers c))).

Definition gprtBufferGetHandle (b : nat) : M handle := ret (S b).

Definition gprtBufferMap (b : nat) : M unit :=
  c <- get ;;
  guard (buf_live (get_buffer (buffers c) b)) ;;
  modify (with_buffers (update_buffer (buffers c) b (fun x =>
    mk_Buffer (buf_type x) (buf_count x) (buf_data x) true (buf_live x)))).

Definition gprtBufferUnmap (b : nat) : M unit :=
  c <- get ;;
  guard (buf_mapped (get_buffer (buffers c) b)) ;;
  modify (with_buffers (update_buffer (buffers c) b (fun x =>
    mk_Buffer (buf_type x) (buf_count x) (buf_data x) false (buf_live x)))).

Definition gprtBufferGetPointer (b : nat) : M nat := ret b.

Definition gprtBufferDestroy (b : nat) : M unit :=
  c <- get ;;
  modify (with_buffers (update_buffer (buffers c) b (fun x =>
    mk_Buffer (buf_type x) (buf_count x) (buf_data x) false false))).

Definition valid_access (x : Buffer) (i : Z) : bool :=
  buf_live x && buf_mapped x && (0 <=? i) && (i <? buf_count x).

(** [ptr[i]] read through a host pointer *)
Definition load (ptr : nat) (i : Z) : M elem :=
  c <- get ;;
  let x := get_buffer (buffers c) ptr in
  guard (valid_access x i) ;;
  ret (buf_data x i).

(** [ptr[i].a = v] *)
Definition store_component (ptr : nat) (i : Z) (a : axis) (v : f32)
  : M f32 :=
  c <- get ;;
  let x := get_buffer (buffers c) ptr in
  guard (valid_access x i) ;;
  match set_component a v (buf_data x i) with
  | None => abort
  | Some e =>
      modify (with_buffers (update_buffer (buffers c) ptr (fun x =>
        mk_Buffer (buf_type x) (buf_count x) (store_data (buf_data x) i e)
          (buf_mapped x) (buf_live x)))) ;;
      ret v
  end.

Definition gprtComputeCreate (entry : string) : M nat :=
  c <- get ;;
  modify (with_computes (computes c ++ [mk_Compute entry LBVHData_zero])) ;;
  ret (length (computes c)).

Fixpoint update_nth {A} (l : list A) (n : nat) (f : A -> A) : list A :=
  match l, n with
  | [], _ => []
  | a :: l', O => f a :: l'
  | a :: l', S n' => a :: update_nth l' n' f
  end.

Definition gprtComputeSetParameters (k : nat) (p : LBVHData) : M unit :=
  c <- get ;;
  guard (Nat.ltb k (length (computes c))) ;;
  modify (with_computes (update_nth (computes c) k (fun x =>
    mk_Compute (c_entry x) p))).

Definition gprtRayGenCreate (entry : string) : M nat :=
  c <- get ;;
  modify (with_raygens (raygens c ++ [mk_RayGen entry RayGenData_zero])) ;;
  ret (length (raygens c)).

(** [gprtRayGenGetParameters] returns a pointer into the host copy of the
    record; an assignment through it is an update in place. *)
Definition raygen_assign (r : nat) (f : RayGenData -> RayGenData) : M unit :=
  c <- get ;;
  guard (Nat.ltb r (length (raygens c))) ;;
  modify (with_raygens (update_nth (raygens c) r (fun x =>
    mk_RayGen (r_entry x) (f (r_params x))))).

Definition gprtBuildShaderBindingTable (flags : sbt_flags) : M unit :=
  c <- get ;;
  let sc := map c_params (computes c) in
  let sr := map r_params (raygens c) in
  match flags with
  | GPRT_SBT_COMPUTE => modify (with_sbt sc (sbt_raygen c))
  | GPRT_SBT_RAYGEN => modify (with_sbt (sbt_compute c) sr)
  | GPRT_SBT_ALL => modify (with_sbt sc sr)
  end.

(** The device memory a submission starts from. *)
Definition event_pre (e : event) : memory :=
  match e with
  | EvCompute _ _ _ pre | EvSort _ _ _ pre | EvRayGen _ _ _ _ pre => pre
  end.

(** Modelled from the spec: the device programs and the sort are not
    among the sources.  A submission reaches device memory through the
    handles it is given and through nothing else, so that it can change
    at most the buffers behind them: for a compute program the six
    handles of the record [main] fills in (the two of the geometry
    included), for the sort its three operands, for the ray generation
    program the frame buffer of its record. *)
Definition event_writes (e : event) : list handle :=
  match e with
  | EvCompute _ p _ _ => lbvh_handles p
  | EvSort keys vals scratch _ => [S keys; S vals; S scratch]
  | EvRayGen _ p _ _ _ => raygen_handles p
  end.

(** What the program of a submission computes from the memory it starts
    from. *)
Definition event_result (dev : Device) (e : event) : memory :=
  match e with
  | EvCompute entry p n pre => lbvh_program dev entry p n pre
  | EvSort keys vals scratch pre => sort_program dev keys vals scratch pre
  | EvRayGen entry p w h pre => ray_program dev entry p w h pre
  end.


Definition after_event (dev : Device) (bs : list Buffer) (e : event)
  : list Buffer :=
  commit (event_writes e) (event_result dev e) bs.

Definition submit (dev : Device) (e : event) : M unit :=
  c <- get ;;
  put (with_submitted (submitted c ++ [e])
         (with_buffers (after_event dev (buffers c) e) c)).

Definition gprtComputeLaunch1D (dev : Device) (k : nat) (n : Z) : M unit :=
  c <- get ;;
  match nth_error (computes c) k, nth_error (sbt_compute c) k with
  | Some x, Some p => submit dev (EvCompute (c_entry x) p n (mem_of (buffers c)))
  | _, _ => abort
  end.

Definition gprtBufferSortPayload (dev : Device) (keys vals scratch : nat)
  : M unit :=
  c <- get ;;
  submit dev (EvSort keys vals scratch (mem_of (buffers c))).

Definition gprtRayGenLaunch2D (dev : Device) (r : nat) (w h : Z) : M unit :=
  c <- get ;;
  match nth_error (raygens c) r, nth_error (sbt_raygen c) r with
  | Some x, Some p => submit dev (EvRayGen (r_entry x) p w h (mem_of (buffers c)))
  | _, _ => abort
  end.

(** Presentation and image output read the frame buffer. *)
Definition gprtBufferPresent (b : nat) : M unit :=
  c <- get ;; guard (buf_live (get_buffer (buffers c) b)).
Definition gprtBufferSaveImage (b : nat) (w h : Z) (name : string) : M unit :=
  c <- get ;; guard (buf_live (get_buffer (buffers c) b)).

Definition cout (o : out_item) : M unit :=
  c <- get ;; modify (with_console (console c ++ [o])).
Definition LOG (msg : string) : M unit := cout (OutLog msg).
Definition LOG_OK (msg : string) : M unit := cout (OutLog msg).

(** ** The program *)

(** [template <typename T> struct Mesh]: the vertices and triangles the
    generator yields are copied into two vectors and uploaded. *)
Record Mesh := mk_Mesh {
  vertices : list float3;
  indices : list uint3;
  vertexBuffer : nat;
  indexBuffer : nat
}.

Definition Mesh_create (generated_vertices : list float3)
  (generated_triangles : list uint3) : M Mesh :=
  let vertices := generated_vertices in
  let indices := generated_triangles in
  vertexBuffer <- gprtDeviceBufferCreate Tfloat3 (Z.of_nat (length vertices))
                    (Some (map of_float3 vertices)) ;;
  indexBuffer <- gprtDeviceBufferCreate Tuint3 (Z.of_nat (length indices))
                   (Some (map of_uint3 indices)) ;;
  ret (mk_Mesh vertices indices vertexBuffer indexBuffer).

Definition Mesh_cleanup (m : Mesh) : M unit :=
  gprtBufferDestroy (vertexBuffer m) ;;
  gprtBufferDestroy (indexBuffer m).

Definition fbSize : int2 := mk_int2 1920 1080.
Definition outFileName : string := "s12-swBVH.png".

(** [float3 lookFrom = {1.7f, 2.4f, -2.8f}]; the other camera constants
    are only read, by the arithmetic that [orbit] stands for. *)
Definition lookFrom_initial : float3 :=
  mk_float3 (S754_finite false 14260634 (-23))
            (S754_finite false 10066330 (-22))
            (S754_finite true 11744051 (-22)).

(** [for (uint32_t i = start; i < start + k; ++i) body] *)
Fixpoint for_upto (k : nat) (i : Z) (body : Z -> M unit) : M unit :=
  match k with
  | O => ret tt
  | S k' => body i ;; for_upto k' (u32_add i 1) body
  end.

(** The [do ... while (!gprtWindowShouldClose(context))] loop.  [inp] is
    what the window system reports in this turn, [inputs] in the turns
    after it; the loop also stops when no report is left. *)
Fixpoint render_loop (dev : Device) (rayGen : nat) (rayGenData : nat)
  (frameBuffer : nat) (inputs : list frame_input) (inp : frame_input)
  (firstFrame : bool) (pos : spec_float * spec_float) (lookFrom : float3)
  (iFrame : Z) : M unit :=
  let lastpos := pos in
  let pos := cursor inp in
  let lastpos := if firstFrame then pos else lastpos in
  let state := left_pressed inp in
  r <- (if state || firstFrame
        then
          let '(lookFrom', cam) := orbit dev lookFrom lastpos pos in
          raygen_assign rayGen (set_camera cam) ;;
          ret (false, lookFrom')
        else ret (firstFrame, lookFrom)) ;;
  let '(firstFrame, lookFrom) := r in
  raygen_assign rayGenData (set_iTime (time inp)) ;;
  raygen_assign rayGenData (set_iFrame iFrame) ;;
  gprtBuildShaderBindingTable GPRT_SBT_RAYGEN ;;
  gprtRayGenLaunch2D dev rayGen (i2_x fbSize) (i2_y fbSize) ;;
  gprtBufferPresent frameBuffer ;;
  let iFrame := iFrame + 1 in
  if should_close inp then ret tt
  else match inputs with
       | [] => ret tt
       | inp' :: inputs' =>
           render_loop dev rayGen rayGenData frameBuffer inputs' inp'
             firstFrame pos lookFrom iFrame
       end.

(** Lines 122 to 171 of [main]: the programs, the mesh, the parameters,
    the buffers, the seed of the root box and the six submissions.  The
    value returned is what the rest of [main] still uses. *)
Definition main_build (dev : Device)
  (teapot_vertices : list float3) (teapot_triangles : list uint3)
  : M (Mesh * LBVHData * nat * nat) :=
  computeBounds <- gprtComputeCreate "ComputeTriangleBounds" ;;
  computeCodes <- gprtComputeCreate "ComputeTriangleMortonCodes" ;;
  makeNodes <- gprtComputeCreate "MakeNodes" ;;
  splitNodes <- gprtComputeCreate "SplitNodes" ;;
  buildHierarchy <- gprtComputeCreate "BuildTriangleHierarchy" ;;
  mesh <- Mesh_create teapot_vertices teapot_triangles ;;
  let lbvhParams := LBVHData_zero in
  let lbvhParams :=
    set_numPrims (wrap32 (Z.of_nat (length (indices mesh)))) lbvhParams in
  let lbvhParams :=
    set_numInner (u32_sub (numPrims lbvhParams) 1) lbvhParams in
  let lbvhParams :=
    set_numNodes (u32_sub (u32_mul 2 (numPrims lbvhParams)) 1) lbvhParams in
  h <- gprtBufferGetHandle (indexBuffer mesh) ;;
  let lbvhParams := set_triangles h lbvhParams in
  h <- gprtBufferGetHandle (vertexBuffer mesh) ;;
  let lbvhParams := set_positions h lbvhParams in
  scratch <- gprtDeviceBufferCreate Tuint8 (default_count dev) None ;;
  mortonCodes <- gprtDeviceBufferCreate Tuint32 (numPrims lbvhParams) None ;;
  ids <- gprtDeviceBufferCreate Tuint32 (numPrims lbvhParams) None ;;
  nodes <- gprtDeviceBufferCreate Tint4 (numNodes lbvhParams) None ;;
  aabbs <- gprtDeviceBufferCreate Tfloat3
             (u32_mul 2 (numNodes lbvhParams)) None ;;
  h <- gprtBufferGetHandle mortonCodes ;;
  let lbvhParams := set_mortonCodes h lbvhParams in
  h <- gprtBufferGetHandle ids ;;
  let lbvhParams := set_ids h lbvhParams in
  h <- gprtBufferGetHandle nodes ;;
  let lbvhParams := set_nodes h lbvhParams in
  h <- gprtBufferGetHandle aabbs ;;
  let lbvhParams := set_aabbs h lbvhParams in
  (* initialize root AABB *)
  gprtBufferMap aabbs ;;
  aabbPtr <- gprtBufferGetPointer aabbs ;;
  v <- store_component aabbPtr 0 Z3 lit_1e20f ;;
  v <- store_component aabbPtr 0 Y v ;;
  _ <- store_component aabbPtr 0 X v ;;
  v <- store_component aabbPtr 1 Z3 (f32_neg lit_1e20f) ;;
  v <- store_component aabbPtr 1 Y v ;;
  _ <- store_component aabbPtr 1 X v ;;
  gprtBufferUnmap aabbs ;;
  gprtComputeSetParameters computeBounds lbvhParams ;;
  gprtComputeSetParameters computeCodes lbvhParams ;;
  gprtComputeSetParameters makeNodes lbvhParams ;;
  gprtComputeSetParameters splitNodes lbvhParams ;;
  gprtComputeSetParameters buildHierarchy lbvhParams ;;
  gprtBuildShaderBindingTable GPRT_SBT_COMPUTE ;;
  gprtComputeLaunch1D dev computeBounds (numPrims lbvhParams) ;;
  gprtComputeLaunch1D dev computeCodes (numPrims lbvhParams) ;;
  gprtBufferSortPayload dev mortonCodes ids scratch ;;
  gprtComputeLaunch1D dev makeNodes (numNodes lbvhParams) ;;
  gprtComputeLaunch1D dev splitNodes (numInner lbvhParams) ;;
  gprtComputeLaunch1D dev buildHierarchy (numPrims lbvhParams) ;;
  ret (mesh, lbvhParams, nodes, aabbs).

(** Lines 173 to 185: the tree is read back and printed, one line per
    node. *)
Definition main_readback (lbvhParams : LBVHData) (nodes aabbs : nat) : M unit :=
  gprtBufferMap nodes ;;
  gprtBufferMap aabbs ;;
  nodePtr <- gprtBufferGetPointer nodes ;;
  aabbPtr <- gprtBufferGetPointer aabbs ;;
  for_upto (Z.to_nat (numNodes lbvhParams)) 0 (fun i =>
    node <- load nodePtr i ;;
    lo <- load aabbPtr (u32_add (u32_mul i 2) 0) ;;
    hi <- load aabbPtr (u32_add (u32_mul i 2) 1) ;;
    cout (OutNode node lo hi)) ;;
  gprtBufferUnmap nodes ;;
  gprtBufferUnmap aabbs.

(** Lines 187 to 288: the ray generation program, the frame buffer, the
    render loop and the image. *)
Definition main_render (dev : Device) (inp : frame_input)
  (inputs : list frame_input) : M nat :=
  rayGen <- gprtRayGenCreate "simpleRayGen" ;;
  frameBuffer <- gprtDeviceBufferCreate Tuint32 (i2_x fbSize * i2_y fbSize) None ;;
  let rayGenData := rayGen in
  h <- gprtBufferGetHandle frameBuffer ;;
  raygen_assign rayGenData (set_frameBuffer h) ;;
  gprtBuildShaderBindingTable GPRT_SBT_ALL ;;
  LOG "launching ..." ;;
  render_loop dev rayGen rayGenData frameBuffer inputs inp true
    (S754_zero false, S754_zero false) lookFrom_initial 0 ;;
  LOG (String.append "done with launch, writing frame buffer to " outFileName) ;;
  gprtBufferSaveImage frameBuffer (i2_x fbSize) (i2_y fbSize) outFileName ;;
  LOG_OK (String.append "written rendered frame buffer to file " outFileName) ;;
  ret frameBuffer.

(** Lines 291 to 309. *)
Definition main_cleanup (mesh : Mesh) (frameBuffer : nat) : M unit :=
  LOG "cleaning up ..." ;;
  gprtBufferDestroy frameBuffer ;;
  (* gprtRayGenDestroy *)
  Mesh_cleanup mesh ;;
  (* gprtComputeDestroy five times, gprtModuleDestroy, gprtContextDestroy *)
  LOG_OK "seems all went OK; app is done, this should be the last output ...".

(** [main], on the vertices and triangles of the generated teapot and
    the reports of the window system. *)
Definition main (dev : Device) (av0 : string)
  (teapot_vertices : list float3) (teapot_triangles : list uint3)
  (inp : frame_input) (inputs : list frame_input) : M unit :=
  LOG (String.append "gprt example '" (String.append av0 "' starting up")) ;;
  (* gprtRequestWindow, gprtContextCreate, gprtModuleCreate: the context
     is the state of the monad, the modules are [dev] *)
  built <- main_build dev teapot_vertices teapot_triangles ;;
  let '(mesh, lbvhParams, nodes, aabbs) := built in
  main_readback lbvhParams nodes aabbs ;;
  frameBuffer <- main_render dev inp inputs ;;
  main_cleanup mesh frameBuffer.

(** ** Reading a run *)

(** The contents [main] stores into the first two elements of the box
    buffer. *)
Definition seed_lo : elem :=
  Efloat3 (Some lit_1e20f) (Some lit_1e20f) (Some lit_1e20f).
Definition seed_hi : elem :=
  Efloat3 (Some (f32_neg lit_1e20f)) (Some (f32_neg lit_1e20f))
    (Some (f32_neg lit_1e20f)).

(** The box buffer after the six component stores. *)
Definition seeded : Z -> elem :=
  store_data (store_data (store_data (store_data (store_data (store_data
    (fun _ => uninit Tfloat3)
    0 (Efloat3 None None (Some lit_1e20f)))
    0 (Efloat3 None (Some lit_1e20f) (Some lit_1e20f)))
    0 (Efloat3 (Some lit_1e20f) (Some lit_1e20f) (Some lit_1e20f)))
    1 (Efloat3 None None (Some (f32_neg lit_1e20f))))
    1 (Efloat3 None (Some (f32_neg lit_1e20f)) (Some (f32_neg lit_1e20f))))
    1 (Efloat3 (Some (f32_neg lit_1e20f)) (Some (f32_neg lit_1e20f))
         (Some (f32_neg lit_1e20f))).

(** The record [main] fills in for a mesh with triangles [ts]. *)
Definition lbvh_params (ts : list uint3) : LBVHData :=
  let P := wrap32 (Z.of_nat (length ts)) in
  mk_LBVHData P (u32_sub P 1) (u32_sub (u32_mul 2 P) 1)
    2%nat 1%nat 4%nat 5%nat 6%nat 7%nat.

(** The buffers of the context when the first program is launched:
    vertices, triangles, scratch, codes, ids, nodes, boxes. *)
Definition seeded_buffers (dev : Device) (vs : list float3) (ts : list uint3)
  : list Buffer :=
  let p := lbvh_params ts in
  [ mk_Buffer Tfloat3 (Z.of_nat (length vs))
      (upload Tfloat3 (Z.of_nat (length vs)) (map of_float3 vs)) false true;
    mk_Buffer Tuint3 (Z.of_nat (length ts))
      (upload Tuint3 (Z.of_nat (length ts)) (map of_uint3 ts)) false true;
    mk_Buffer Tuint8 (default_count dev) (fun _ => uninit Tuint8) false true;
    mk_Buffer Tuint32 (numPrims p) (fun _ => uninit Tuint32) false true;
    mk_Buffer Tuint32 (numPrims p) (fun _ => uninit Tuint32) false true;
    mk_Buffer Tint4 (numNodes p) (fun _ => uninit Tint4) false true;
    mk_Buffer Tfloat3 (u32_mul 2 (numNodes p)) seeded false true ].

(** Submissions replayed one after the other: each starts from the
    buffers its predecessor left. *)
Fixpoint replay (dev : Device) (bs : list Buffer)
  (launches : list (memory -> event)) : list event * list Buffer :=
  match launches with
  | [] => ([], bs)
  | k :: ks =>
      let e := k (mem_of bs) in
      let r := replay dev (after_event dev bs e) ks in
      (e :: fst r, snd r)
  end.

Definition construction (p : LBVHData) : list (memory -> event) :=
  [ EvCompute "ComputeTriangleBounds" p (numPrims p);
    EvCompute "ComputeTriangleMortonCodes" p (numPrims p);
    EvSort 3 4 2;
    EvCompute "MakeNodes" p (numNodes p);
    EvCompute "SplitNodes" p (numInner p);
    EvCompute "BuildTriangleHierarchy" p (numPrims p) ].

Definition construction_events (dev : Device) (vs : list float3)
  (ts : list uint3) : list event :=
  fst (replay dev (seeded_buffers dev vs ts) (construction (lbvh_params ts))).

Definition constructed_buffers (dev : Device) (vs : list float3)
  (ts : list uint3) : list Buffer :=
  snd (replay dev (seeded_buffers dev vs ts) (construction (lbvh_params ts))).

(** The submissions of a whole run of [main], oldest first, and the
    context it ends in. *)
Definition final_context (dev : Device) (av0 : string) (vs : list float3)
  (ts : list uint3) (inp : frame_input) (inputs : list frame_input) : context :=
  fst (run (main dev av0 vs ts inp inputs)).

Definition trace (dev : Device) (av0 : string) (vs : list float3)
  (ts : list uint3) (inp : frame_input) (inputs : list frame_input)
  : list event :=
  submitted (final_context dev av0 vs ts inp inputs).

Definition stage_name (e : event) : string :=
  match e with
  | EvCompute entry _ _ _ => entry
  | EvSort _ _ _ _ => "gprtBufferSortPayload"
  | EvRayGen entry _ _ _ _ => entry
  end.

(** The submissions that belong to the construction of the tree. *)
Definition is_construction (e : event) : bool :=
  match e with
  | EvRayGen _ _ _ _ _ => false
  | _ => true
  end.

Definition threads (e : event) : option Z :=
  match e with
  | EvCompute _ _ n _ => Some n
  | _ => None
  end.

Definition event_params (e : event) : option LBVHData :=
  match e with
  | EvCompute _ p _ _ => Some p
  | _ => None
  end.

(** Memory after a submission has completed, given the element counts
    of the buffers. *)
Definition mem_after (dev : Device) (count : nat -> Z) (e : event) : memory :=
  fun b i =>
    if in_handles b (event_writes e) && ((0 <=? i) && (i <? count b))
    then event_result dev e b i
    else event_pre e b i.

Definition count_of (bs : list Buffer) : nat -> Z :=
  fun b => buf_count (get_buffer bs b).

(** One line of the read-back: node [i] with elements [2i] and [2i+1]
    of the box buffer. *)
Definition node_row (m : memory) (i : Z) : out_item :=
  OutNode (m 5%nat i) (m 6%nat (2 * i)) (m 6%nat (2 * i + 1)).

(** The first line of output. *)
Definition greeting (av0 : string) : list out_item :=
  [OutLog (String.append "gprt example '" (String.append av0 "' starting up"))].

(** ** Inputs to try the program on *)

(** A device whose programs write nothing. *)
Definition example_device : Device :=
  mk_Device (fun _ _ _ m => m) (fun _ _ _ m => m) (fun _ _ _ _ m => m) 1
    (fun lookFrom _ _ => (lookFrom, Camera_zero)).

(** A device whose compute programs overwrite every element they can
    reach with an unset byte. *)
Definition clobbering_device : Device :=
  mk_Device (fun _ _ _ _ _ _ => uninit Tuint8) (fun _ _ _ m => m)
    (fun _ _ _ _ m => m) 1 (fun lookFrom _ _ => (lookFrom, Camera_zero)).

(** The window is closed after the first frame. *)
Definition example_input : frame_input :=
  mk_frame_input (S754_zero false, S754_zero false) false (S754_zero false) true.

Definition f32_one : f32 := S754_finite false 8388608 (-23).

Definition example_vertices : list float3 :=
  [ mk_float3 (S754_zero false) (S754_zero false) (S754_zero false);
    mk_float3 f32_one (S754_zero false) (S754_zero false);
    mk_float3 (S754_zero false) f32_one (S754_zero false);
    mk_float3 f32_one f32_one (S754_zero false) ].

Definition one_triangle : list uint3 := [mk_uint3 0 1 2].
Definition two_triangles : list uint3 := [mk_uint3 0 1 2; mk_uint3 1 3 2].

(** Meshes too large for the 32-bit counts. *)
Definition huge_mesh (n : Z) : list uint3 := repeat (mk_uint3 0 1 2) (Z.to_nat n).

(** * The device side, from the specification

    The compute programs are not among the sources.  What follows
    models, from the words of the specification, the data they build
    (section 3), the node skeleton (4.4) and the bottom-up refit with its
    arrival counters (4.6), far enough to state what is claimed about
    them.  Keys (4.2) and links (4.5) are left to a parameter. *)

(** Modelled from the spec: an AABB is "represented by a min and max
    corner"; the box of a primitive is "the axis-aligned bounding box of
    its vertices"; the box of an internal node is "the union of its
    children's boxes".  The bounds program itself is missing. *)
Record aabb := mk_aabb { lo : float3; hi : float3 }.

Definition fmin (a b : f32) : f32 := if SFltb a b then a else b.
Definition fmax (a b : f32) : f32 := if SFltb a b then b else a.

Definition min3 (a b : float3) : float3 :=
  mk_float3 (fmin (f3_x a) (f3_x b)) (fmin (f3_y a) (f3_y b))
    (fmin (f3_z a) (f3_z b)).
Definition max3 (a b : float3) : float3 :=
  mk_float3 (fmax (f3_x a) (f3_x b)) (fmax (f3_y a) (f3_y b))
    (fmax (f3_z a) (f3_z b)).

Definition union (a b : aabb) : aabb :=
  mk_aabb (min3 (lo a) (lo b)) (max3 (hi a) (hi b)).

(** Modelled from the spec: the union of two boxes, where the device
    program that computes it is missing.  A box that was never written,
    or that was computed from one, is [None]. *)
Definition union_opt (a b : option aabb) : option aabb :=
  match a, b with
  | Some x, Some y => Some (union x y)
  | _, _ => None
  end.






(** Modelled from the spec: a node "records: left-child index,
    right-child index, parent index", with a sentinel for a link that is
    absent; nodes "reference each other by array index"; "the first P
    entries are leaves, the remaining P - 1 are internal nodes". *)
Record Node := mk_Node {
  n_left : option nat;
  n_right : option nat;
  n_parent : option nat
}.

Definition no_node : Node := mk_Node None None None.

Definition node_at (t : list Node) (i : nat) : Node := nth i t no_node.

(** Modelled from the spec: the missing refit program, section 4.6;
    "each leaf walks upward through its
    parent chain; at each internal node visited, it atomically
    increments an arrival counter; the node performs the union of its
    two children's AABBs and writes the result only when its counter
    reaches 2 (only the second arriving thread performs the write and
    continues the walk to the grandparent, the first arrival terminates
    its walk)".

    A thread is about to arrive at the parent of a node whose box is
    complete, or has won a node and is about to unite its children's
    boxes, or has stopped.  The increment is one atomic step, the union
    and write another. *)
Inductive pc := Arrive (c : nat) | Unite (p : nat) | Done.

Record refit_state := mk_refit {
  pcs : nat -> pc;              (* by thread *)
  arrivals : nat -> nat;        (* the arrival counter, by node *)
  boxes : nat -> option aabb;   (* by node *)
  unions : nat -> nat           (* how often the union-and-write path ran, by node *)
}.

Definition upd {A} (f : nat -> A) (i : nat) (a : A) : nat -> A :=
  fun j => if Nat.eqb j i then a else f j.

(** Modelled from the spec: the state the missing refit program starts
    in; one thread per leaf, standing on its leaf; counters reset and
    leaf boxes set by the node skeleton stage. *)
Definition refit_init (P : nat) (leaf_box : nat -> option aabb) : refit_state :=
  mk_refit (fun th => if Nat.ltb th P then Arrive th else Done)
    (fun _ => O)
    (fun n => if Nat.ltb n P then leaf_box n else None)
    (fun _ => O).

(** Modelled from the spec: one step of a thread of the missing refit
    program.  Arriving at the parent, the thread increments the counter
    atomically; it goes on to the union only if it brought the counter
    to 2, and stops otherwise, as it does at the node without parent.
    The union writes the box of the node from the boxes of its two
    children and the thread moves on to the node's parent. *)
Definition refit_step (t : list Node) (th : nat) (s : refit_state) : refit_state :=
  match pcs s th with
  | Done => s
  | Arrive c =>
      match n_parent (node_at t c) with
      | None => mk_refit (upd (pcs s) th Done) (arrivals s) (boxes s) (unions s)
      | Some p =>
          let arrived := S (arrivals s p) in
          mk_refit (upd (pcs s) th (if Nat.eqb arrived 2 then Unite p else Done))
            (upd (arrivals s) p arrived) (boxes s) (unions s)
      end
  | Unite p =>
      let l := n_left (node_at t p) in
      let r := n_right (node_at t p) in
      let b := match l, r with
               | Some l, Some r => union_opt (boxes s l) (boxes s r)
               | _, _ => None
               end in
      mk_refit (upd (pcs s) th (Arrive p)) (arrivals s)
        (upd (boxes s) p b) (upd (unions s) p (S (unions s p)))
  end.

(** Modelled from the spec: the threads of the missing refit program run
    in any interleaving; a schedule names the thread that takes the next
    step. *)
Definition refit_run (t : list Node) (schedule : list nat) (s : refit_state)
  : refit_state :=
  fold_left (fun s th => refit_step t th s) schedule s.

(** Modelled from the spec: the box of a node is final when it is a leaf
    (set by the missing node program), or its union was written. *)
Definition finalized (P : nat) (s : refit_state) (n : nat) : bool :=
  Nat.ltb n P || Nat.eqb (unions s n) 1.

(** Modelled from the spec: the steps from a node to the node without
    parent, in the node array of the missing split program. *)
Fixpoint steps_to_root (t : list Node) (fuel : nat) (c : nat) : option nat :=
  match n_parent (node_at t c) with
  | None => Some O
  | Some p =>
      match fuel with
      | O => None
      | S fuel' => option_map S (steps_to_root t fuel' p)
      end
  end.

Definition opt_is (n : nat) (o : option nat) : bool :=
  match o with Some m => Nat.eqb m n | None => false end.

(** Modelled from the spec: what the missing split program is to build,
    a binary tree over [2P - 1] nodes in the layout of the
    specification: leaves first and without children; every internal
    node with two different children that name it as parent; every
    parent internal and naming the child; no cycle. *)
Definition well_formed (P : nat) (t : list Node) : bool :=
  let N := (2 * P - 1)%nat in
  Nat.leb 1 P && Nat.eqb (length t) N &&
  forallb (fun i => match n_left (node_at t i), n_right (node_at t i) with
                    | None, None => true
                    | _, _ => false
                    end) (seq 0 P) &&
  forallb (fun p => match n_left (node_at t p), n_right (node_at t p) with
                    | Some l, Some r =>
                        negb (Nat.eqb l r) && Nat.ltb l N && Nat.ltb r N &&
                        opt_is p (n_parent (node_at t l)) &&
                        opt_is p (n_parent (node_at t r))
                    | _, _ => false
                    end) (seq P (P - 1)) &&
  forallb (fun c => match n_parent (node_at t c) with
                    | None => true
                    | Some p =>
                        Nat.leb P p && Nat.ltb p N &&
                        (opt_is c (n_left (node_at t p)) ||
                         opt_is c (n_right (node_at t p)))
                    end &&
                    match steps_to_root t N c with
                    | Some _ => true
                    | None => false
                    end) (seq 0 N).






(** Trees to try the refit on: three leaves, and four leaves in a chain
    (every internal node has a leaf as right child). *)
Definition tree3 : list Node :=
  [ mk_Node None None (Some 4); mk_Node None None (Some 4);
    mk_Node None None (Some 3);
    mk_Node (Some 4) (Some 2) None;
    mk_Node (Some 0) (Some 1) (Some 3) ]%nat.

Definition chain4 : list Node :=
  [ mk_Node None None (Some 6); mk_Node None None (Some 6);
    mk_Node None None (Some 5); mk_Node None None (Some 4);
    mk_Node (Some 5) (Some 3) None;
    mk_Node (Some 6) (Some 2) (Some 4);
    mk_Node (Some 0) (Some 1) (Some 5) ]%nat.

Definition round_robin (P rounds : nat) : list nat :=
  concat (repeat (seq 0 P) rounds).

(** * Predicates of the proofs *)

Unset Implicit Arguments.

(** ** The host after the construction *)

(** [c'] differs from [c] at most in mapping flags, liveness, registered
    compute programs and lines added to the console: nothing was
    submitted and no buffer changed content, size or type. *)
Definition same_dev (c c' : context) : Prop :=
  submitted c' = submitted c /\ raygens c' = raygens c /\
  sbt_raygen c' = sbt_raygen c /\
  (exists l, console c' = console c ++ l) /\
  length (buffers c') = length (buffers c) /\
  forall b, buf_data (get_buffer (buffers c') b) = buf_data (get_buffer (buffers c) b)
         /\ buf_count (get_buffer (buffers c') b) = buf_count (get_buffer (buffers c) b)
         /\ buf_type (get_buffer (buffers c') b) = buf_type (get_buffer (buffers c) b).

Definition quiet {A} (m : M A) : Prop := forall c, same_dev c (fst (m c)).

(** A handle that is null or names a buffer created after the first [n]. *)
Definition late (n : nat) (h : handle) : Prop :=
  match h with O => True | S b => (n <= b)%nat end.

(** A submission after the construction: not one of its stages, writing
    none of the buffers [bs6] the construction left, and started on
    their contents unchanged. *)
Definition later_event (bs6 : list Buffer) (e : event) : Prop :=
  is_construction e = false /\
  (forall b, (b < length bs6)%nat -> in_handles b (event_writes e) = false) /\
  forall b i, (b < length bs6)%nat -> event_pre e b i = mem_of bs6 b i.

(** What holds of the context from the end of the construction on: the
    console, the buffers [bs6] and the submissions [l6] of the
    construction are still there, and whatever was submitted since is a
    [later_event]. *)
Definition Inv (bs6 : list Buffer) (l6 : list event) (con6 : list out_item)
  (c : context) : Prop :=
  (exists l, console c = con6 ++ l) /\
  (length bs6 <= length (buffers c))%nat /\
  (forall b, (b < length bs6)%nat ->
     buf_data (get_buffer (buffers c) b) = buf_data (get_buffer bs6 b) /\
     buf_count (get_buffer (buffers c) b) = buf_count (get_buffer bs6 b) /\
     buf_type (get_buffer (buffers c) b) = buf_type (get_buffer bs6 b)) /\
  (exists l, submitted c = l6 ++ l /\ Forall (later_event bs6) l) /\
  (forall r, In r (raygens c) -> late (length bs6) (frameBuffer (r_params r))) /\
  (forall p, In p (sbt_raygen c) -> late (length bs6) (frameBuffer p)).

(** [m] preserves [I], on success and on abort, and returns values in [V]. *)
Definition keeps {A} (I : context -> Prop) (m : M A) (V : A -> Prop) : Prop :=
  forall c, I c -> I (fst (m c)) /\ forall a, snd (m c) = Some a -> V a.

(** ** The refit *)

(** The box of [c] is complete and no thread stands on [c] any more. *)
Definition departed (P : nat) (s : refit_state) (c : nat) : Prop :=
  finalized P s c = true /\ forall th, pcs s th <> Arrive c.

Definition b2n (b : bool) : nat := if b then 1%nat else 0%nat.

(** What [well_formed] checks, as propositions. *)
Record tree_facts (P : nat) (t : list Node) : Prop := {
  tf_P : (1 <= P)%nat;
  tf_inner : forall p, (P <= p < 2 * P - 1)%nat ->
    exists l r, n_left (node_at t p) = Some l /\ n_right (node_at t p) = Some r /\
                l <> r /\ (l < 2 * P - 1)%nat /\ (r < 2 * P - 1)%nat /\
                n_parent (node_at t l) = Some p /\
                n_parent (node_at t r) = Some p;
  tf_parent : forall c p, (c < 2 * P - 1)%nat -> n_parent (node_at t c) = Some p ->
    (P <= p < 2 * P - 1)%nat /\
    (n_left (node_at t p) = Some c \/ n_right (node_at t p) = Some c);
  tf_reach : forall c, (c < 2 * P - 1)%nat ->
    exists d, steps_to_root t (2 * P - 1) c = Some d
}.

(** The invariant of the refit: a thread stands on a complete node, or
    has won a node whose counter is 2 and whose box is not yet written;
    no two threads stand on the same node or have won the same node; the
    counter of a node counts its children that are complete and left;
    the union-and-write path of a node ran at most once, and only with
    the counter at 2. *)
Record refit_inv (P : nat) (t : list Node) (s : refit_state) : Prop := {
  iA : forall th c, pcs s th = Arrive c ->
         (c < 2 * P - 1)%nat /\ finalized P s c = true;
  iB : forall th p, pcs s th = Unite p ->
         (P <= p < 2 * P - 1)%nat /\ arrivals s p = 2%nat /\ unions s p = 0%nat;
  iC : forall th th' c, pcs s th = Arrive c -> pcs s th' = Arrive c -> th = th';
  iD : forall th th' p, pcs s th = Unite p -> pcs s th' = Unite p -> th = th';
  iE : forall p l r, (P <= p < 2 * P - 1)%nat ->
         n_left (node_at t p) = Some l -> n_right (node_at t p) = Some r ->
         exists a b, arrivals s p = (b2n a + b2n b)%nat /\
                     (a = true <-> departed P s l) /\
                     (b = true <-> departed P s r);
  iF : forall p, (P <= p < 2 * P - 1)%nat ->
         (unions s p <= 1)%nat /\
         (unions s p = 1%nat -> arrivals s p = 2%nat) /\
         (arrivals s p = 2%nat ->
          unions s p = 1%nat \/ exists th, pcs s th = Unite p);
  iG : forall n, (n < P \/ 2 * P - 1 <= n)%nat -> unions s n = 0%nat
}.

(** The steps a thread still has to take, at most. *)
Definition work (t : list Node) (N : nat) (x : pc) : nat :=
  match x with
  | Done => 0%nat
  | Arrive c =>
      match steps_to_root t N c with
      | Some d => (2 * d + 1)%nat
      | None => 0%nat
      end
  | Unite p =>
      match steps_to_root t N p with
      | Some d => (2 * d + 2)%nat
      | None => 0%nat
      end
  end.

(** A written box is the union of the boxes of the two children. *)
Definition boxes_united (P : nat) (t : list Node) (s : refit_state) : Prop :=
  forall p l r, (P <= p < 2 * P - 1)%nat ->
    n_left (node_at t p) = Some l -> n_right (node_at t p) = Some r ->
    unions s p = 1%nat -> boxes s p = union_opt (boxes s l) (boxes s r).


(** * The rest of [main] and the constructor of the mesh *)

(** ** The frames of a run *)

(** The reports of the window system that the render loop consumes: the
    first one always (the loop is a [do ... while]), then one per turn
    up to and including the first that asks to close. *)
Fixpoint frames (inputs : list frame_input) (inp : frame_input)
  : list frame_input :=
  inp :: (if should_close inp then []
          else match inputs with
               | [] => []
               | inp' :: inputs' => frames inputs' inp'
               end).

(** What the render loop leaves: the launches it submitted, the record
    of the ray generation program and the buffers. *)
Record rendered := mk_rendered {
  r_events : list event;
  r_data : RayGenData;
  r_buffers : list Buffer
}.

(** The render loop as a function of what it starts from. *)
Fixpoint render_frames (dev : Device) (entry : string)
  (inputs : list frame_input) (inp : frame_input) (firstFrame : bool)
  (pos : spec_float * spec_float) (lookFrom : float3) (iFrame : Z)
  (d : RayGenData) (bs : list Buffer) : rendered :=
  let lastpos := if firstFrame then cursor inp else pos in
  let o := orbit dev lookFrom lastpos (cursor inp) in
  let moved := left_pressed inp || firstFrame in
  let d := if moved then set_camera (snd o) d else d in
  let lookFrom := if moved then fst o else lookFrom in
  let d := set_iFrame iFrame (set_iTime (time inp) d) in
  let e := EvRayGen entry d (i2_x fbSize) (i2_y fbSize) (mem_of bs) in
  let bs := after_event dev bs e in
  if should_close inp then mk_rendered [e] d bs
  else match inputs with
       | [] => mk_rendered [e] d bs
       | inp' :: inputs' =>
           let r := render_frames dev entry inputs' inp' false (cursor inp)
                      lookFrom (iFrame + 1) d bs in
           mk_rendered (e :: r_events r) (r_data r) (r_buffers r)
       end.

(** The frame buffer as [main] creates it, the frames of a run of
    [main], and a buffer after [gprtBufferDestroy]. *)
Definition new_frame_buffer : Buffer :=
  mk_Buffer Tuint32 (i2_x fbSize * i2_y fbSize) (fun _ => uninit Tuint32)
    false true.

Definition rendering (dev : Device) (vs : list float3) (ts : list uint3)
  (inp : frame_input) (inputs : list frame_input) : rendered :=
  render_frames dev "simpleRayGen" inputs inp true
    (S754_zero false, S754_zero false) lookFrom_initial 0
    (set_frameBuffer 8%nat RayGenData_zero)
    (constructed_buffers dev vs ts ++ [new_frame_buffer]).

Definition destroyed (x : Buffer) : Buffer :=
  mk_Buffer (buf_type x) (buf_count x) (buf_data x) false false.

(** The lines [main] prints after the rows of the read-back. *)
Definition closing_lines : list out_item :=
  [OutLog "launching ...";
   OutLog "done with launch, writing frame buffer to s12-swBVH.png";
   OutLog "written rendered frame buffer to file s12-swBVH.png";
   OutLog "cleaning up ...";
   OutLog "seems all went OK; app is done, this should be the last output ..."].

(** ** The generator of a mesh *)

(** What the constructor of [Mesh] uses of a stream of the generator
    library ([generator.hpp] is not among the sources): [done()],
    [generate()] and [next()], here on an explicit state. *)
Record Stream (St A : Type) := mk_Stream {
  s_done : St -> bool;
  s_generate : St -> A;
  s_next : St -> St
}.
Arguments mk_Stream {St A}.
Arguments s_done {St A}.
Arguments s_generate {St A}.
Arguments s_next {St A}.

(** [while (!g.done()) { v.push_back(f(g.generate())); g.next(); }],
    with [None] when the loop is still running after [fuel] tests. *)
Fixpoint drain {St A B} (g : Stream St A) (f : A -> B) (fuel : nat) (s : St)
  (v : list B) : option (list B) :=
  match fuel with
  | O => None
  | S fuel' =>
      if s_done g s then Some v
      else drain g f fuel' (s_next g s) (v ++ [f (s_generate g s)])
  end.

(** A generator [T]: [generator.vertices()] and [generator.triangles()],
    and the conversions [float3(position[0], position[1], position[2])]
    of a vertex and [uint3(vertices[0], vertices[1], vertices[2])] of a
    triangle. *)
Record MeshGenerator := mk_MeshGenerator {
  vert_state : Type;
  tri_state : Type;
  MeshVertex : Type;
  Triangle : Type;
  vertGenerator : Stream vert_state MeshVertex;
  vert_start : vert_state;
  triGenerator : Stream tri_state Triangle;
  tri_start : tri_state;
  position3 : MeshVertex -> float3;
  vertices3 : Triangle -> uint3
}.

(** The two loops of [Mesh(GPRTContext context, T generator)]. *)
Definition Mesh_generated (T : MeshGenerator) (fuel : nat)
  : option (list float3 * list uint3) :=
  match drain (vertGenerator T) (position3 T) fuel (vert_start T) [] with
  | None => None
  | Some vertices =>
      match drain (triGenerator T) (vertices3 T) fuel (tri_start T) [] with
      | None => None
      | Some indices => Some (vertices, indices)
      end
  end.

(** The state of a stream after [k] calls of [next()], the item it then
    generates, and a stream that reports [done()] after exactly [n]. *)
Definition after_next {St A} (g : Stream St A) (s : St) (k : nat) : St :=
  Nat.iter k (s_next g) s.

Definition item {St A} (g : Stream St A) (s : St) (k : nat) : A :=
  s_generate g (after_next g s k).

Definition stops_after {St A} (g : Stream St A) (s : St) (n : nat) : Prop :=
  (forall k, (k < n)%nat -> s_done g (after_next g s k) = false) /\
  s_done g (after_next g s n) = true.

(** A stream over a list, and a generator of the example mesh. *)
Definition list_stream {A} (d : A) : Stream (list A) A :=
  mk_Stream (fun l => match l with [] => true | _ => false end)
    (fun l => hd d l) (fun l => tl l).

Definition example_generator : MeshGenerator :=
  mk_MeshGenerator (list float3) (list uint3) float3 uint3
    (list_stream zero3) example_vertices
    (list_stream (mk_uint3 0 0 0)) two_triangles (fun v => v) (fun t => t).

(** * The host program *)


Lemma wrap32_small z : 0 <= z < 2 ^ 32 -> wrap32 z = z.
Proof. intros H. unfold wrap32. apply Z.mod_small. exact H. Qed.

Lemma aabbs_count_ge_2 P : 2 <= u32_mul 2 (u32_sub (u32_mul 2 P) 1).
Proof.
  unfold u32_mul, u32_sub, wrap32.
  change (2 ^ 32) with 4294967296.
  Z.div_mod_to_equations. lia.
Qed.

Lemma bind_some {A B} (m : M A) (f : A -> M B) c c' a :
  m c = (c', Some a) -> bind m f c = f a c'.
Proof. intros H. unfold bind. rewrite H. reflexivity. Qed.


Ltac op_eval t :=
  let t1 := eval cbv beta iota zeta delta
      [bind ret get put modify guard abort gprtComputeCreate Mesh_create
       gprtDeviceBufferCreate gprtBufferGetHandle gprtBufferMap gprtBufferGetPointer
       gprtBufferUnmap gprtBufferDestroy gprtComputeSetParameters gprtRayGenCreate
       raygen_assign gprtBufferPresent gprtBufferSaveImage cout LOG LOG_OK
       gprtBuildShaderBindingTable gprtComputeLaunch1D gprtBufferSortPayload
       gprtRayGenLaunch2D submit
       with_buffers with_computes with_raygens with_sbt with_submitted with_console
       buffers computes raygens sbt_compute sbt_raygen submitted console
       get_buffer buf_type buf_count buf_data buf_mapped buf_live
       c_entry c_params r_entry r_params indices vertices vertexBuffer indexBuffer
       set_numPrims set_numInner set_numNodes set_triangles set_positions
       set_mortonCodes set_ids set_nodes set_aabbs LBVHData_zero no_handle
       numPrims numInner numNodes triangles positions mortonCodes ids nodes aabbs
       andb fst snd] in t in
  eval cbn [length app nth nth_error update_buffer update_nth map Nat.ltb Nat.leb
            buf_live buf_mapped andb] in t1.

Ltac step :=
  lazymatch goal with
  | |- @bind ?A ?B ?m ?f ?c = _ =>
      let r := op_eval (m c) in
      lazymatch r with
      | (?c', Some ?a) =>
          rewrite (@bind_some A B m f c c' a (eq_refl : m c = r)); cbv beta zeta
      end
  end.

Lemma run_store ptr i a v bs cs rs sc sr sub con e :
  valid_access (get_buffer bs ptr) i = true ->
  set_component a v (buf_data (get_buffer bs ptr) i) = Some e ->
  store_component ptr i a v (mk_context bs cs rs sc sr sub con) =
  (mk_context (update_buffer bs ptr (fun x =>
        mk_Buffer (buf_type x) (buf_count x) (store_data (buf_data x) i e)
          (buf_mapped x) (buf_live x))) cs rs sc sr sub con, Some v).
Proof.
  intros Hv Hs. unfold store_component, bind, get, guard. cbn [buffers].
  rewrite Hv. cbn [bind guard ret]. rewrite Hs. reflexivity.
Qed.


Lemma valid_access_mapped t cnt d i :
  0 <= i < cnt -> valid_access (mk_Buffer t cnt d true true) i = true.
Proof.
  intros H. unfold valid_access. cbn.
  destruct (Z.leb_spec 0 i), (Z.ltb_spec i cnt); (reflexivity || lia).
Qed.

Ltac step_store :=
  lazymatch goal with
  | |- @bind ?A ?B (store_component ?ptr ?i ?a ?v) ?f
         (mk_context ?bs ?cs ?rs ?sc ?sr ?sub ?con) = _ =>
      erewrite (@bind_some A B (store_component ptr i a v) f);
      [ | apply run_store;
          [ apply valid_access_mapped; lia
          | cbn [get_buffer nth buf_data store_data set_component Z.eqb];
            reflexivity ] ];
      cbn [update_buffer buf_type buf_count buf_data buf_mapped buf_live];
      cbv beta zeta
  end.


Lemma seeded_0 : seeded 0 = seed_lo.
Proof. reflexivity. Qed.
Lemma seeded_1 : seeded 1 = seed_hi.
Proof. reflexivity. Qed.
Lemma seeded_other i : i <> 0 -> i <> 1 -> seeded i = uninit Tfloat3.
Proof.
  intros H0 H1. unfold seeded, store_data.
  destruct (Z.eqb_spec i 1); [lia|]. destruct (Z.eqb_spec i 0); [lia|].
  reflexivity.
Qed.

Lemma run_launch dev k n bs cs rs sc sr sub con x p :
  nth_error cs k = Some x -> nth_error sc k = Some p ->
  gprtComputeLaunch1D dev k n (mk_context bs cs rs sc sr sub con) =
  (mk_context (after_event dev bs (EvCompute (c_entry x) p n (mem_of bs)))
     cs rs sc sr (sub ++ [EvCompute (c_entry x) p n (mem_of bs)]) con, Some tt).
Proof.
  intros Hx Hp. unfold gprtComputeLaunch1D, bind, get. cbn [computes sbt_compute].
  rewrite Hx, Hp. reflexivity.
Qed.

Lemma run_sort dev keys vals scratch bs cs rs sc sr sub con :
  gprtBufferSortPayload dev keys vals scratch (mk_context bs cs rs sc sr sub con) =
  (mk_context (after_event dev bs (EvSort keys vals scratch (mem_of bs)))
     cs rs sc sr (sub ++ [EvSort keys vals scratch (mem_of bs)]) con, Some tt).
Proof. reflexivity. Qed.

Ltac step_launch :=
  lazymatch goal with
  | |- @bind ?A ?B (gprtComputeLaunch1D ?dev ?k ?n) ?f ?c = _ =>
      erewrite (@bind_some A B (gprtComputeLaunch1D dev k n) f);
      [ | apply run_launch; reflexivity ];
      cbn [app c_entry]; cbv beta zeta
  | |- @bind ?A ?B (gprtBufferSortPayload ?dev ?k ?v ?s) ?f ?c = _ =>
      erewrite (@bind_some A B (gprtBufferSortPayload dev k v s) f);
      [ | apply run_sort ];
      cbn [app]; cbv beta zeta
  end.

(** The construction block of [main] run on a fresh context. *)
Lemma main_build_run dev vs ts con :
  main_build dev vs ts (mk_context [] [] [] [] [] [] con) =
    (mk_context (constructed_buffers dev vs ts)
       (map (fun entry => mk_Compute entry (lbvh_params ts))
          ["ComputeTriangleBounds"; "ComputeTriangleMortonCodes"; "MakeNodes";
           "SplitNodes"; "BuildTriangleHierarchy"])
       [] (repeat (lbvh_params ts) 5) [] (construction_events dev vs ts) con,
     Some (mk_Mesh vs ts 0 1, lbvh_params ts, 5%nat, 6%nat)).
Proof.
  cbn [map repeat].
  unfold constructed_buffers, construction_events.
  set (bs0 := seeded_buffers dev vs ts).
  unfold main_build.
  do 19 step.
  pose proof (aabbs_count_ge_2 (wrap32 (Z.of_nat (length ts)))) as Hc.
  do 6 step_store.
  do 7 step.
  match goal with
  | |- context [mk_context ?bs _ _ _ _ _ _] => change bs with bs0
  end.
  clearbody bs0.
  do 6 step_launch.
  cbv beta iota zeta delta [replay construction fst snd].
  reflexivity.
Qed.

(** *** Buffers under updates and submissions *)

Lemma get_update_proj {T} (g : Buffer -> T) (f : Buffer -> Buffer) :
  (forall x, g (f x) = g x) ->
  forall bs b b', g (get_buffer (update_buffer bs b f) b') = g (get_buffer bs b').
Proof.
  intros Hg. unfold get_buffer. induction bs as [|x bs IH]; intros b b'.
  - reflexivity.
  - destruct b as [|b], b' as [|b']; cbn [update_buffer nth]; auto.
Qed.

Lemma length_update_buffer bs b f :
  length (update_buffer bs b f) = length bs.
Proof.
  revert b. induction bs as [|x bs IH]; intros [|b]; cbn [update_buffer length];
    auto.
Qed.

Lemma length_commit_from h ws m' bs : length (commit_from h ws m' bs) = length bs.
Proof.
  revert h. induction bs as [|x bs IH]; intros h; cbn [commit_from length]; auto.
Qed.

Lemma get_commit_from h ws m' bs b :
  get_buffer (commit_from h ws m' bs) b =
  if (b <? length bs)%nat && in_handles (h + b) ws
  then let x := get_buffer bs b in
       mk_Buffer (buf_type x) (buf_count x)
         (fun i => if (0 <=? i) && (i <? buf_count x)
                   then m' (h + b)%nat i else buf_data x i)
         (buf_mapped x) (buf_live x)
  else get_buffer bs b.
Proof.
  unfold get_buffer. revert h b. induction bs as [|x bs IH]; intros h b.
  - cbn [commit_from length]. destruct b; reflexivity.
  - cbn [commit_from]. destruct b as [|b]; cbn [nth length].
    + rewrite Nat.add_0_r. change (0 <? S (length bs))%nat with true.
      cbn [andb]. destruct (in_handles h ws); reflexivity.
    + rewrite IH. replace (S h + b)%nat with (h + S b)%nat by lia.
      change (S b <? S (length bs))%nat with (b <? length bs)%nat.
      reflexivity.
Qed.

Lemma commit_count ws m' bs b :
  buf_count (get_buffer (commit ws m' bs) b) = buf_count (get_buffer bs b).
Proof.
  unfold commit. rewrite get_commit_from.
  destruct ((b <? length bs)%nat && in_handles (0 + b) ws); reflexivity.
Qed.

Lemma commit_type ws m' bs b :
  buf_type (get_buffer (commit ws m' bs) b) = buf_type (get_buffer bs b).
Proof.
  unfold commit. rewrite get_commit_from.
  destruct ((b <? length bs)%nat && in_handles (0 + b) ws); reflexivity.
Qed.

Lemma commit_untouched ws m' bs b :
  in_handles b ws = false ->
  get_buffer (commit ws m' bs) b = get_buffer bs b.
Proof.
  intros H. unfold commit. rewrite get_commit_from. cbn [Nat.add].
  rewrite H, andb_false_r. reflexivity.
Qed.

Lemma commit_data ws m' bs b i :
  (b < length bs)%nat ->
  buf_data (get_buffer (commit ws m' bs) b) i =
  if in_handles b ws && ((0 <=? i) && (i <? buf_count (get_buffer bs b)))
  then m' b i else buf_data (get_buffer bs b) i.
Proof.
  intros Hb. unfold commit. rewrite get_commit_from. cbn [Nat.add].
  apply Nat.ltb_lt in Hb. rewrite Hb. cbn [andb].
  destruct (in_handles b ws); reflexivity.
Qed.

Lemma mem_after_event dev bs e :
  event_pre e = mem_of bs ->
  forall b i, (b < length bs)%nat ->
    mem_of (after_event dev bs e) b i = mem_after dev (count_of bs) e b i.
Proof.
  intros Hpre b i Hb. unfold mem_of, after_event, mem_after, count_of.
  rewrite commit_data by exact Hb. rewrite Hpre. reflexivity.
Qed.

Lemma length_after_event dev bs e : length (after_event dev bs e) = length bs.
Proof. apply length_commit_from. Qed.

(** *** Computations that leave the device alone *)

Lemma same_dev_refl c : same_dev c c.
Proof.
  unfold same_dev. repeat split; try reflexivity.
  exists []. symmetry. apply app_nil_r.
Qed.

Lemma same_dev_trans c1 c2 c3 : same_dev c1 c2 -> same_dev c2 c3 -> same_dev c1 c3.
Proof.
  intros (A1 & A2 & A3 & (la & Ala) & A4 & A5) (B1 & B2 & B3 & (lb & Blb) & B4 & B5).
  unfold same_dev. repeat split; try congruence.
  - exists (la ++ lb). rewrite Blb, Ala, app_assoc. reflexivity.
  - destruct (A5 b) as (E & _ & _), (B5 b) as (F & _ & _). congruence.
  - destruct (A5 b) as (_ & E & _), (B5 b) as (_ & F & _). congruence.
  - destruct (A5 b) as (_ & _ & E), (B5 b) as (_ & _ & F). congruence.
Qed.

Lemma quiet_bind {A B} (m : M A) (f : A -> M B) :
  quiet m -> (forall a, quiet (f a)) -> quiet (bind m f).
Proof.
  intros Hm Hf c. unfold bind. specialize (Hm c).
  destruct (m c) as [c' [a|]]; cbn [fst] in *.
  - eapply same_dev_trans; [exact Hm | apply Hf].
  - exact Hm.
Qed.

Lemma quiet_ret {A} (a : A) : quiet (ret a).
Proof. intros c. apply same_dev_refl. Qed.

Lemma quiet_abort {A} : quiet (@abort A).
Proof. intros c. apply same_dev_refl. Qed.

Lemma quiet_get : quiet get.
Proof. intros c. apply same_dev_refl. Qed.

Lemma quiet_guard b : quiet (guard b).
Proof. destruct b; [apply quiet_ret | apply quiet_abort]. Qed.

Lemma quiet_modify_buffers b f :
  (forall x, buf_data (f x) = buf_data x) ->
  (forall x, buf_count (f x) = buf_count x) ->
  (forall x, buf_type (f x) = buf_type x) ->
  quiet (c <- get ;; modify (with_buffers (update_buffer (buffers c) b f))).
Proof.
  intros Hd Hc Ht c. unfold bind, get, modify, with_buffers, same_dev. cbn.
  repeat split; auto using length_update_buffer.
  - exists []. symmetry. apply app_nil_r.
  - apply (get_update_proj buf_data); exact Hd.
  - apply (get_update_proj buf_count); exact Hc.
  - apply (get_update_proj buf_type); exact Ht.
Qed.

Lemma quiet_guarded_modify g b f :
  (forall x, buf_data (f x) = buf_data x) ->
  (forall x, buf_count (f x) = buf_count x) ->
  (forall x, buf_type (f x) = buf_type x) ->
  quiet (c <- get ;; guard (g c) ;;
         modify (with_buffers (update_buffer (buffers c) b f))).
Proof.
  intros Hd Hc Ht c. unfold bind, get, guard.
  destruct (g c); cbn [ret abort fst].
  - apply (quiet_modify_buffers b f Hd Hc Ht c).
  - apply same_dev_refl.
Qed.

Lemma quiet_Map b : quiet (gprtBufferMap b).
Proof. apply quiet_guarded_modify; reflexivity. Qed.

Lemma quiet_Unmap b : quiet (gprtBufferUnmap b).
Proof. apply quiet_guarded_modify; reflexivity. Qed.

Lemma quiet_Destroy b : quiet (gprtBufferDestroy b).
Proof. apply quiet_modify_buffers; reflexivity. Qed.

Lemma quiet_load ptr i : quiet (load ptr i).
Proof.
  unfold load. apply quiet_bind; [apply quiet_get|]. intros c.
  apply quiet_bind; [apply quiet_guard|]. intros _. apply quiet_ret.
Qed.

Lemma quiet_cout o : quiet (cout o).
Proof.
  intros c. unfold cout, bind, get, modify, same_dev. cbn.
  repeat split; try reflexivity. exists [o]. reflexivity.
Qed.

Lemma quiet_Present b : quiet (gprtBufferPresent b).
Proof.
  unfold gprtBufferPresent. apply quiet_bind; [apply quiet_get|]. intros c.
  apply quiet_guard.
Qed.

Lemma quiet_SaveImage b w h name : quiet (gprtBufferSaveImage b w h name).
Proof.
  unfold gprtBufferSaveImage. apply quiet_bind; [apply quiet_get|]. intros c.
  apply quiet_guard.
Qed.

Lemma quiet_for_upto k i body :
  (forall j, quiet (body j)) -> quiet (for_upto k i body).
Proof.
  intros Hb. revert i. induction k as [|k IH]; intros i; cbn [for_upto].
  - apply quiet_ret.
  - apply quiet_bind; [apply Hb | intros _; apply IH].
Qed.

Ltac quiet_tac :=
  lazymatch goal with
  | |- quiet (gprtBufferMap _) => apply quiet_Map
  | |- quiet (gprtBufferUnmap _) => apply quiet_Unmap
  | |- quiet (gprtBufferDestroy _) => apply quiet_Destroy
  | |- quiet (gprtBufferGetPointer _) => apply quiet_ret
  | |- quiet (gprtBufferGetHandle _) => apply quiet_ret
  | |- quiet (load _ _) => apply quiet_load
  | |- quiet (cout _) => apply quiet_cout
  | |- quiet (LOG _) => apply quiet_cout
  | |- quiet (LOG_OK _) => apply quiet_cout
  | |- quiet (gprtBufferPresent _) => apply quiet_Present
  | |- quiet (gprtBufferSaveImage _ _ _ _) => apply quiet_SaveImage
  | |- quiet (for_upto _ _ _) => apply quiet_for_upto; intros ?; quiet_tac
  | |- quiet (ret _) => apply quiet_ret
  | |- quiet (bind _ _) => apply quiet_bind; [quiet_tac | intros ?; quiet_tac]
  end.

Lemma quiet_readback p nodes aabbs : quiet (main_readback p nodes aabbs).
Proof. unfold main_readback. quiet_tac. Qed.

Lemma quiet_cleanup mesh fb : quiet (main_cleanup mesh fb).
Proof. unfold main_cleanup, Mesh_cleanup. quiet_tac. Qed.

(** *** What the rest of [main] keeps of a finished construction *)

Lemma Inv_same_dev bs6 l6 con6 c c' :
  Inv bs6 l6 con6 c -> same_dev c c' -> Inv bs6 l6 con6 c'.
Proof.
  intros ((l0 & I0) & I1 & I2 & I3 & I4 & I5) (S1 & S2 & S3 & (l & Sl) & S4 & S5).
  unfold Inv. rewrite S1, S2, S3, S4. repeat split; auto.
  - exists (l0 ++ l). rewrite Sl, I0, app_assoc. reflexivity.
  - destruct (S5 b) as (E & _ & _), (I2 b H) as (F & _ & _). congruence.
  - destruct (S5 b) as (_ & E & _), (I2 b H) as (_ & F & _). congruence.
  - destruct (S5 b) as (_ & _ & E), (I2 b H) as (_ & _ & F). congruence.
Qed.

Lemma keeps_bind {A B} I (m : M A) (f : A -> M B) V W :
  keeps I m V -> (forall a, V a -> keeps I (f a) W) -> keeps I (bind m f) W.
Proof.
  intros Hm Hf c Hc. unfold bind. destruct (Hm c Hc) as [H1 H2].
  destruct (m c) as [c' [a|]]; cbn [fst snd] in *.
  - apply Hf; auto.
  - split; [exact H1 | discriminate].
Qed.

Lemma keeps_weaken {A} I (m : M A) (V W : A -> Prop) :
  keeps I m V -> (forall a, V a -> W a) -> keeps I m W.
Proof. intros H HW c Hc. destruct (H c Hc). split; auto. Qed.

Lemma keeps_ret {A} I (a : A) (V : A -> Prop) : V a -> keeps I (ret a) V.
Proof. intros Ha c Hc. cbn. split; [exact Hc | intros ? [= <-]; exact Ha]. Qed.

Lemma keeps_quiet {A} bs6 l6 con6 (m : M A) :
  quiet m -> keeps (Inv bs6 l6 con6) m (fun _ => True).
Proof.
  intros Hq c Hc. split; [|auto]. eapply Inv_same_dev; [exact Hc | apply Hq].
Qed.

Lemma get_buffer_app_l bs x b :
  (b < length bs)%nat -> get_buffer (bs ++ [x]) b = get_buffer bs b.
Proof. intros H. unfold get_buffer. apply app_nth1. exact H. Qed.

Lemma keeps_BufferCreate bs6 l6 con6 t count init :
  keeps (Inv bs6 l6 con6) (gprtDeviceBufferCreate t count init)
    (fun b => (length bs6 <= b)%nat).
Proof.
  intros c (I0 & I1 & I2 & I3 & I4 & I5). unfold gprtDeviceBufferCreate.
  cbn [fst snd]. split.
  - unfold Inv, with_buffers. cbn [buffers submitted raygens sbt_raygen console].
    rewrite length_app. cbn [length]. repeat split; auto; try lia;
      rewrite get_buffer_app_l by lia; apply I2; assumption.
  - intros a [= <-]. exact I1.
Qed.

Lemma keeps_RayGenCreate bs6 l6 con6 entry :
  keeps (Inv bs6 l6 con6) (gprtRayGenCreate entry) (fun _ => True).
Proof.
  intros c (I0 & I1 & I2 & I3 & I4 & I5). split; [|auto].
  unfold gprtRayGenCreate, bind, get, modify, ret, with_raygens, Inv.
  cbn [fst buffers submitted raygens sbt_raygen console]. repeat split; auto; try apply I2; auto.
  intros r Hr. apply in_app_or in Hr. destruct Hr as [Hr|[<-|[]]].
  - apply I4, Hr.
  - exact I.
Qed.

Lemma In_update_nth {T} (l : list T) n f x :
  In x (update_nth l n f) -> In x l \/ exists y, In y l /\ x = f y.
Proof.
  revert n. induction l as [|a l IH]; intros [|n]; cbn [update_nth In]; auto.
  - intros [<-|H]; [right; exists a; auto | auto].
  - intros [<-|H]; [auto|]. destruct (IH _ H) as [H'|(y & Hy & ->)]; auto.
    right. exists y. auto.
Qed.

Lemma keeps_raygen_assign bs6 l6 con6 r f :
  (forall d, late (length bs6) (frameBuffer d) ->
             late (length bs6) (frameBuffer (f d))) ->
  keeps (Inv bs6 l6 con6) (raygen_assign r f) (fun _ => True).
Proof.
  intros Hf c (I0 & I1 & I2 & I3 & I4 & I5). split; [|auto].
  unfold raygen_assign, bind, get, guard.
  destruct (Nat.ltb r (length (raygens c))); cbn [ret abort fst modify].
  - unfold Inv, with_raygens. cbn [buffers submitted raygens sbt_raygen console].
    repeat split; auto; try apply I2; auto.
    intros x Hx. apply In_update_nth in Hx.
    destruct Hx as [Hx|(y & Hy & ->)]; [apply I4, Hx|].
    cbn [r_params]. apply Hf, I4, Hy.
  - unfold Inv. tauto.
Qed.

Lemma keeps_BuildSBT bs6 l6 con6 flags :
  keeps (Inv bs6 l6 con6) (gprtBuildShaderBindingTable flags) (fun _ => True).
Proof.
  intros c (I0 & I1 & I2 & I3 & I4 & I5). split; [|auto].
  assert (Hmap : forall p, In p (map r_params (raygens c)) ->
                           late (length bs6) (frameBuffer p)).
  { intros p Hp. apply in_map_iff in Hp. destruct Hp as (x & <- & Hx).
    apply I4, Hx. }
  unfold gprtBuildShaderBindingTable, bind, get.
  destruct flags; cbn [modify fst]; unfold Inv, with_sbt;
    cbn [buffers submitted raygens sbt_raygen console]; repeat split; auto;
    try apply I2; auto.
Qed.

Lemma late_not_in n h b : late n h -> (b < n)%nat -> in_handles b [h] = false.
Proof.
  intros Hl Hb. unfold in_handles, resolve. cbn [flat_map].
  destruct h as [|x]; cbn [app existsb]; [reflexivity|].
  cbn in Hl. rewrite orb_false_r. apply Nat.eqb_neq. lia.
Qed.

Lemma keeps_RayGenLaunch bs6 l6 con6 dev r w h :
  keeps (Inv bs6 l6 con6) (gprtRayGenLaunch2D dev r w h) (fun _ => True).
Proof.
  intros c (I0 & I1 & I2 & I3 & I4 & I5). split; [|auto].
  unfold gprtRayGenLaunch2D, bind, get.
  destruct (nth_error (raygens c) r) as [x|] eqn:Ex;
    [destruct (nth_error (sbt_raygen c) r) as [p|] eqn:Ep|];
    cbn [abort fst]; try (unfold Inv; tauto).
  unfold submit, bind, get, put. cbn [fst].
  assert (Hp : late (length bs6) (frameBuffer p)).
  { apply I5. eapply nth_error_In; exact Ep. }
  unfold Inv, with_submitted, with_buffers.
  cbn [buffers submitted raygens sbt_raygen console].
  rewrite length_after_event.
  assert (Hun : forall b, (b < length bs6)%nat ->
            get_buffer (after_event dev (buffers c)
              (EvRayGen (r_entry x) p w h (mem_of (buffers c)))) b =
            get_buffer (buffers c) b).
  { intros b Hb. unfold after_event. apply commit_untouched.
    cbn [event_writes raygen_handles]. eapply late_not_in; eauto. }
  repeat split; auto; try (rewrite Hun by assumption; apply I2; assumption).
  destruct I3 as (l & El & Fl). exists (l ++ [EvRayGen (r_entry x) p w h (mem_of (buffers c))]).
  split; [rewrite El, app_assoc; reflexivity|].
  apply Forall_app. split; [exact Fl|]. constructor; [|constructor].
  split; [reflexivity|]. split.
  { intros b Hb. cbn [event_writes raygen_handles]. eapply late_not_in; eauto. }
  intros b i Hb. cbn [event_pre]. unfold mem_of.
  destruct (I2 b Hb) as (E & _ & _). rewrite E. reflexivity.
Qed.

Lemma late_set_iTime n v d :
  late n (frameBuffer d) -> late n (frameBuffer (set_iTime v d)).
Proof. auto. Qed.
Lemma late_set_iFrame n v d :
  late n (frameBuffer d) -> late n (frameBuffer (set_iFrame v d)).
Proof. auto. Qed.
Lemma late_set_camera n v d :
  late n (frameBuffer d) -> late n (frameBuffer (set_camera v d)).
Proof. auto. Qed.

Ltac keeps_tac :=
  lazymatch goal with
  | |- keeps _ (gprtDeviceBufferCreate _ _ _) _ =>
      eapply keeps_weaken; [apply keeps_BufferCreate | cbv beta; auto]
  | |- keeps _ (gprtRayGenCreate _) _ =>
      eapply keeps_weaken; [apply keeps_RayGenCreate | cbv beta; auto]
  | |- keeps _ (gprtBuildShaderBindingTable _) _ =>
      eapply keeps_weaken; [apply keeps_BuildSBT | cbv beta; auto]
  | |- keeps _ (gprtRayGenLaunch2D _ _ _ _) _ =>
      eapply keeps_weaken; [apply keeps_RayGenLaunch | cbv beta; auto]
  | |- keeps _ (raygen_assign _ (set_iTime _)) _ =>
      eapply keeps_weaken;
        [apply keeps_raygen_assign; intros ?; apply late_set_iTime | cbv beta; auto]
  | |- keeps _ (raygen_assign _ (set_iFrame _)) _ =>
      eapply keeps_weaken;
        [apply keeps_raygen_assign; intros ?; apply late_set_iFrame | cbv beta; auto]
  | |- keeps _ (raygen_assign _ (set_camera _)) _ =>
      eapply keeps_weaken;
        [apply keeps_raygen_assign; intros ?; apply late_set_camera | cbv beta; auto]
  | |- keeps _ (ret _) _ => apply keeps_ret; cbv beta; auto
  | |- keeps _ (bind _ _) _ =>
      eapply keeps_bind with (V := fun _ => True);
        [keeps_tac | cbv beta; intros ? ?; keeps_tac]
  | |- keeps _ _ _ =>
      eapply keeps_weaken; [apply keeps_quiet; quiet_tac | cbv beta; auto]
  end.

Lemma keeps_render_loop bs6 l6 con6 dev rayGen fb inputs :
  forall inp firstFrame pos lookFrom iFrame,
    keeps (Inv bs6 l6 con6)
      (render_loop dev rayGen rayGen fb inputs inp firstFrame pos lookFrom iFrame)
      (fun _ => True).
Proof.
  induction inputs as [|inp' inputs IH]; intros inp firstFrame pos lookFrom iFrame;
    cbn [render_loop].
  - eapply keeps_bind with (V := fun _ => True).
    + destruct (left_pressed inp || firstFrame).
      * match goal with
        | |- context [orbit ?a ?b ?c ?d] => destruct (orbit a b c d) as [lf cam]
        end.
        keeps_tac.
      * keeps_tac.
    + intros [ff lf] _. 
      do 5 (eapply keeps_bind with (V := fun _ => True); [keeps_tac | intros ? _]).
      destruct (should_close inp); keeps_tac.
  - eapply keeps_bind with (V := fun _ => True).
    + destruct (left_pressed inp || firstFrame).
      * match goal with
        | |- context [orbit ?a ?b ?c ?d] => destruct (orbit a b c d) as [lf cam]
        end.
        keeps_tac.
      * keeps_tac.
    + intros [ff lf] _.
      do 5 (eapply keeps_bind with (V := fun _ => True); [keeps_tac | intros ? _]).
      destruct (should_close inp); [keeps_tac | apply IH].
Qed.

Lemma keeps_render bs6 l6 con6 dev inp inputs :
  keeps (Inv bs6 l6 con6) (main_render dev inp inputs) (fun _ => True).
Proof.
  unfold main_render.
  eapply keeps_bind with (V := fun _ => True); [keeps_tac | intros rayGen _].
  eapply keeps_bind; [apply keeps_BufferCreate | cbv beta; intros fb Hfb].
  eapply keeps_bind with (V := late (length bs6)).
  { apply keeps_ret. exact Hfb. }
  intros h Hh.
  eapply keeps_bind with (V := fun _ => True).
  { apply keeps_raygen_assign. intros d _. exact Hh. }
  intros _ _.
  do 2 (eapply keeps_bind with (V := fun _ => True); [keeps_tac | intros ? _]).
  eapply keeps_bind with (V := fun _ => True);
    [apply keeps_render_loop | intros ? _].
  keeps_tac.
Qed.

Lemma length_constructed dev vs ts : length (constructed_buffers dev vs ts) = 7%nat.
Proof.
  unfold constructed_buffers. cbn [replay construction snd].
  rewrite !length_after_event. reflexivity.
Qed.

Lemma main_run dev av0 vs ts inp inputs :
  Inv (constructed_buffers dev vs ts) (construction_events dev vs ts)
    (greeting av0) (final_context dev av0 vs ts inp inputs).
Proof.
  unfold final_context, run, main, empty_context.
  lazymatch goal with
  | |- context [@bind ?A ?B ?m ?f ?c] =>
      let r := op_eval (m c) in
      lazymatch r with
      | (?c', Some ?a) =>
          rewrite (@bind_some A B m f c c' a (eq_refl : m c = r)); cbv beta zeta
      end
  end.
  erewrite bind_some by apply main_build_run.
  cbv beta iota zeta.
  match goal with
  | |- Inv ?bs ?l ?con (fst (?m ?c)) =>
      assert (K : keeps (Inv bs l con) m (fun _ => True))
  end.
  { eapply keeps_bind with (V := fun _ => True).
    - apply keeps_quiet, quiet_readback.
    - intros _ _. eapply keeps_bind with (V := fun _ => True).
      + apply keeps_render.
      + intros fb _. apply keeps_quiet, quiet_cleanup. }
  apply K.
  unfold Inv. cbn [buffers submitted raygens sbt_raygen console].
  repeat split; auto.
  - exists []. reflexivity.
  - exists []. rewrite app_nil_r. split; [reflexivity | constructor].
  - intros r [].
  - intros p [].
Qed.

(** *** The read-back loop, exactly *)

Lemma run_load ptr i bs cs rs sc sr sub con :
  valid_access (get_buffer bs ptr) i = true ->
  load ptr i (mk_context bs cs rs sc sr sub con) =
  (mk_context bs cs rs sc sr sub con, Some (buf_data (get_buffer bs ptr) i)).
Proof.
  intros H. unfold load, bind, get, guard. cbn [buffers]. rewrite H. reflexivity.
Qed.

Lemma run_Map b bs cs rs sc sr sub con :
  buf_live (get_buffer bs b) = true ->
  gprtBufferMap b (mk_context bs cs rs sc sr sub con) =
  (mk_context (update_buffer bs b (fun x =>
     mk_Buffer (buf_type x) (buf_count x) (buf_data x) true (buf_live x)))
     cs rs sc sr sub con, Some tt).
Proof.
  intros H. unfold gprtBufferMap, bind, get, guard. cbn [buffers]. rewrite H.
  reflexivity.
Qed.

Lemma run_Unmap b bs cs rs sc sr sub con :
  buf_mapped (get_buffer bs b) = true ->
  gprtBufferUnmap b (mk_context bs cs rs sc sr sub con) =
  (mk_context (update_buffer bs b (fun x =>
     mk_Buffer (buf_type x) (buf_count x) (buf_data x) false (buf_live x)))
     cs rs sc sr sub con, Some tt).
Proof.
  intros H. unfold gprtBufferUnmap, bind, get, guard. cbn [buffers]. rewrite H.
  reflexivity.
Qed.

Lemma get_update_same bs b f :
  (b < length bs)%nat -> get_buffer (update_buffer bs b f) b = f (get_buffer bs b).
Proof.
  unfold get_buffer. revert b. induction bs as [|x bs IH]; intros [|b] H;
    cbn [update_buffer nth length] in *; try lia; auto.
  apply IH. lia.
Qed.

Lemma get_update_other bs b b' f :
  b <> b' -> get_buffer (update_buffer bs b f) b' = get_buffer bs b'.
Proof.
  unfold get_buffer. revert b b'. induction bs as [|x bs IH]; intros [|b] [|b'] H;
    cbn [update_buffer nth]; auto; try congruence.
Qed.

Lemma u32_index i : 0 <= i < 2 ^ 31 ->
  u32_add (u32_mul i 2) 0 = 2 * i /\ u32_add (u32_mul i 2) 1 = 2 * i + 1 /\
  (i + 1 < 2 ^ 32 -> u32_add i 1 = i + 1).
Proof.
  intros H. unfold u32_add, u32_mul.
  assert (E : wrap32 (i * 2) = 2 * i) by (rewrite wrap32_small; lia).
  rewrite E. repeat split; intros; rewrite wrap32_small; lia.
Qed.

Lemma readback_loop bs cs rs sc sr sub n k :
  forall i con,
    0 <= i -> i + Z.of_nat k <= n -> n < 2 ^ 31 ->
    (forall j, 0 <= j < n -> valid_access (get_buffer bs 5) j = true) ->
    (forall j, 0 <= j < 2 * n -> valid_access (get_buffer bs 6) j = true) ->
    for_upto k i (fun i =>
        node <- load 5 i ;;
        lo <- load 6 (u32_add (u32_mul i 2) 0) ;;
        hi <- load 6 (u32_add (u32_mul i 2) 1) ;;
        cout (OutNode node lo hi))
      (mk_context bs cs rs sc sr sub con) =
    (mk_context bs cs rs sc sr sub
       (con ++ map (fun j => node_row (mem_of bs) (i + Z.of_nat j)) (seq 0 k)),
     Some tt).
Proof.
  induction k as [|k IH]; intros i con Hi Hk Hn H5 H6.
  - cbn [for_upto seq map]. rewrite app_nil_r. reflexivity.
  - cbn [for_upto].
    destruct (u32_index i) as (E0 & E1 & E2); [lia|].
    rewrite E0, E1, E2 by lia.
    erewrite bind_some.
    2:{ erewrite bind_some by (apply run_load, H5; lia).
        erewrite bind_some by (apply run_load, H6; lia).
        erewrite bind_some by (apply run_load, H6; lia).
        reflexivity. }
    cbv beta iota delta [with_console console buffers computes raygens
                           sbt_compute sbt_raygen submitted].
    rewrite IH by (auto; lia).
    f_equal. f_equal. rewrite <- app_assoc. f_equal.
    cbn [seq map app]. rewrite Z.add_0_r. f_equal.
    rewrite <- seq_shift, map_map. apply map_ext. intros j.
    f_equal. lia.
Qed.

Lemma commit_live ws m' bs b :
  buf_live (get_buffer (commit ws m' bs) b) = buf_live (get_buffer bs b).
Proof.
  unfold commit. rewrite get_commit_from.
  destruct ((b <? length bs)%nat && in_handles (0 + b) ws); reflexivity.
Qed.

Lemma commit_mapped ws m' bs b :
  buf_mapped (get_buffer (commit ws m' bs) b) = buf_mapped (get_buffer bs b).
Proof.
  unfold commit. rewrite get_commit_from.
  destruct ((b <? length bs)%nat && in_handles (0 + b) ws); reflexivity.
Qed.

Lemma replay_meta dev ks :
  forall bs b,
    let x := get_buffer (snd (replay dev bs ks)) b in
    let y := get_buffer bs b in
    buf_count x = buf_count y /\ buf_type x = buf_type y /\
    buf_live x = buf_live y /\ buf_mapped x = buf_mapped y.
Proof.
  induction ks as [|k ks IH]; intros bs b; cbn [replay snd].
  - auto.
  - cbv zeta. destruct (IH (after_event dev bs (k (mem_of bs))) b) as (A & B & C & D).
    cbv zeta in A, B, C, D. rewrite A, B, C, D. unfold after_event.
    rewrite commit_count, commit_type, commit_live, commit_mapped. auto.
Qed.

Lemma constructed_meta dev vs ts b :
  let x := get_buffer (constructed_buffers dev vs ts) b in
  let y := get_buffer (seeded_buffers dev vs ts) b in
  buf_count x = buf_count y /\ buf_type x = buf_type y /\
  buf_live x = buf_live y /\ buf_mapped x = buf_mapped y.
Proof. apply replay_meta. Qed.

Lemma params_in_range ts :
  let P := Z.of_nat (length ts) in
  1 <= P <= 2 ^ 31 ->
  lbvh_params ts =
  mk_LBVHData P (P - 1) (2 * P - 1) 2%nat 1%nat 4%nat 5%nat 6%nat 7%nat.
Proof.
  intros P HP. unfold lbvh_params. fold P.
  assert (E : wrap32 P = P) by (apply wrap32_small; lia).
  rewrite E. unfold u32_sub, u32_mul.
  assert (E2 : wrap32 (2 * P) mod 2 ^ 32 = (2 * P) mod 2 ^ 32).
  { unfold wrap32. apply Z.mod_mod. lia. }
  f_equal.
  - apply wrap32_small. lia.
  - unfold wrap32. rewrite Zminus_mod_idemp_l. apply Z.mod_small. lia.
Qed.

Lemma box_count_in_range P :
  1 <= P <= 2 ^ 30 -> u32_mul 2 (2 * P - 1) = 2 * (2 * P - 1).
Proof. intros H. unfold u32_mul. apply wrap32_small. lia. Qed.

Lemma readback_exact bs6 p n cs rs sc sr sub con :
  numNodes p = n -> 0 <= n < 2 ^ 31 ->
  (5 < length bs6)%nat -> (6 < length bs6)%nat ->
  buf_live (get_buffer bs6 5) = true -> buf_live (get_buffer bs6 6) = true ->
  buf_count (get_buffer bs6 5) = n -> buf_count (get_buffer bs6 6) = 2 * n ->
  exists bs',
    main_readback p 5 6 (mk_context bs6 cs rs sc sr sub con) =
    (mk_context bs' cs rs sc sr sub
       (con ++ map (fun j => node_row (mem_of bs6) (Z.of_nat j))
                 (seq 0 (Z.to_nat n))),
     Some tt).
Proof.
  intros Hn Hr Hl5 Hl6 L5 L6 C5 C6.
  set (fm := fun x => mk_Buffer (buf_type x) (buf_count x) (buf_data x) true
                        (buf_live x)).
  set (bs7 := update_buffer bs6 5 fm).
  set (bs8 := update_buffer bs7 6 fm).
  assert (G5 : get_buffer bs8 5 = fm (get_buffer bs6 5)).
  { unfold bs8. rewrite get_update_other by lia. unfold bs7.
    apply get_update_same. lia. }
  assert (G6 : get_buffer bs8 6 = fm (get_buffer bs6 6)).
  { unfold bs8. rewrite get_update_same
      by (unfold bs7; rewrite length_update_buffer; lia).
    unfold bs7. rewrite get_update_other by lia. reflexivity. }
  unfold main_readback. rewrite Hn.
  erewrite bind_some by (apply run_Map; exact L5). fold fm. fold bs7.
  erewrite bind_some.
  2:{ apply run_Map. unfold bs7. rewrite get_update_other by lia. exact L6. }
  fold fm. fold bs8. clearbody bs8. clear bs7.
  erewrite bind_some by reflexivity.
  erewrite bind_some by reflexivity.
  erewrite bind_some.
  2:{ apply (readback_loop bs8 cs rs sc sr sub n); try lia.
      - intros j Hj. rewrite G5. unfold fm, valid_access.
        cbn [buf_live buf_mapped buf_count]. rewrite L5, C5.
        destruct (Z.leb_spec 0 j), (Z.ltb_spec j n); (reflexivity || lia).
      - intros j Hj. rewrite G6. unfold fm, valid_access.
        cbn [buf_live buf_mapped buf_count]. rewrite L6, C6.
        destruct (Z.leb_spec 0 j), (Z.ltb_spec j (2 * n));
          (reflexivity || lia). }
  erewrite bind_some.
  2:{ apply run_Unmap. rewrite G5. reflexivity. }
  rewrite (map_ext _ (fun j => node_row (mem_of bs6) (Z.of_nat j))).
  2:{ intros j. unfold node_row, mem_of. rewrite G5, G6. reflexivity. }
  eexists. rewrite run_Unmap.
  2:{ rewrite get_update_other by lia. rewrite G6. reflexivity. }
  reflexivity.
Qed.

Lemma readback_run dev vs ts cs rs sc sr sub con :
  let P := Z.of_nat (length ts) in
  let bs6 := constructed_buffers dev vs ts in
  1 <= P <= 2 ^ 30 ->
  exists bs',
    main_readback (lbvh_params ts) 5 6 (mk_context bs6 cs rs sc sr sub con) =
    (mk_context bs' cs rs sc sr sub
       (con ++ map (fun j => node_row (mem_of bs6) (Z.of_nat j))
                 (seq 0 (Z.to_nat (2 * P - 1)))),
     Some tt).
Proof.
  intros P bs6 HP.
  assert (Hp := params_in_range ts). cbv zeta in Hp. fold P in Hp.
  destruct (constructed_meta dev vs ts 5) as (C5 & _ & L5 & _).
  destruct (constructed_meta dev vs ts 6) as (C6 & _ & L6 & _).
  assert (Hlen : length bs6 = 7%nat) by apply length_constructed.
  subst bs6. apply readback_exact.
  - rewrite Hp by lia. reflexivity.
  - lia.
  - lia.
  - lia.
  - exact L5.
  - exact L6.
  - rewrite C5. cbn [seeded_buffers get_buffer nth buf_count].
    rewrite Hp by lia. reflexivity.
  - rewrite C6. cbn [seeded_buffers get_buffer nth buf_count].
    rewrite Hp by lia. cbn [numNodes]. apply box_count_in_range. lia.
Qed.

(** *** The submissions of a run *)

Lemma construction_flags dev vs ts :
  Forall (fun e => is_construction e = true) (construction_events dev vs ts).
Proof.
  unfold construction_events. cbn [replay construction fst].
  repeat constructor.
Qed.

Lemma filter_later bs6 l :
  Forall (later_event bs6) l -> filter is_construction l = [].
Proof.
  induction 1 as [|e l [He _] _ IH]; cbn [filter]; [reflexivity|].
  rewrite He. exact IH.
Qed.

Lemma filter_all {A} (f : A -> bool) l :
  Forall (fun x => f x = true) l -> filter f l = l.
Proof.
  induction 1 as [|x l Hx _ IH]; cbn [filter]; [reflexivity|].
  rewrite Hx, IH. reflexivity.
Qed.

Lemma trace_split dev av0 vs ts inp inputs :
  exists l,
    trace dev av0 vs ts inp inputs = construction_events dev vs ts ++ l /\
    Forall (later_event (constructed_buffers dev vs ts)) l.
Proof.
  destruct (main_run dev av0 vs ts inp inputs) as (_ & _ & _ & H & _).
  exact H.
Qed.

Lemma trace_construction dev av0 vs ts inp inputs :
  filter is_construction (trace dev av0 vs ts inp inputs) =
  construction_events dev vs ts.
Proof.
  destruct (trace_split dev av0 vs ts inp inputs) as (l & -> & Hl).
  rewrite filter_app, (filter_later _ _ Hl), app_nil_r.
  apply filter_all, construction_flags.
Qed.

Lemma length_construction dev vs ts :
  length (construction_events dev vs ts) = 6%nat.
Proof. reflexivity. Qed.

Lemma trace_firstn dev av0 vs ts inp inputs :
  firstn 6 (trace dev av0 vs ts inp inputs) = construction_events dev vs ts.
Proof.
  destruct (trace_split dev av0 vs ts inp inputs) as (l & -> & Hl).
  rewrite <- (length_construction dev vs ts) at 1.
  rewrite firstn_app, firstn_all, Nat.sub_diag. cbn [firstn].
  apply app_nil_r.
Qed.

Lemma trace_nth_construction dev av0 vs ts inp inputs n :
  (n < 6)%nat ->
  nth_error (trace dev av0 vs ts inp inputs) n =
  nth_error (construction_events dev vs ts) n.
Proof.
  intros Hn. destruct (trace_split dev av0 vs ts inp inputs) as (l & -> & Hl).
  apply nth_error_app1. rewrite length_construction. exact Hn.
Qed.

Lemma trace_nth_later dev av0 vs ts inp inputs n e :
  (6 <= n)%nat -> nth_error (trace dev av0 vs ts inp inputs) n = Some e ->
  later_event (constructed_buffers dev vs ts) e.
Proof.
  intros Hn He. destruct (trace_split dev av0 vs ts inp inputs) as (l & E & Hl).
  rewrite E, nth_error_app2 in He by (rewrite length_construction; exact Hn).
  rewrite Forall_forall in Hl. apply Hl. eapply nth_error_In. exact He.
Qed.

Lemma first_submission dev vs ts :
  nth_error (construction_events dev vs ts) 0 =
  Some (EvCompute "ComputeTriangleBounds" (lbvh_params ts)
          (numPrims (lbvh_params ts)) (mem_of (seeded_buffers dev vs ts))).
Proof. reflexivity. Qed.

Lemma final_meta dev av0 vs ts inp inputs b :
  (b < 7)%nat ->
  let x := get_buffer (buffers (final_context dev av0 vs ts inp inputs)) b in
  let y := get_buffer (seeded_buffers dev vs ts) b in
  buf_count x = buf_count y /\ buf_type x = buf_type y.
Proof.
  intros Hb. destruct (main_run dev av0 vs ts inp inputs) as (_ & _ & H & _).
  rewrite length_constructed in H. destruct (H b Hb) as (_ & Hc & Ht).
  destruct (constructed_meta dev vs ts b) as (Hc' & Ht' & _).
  cbv zeta in *. split; congruence.
Qed.

Lemma final_data dev av0 vs ts inp inputs b i :
  (b < 7)%nat ->
  mem_of (buffers (final_context dev av0 vs ts inp inputs)) b i =
  mem_of (constructed_buffers dev vs ts) b i.
Proof.
  intros Hb. destruct (main_run dev av0 vs ts inp inputs) as (_ & _ & H & _).
  rewrite length_constructed in H. destruct (H b Hb) as (Hd & _).
  unfold mem_of. rewrite Hd. reflexivity.
Qed.

(** Replayed submissions form a chain: each starts from what its
    predecessor left. *)
Lemma mem_after_counts dev count count' e b i :
  count b = count' b -> mem_after dev count e b i = mem_after dev count' e b i.
Proof. intros H. unfold mem_after. rewrite H. reflexivity. Qed.

Lemma replay_chain dev ks :
  (forall k m, In k ks -> event_pre (k m) = m) ->
  forall bs n e e',
    nth_error (fst (replay dev bs ks)) n = Some e ->
    nth_error (fst (replay dev bs ks)) (S n) = Some e' ->
    forall b i, (b < length bs)%nat ->
      event_pre e' b i = mem_after dev (count_of bs) e b i.
Proof.
  induction ks as [|k ks IH]; intros Hpre bs n e e' He He' b i Hb.
  - destruct n; discriminate.
  - cbn [replay fst] in He, He'. cbv zeta in He, He'. cbn [nth_error] in He'.
    destruct n as [|n].
    + cbn [nth_error] in He. injection He as <-.
      destruct ks as [|k' ks]; [discriminate|].
      cbn [replay fst] in He'. cbv zeta in He'. cbn [nth_error] in He'.
      injection He' as <-.
      rewrite (Hpre k' _ (or_intror (or_introl eq_refl))).
      apply mem_after_event; [apply Hpre; left; reflexivity | exact Hb].
    + cbn [nth_error] in He.
      rewrite (IH (fun k0 m H => Hpre k0 m (or_intror H)) _ _ _ _ He He' b i)
        by (rewrite length_after_event; exact Hb).
      apply mem_after_counts. unfold count_of, after_event. apply commit_count.
Qed.

Lemma construction_pre p k m : In k (construction p) -> event_pre (k m) = m.
Proof.
  unfold construction. cbn [In].
  intros [<-|[<-|[<-|[<-|[<-|[<-|[]]]]]]]; reflexivity.
Qed.

Lemma construction_chain dev vs ts n e e' b i :
  nth_error (construction_events dev vs ts) n = Some e ->
  nth_error (construction_events dev vs ts) (S n) = Some e' ->
  (b < 7)%nat ->
  event_pre e' b i = mem_after dev (count_of (seeded_buffers dev vs ts)) e b i.
Proof.
  intros He He' Hb. unfold construction_events in He, He'.
  eapply replay_chain; eauto using construction_pre.
Qed.

(** ** The claims about the host program *)

Lemma lit_1e20f_nearest :
  bounded f32_prec f32_emax 11368684 43 = true /\
  Z.abs (11368684 * 2 ^ 43 - 10 ^ 20) * 2 <= 2 ^ 43.
Proof. split; [reflexivity | vm_compute; discriminate]. Qed.

(** C1 (as stated): the elements the first launch finds in the box
    buffer are not the infinities. *)
Lemma C1_seed_is_infinite_counterexample :
  ~ (forall e,
       nth_error (trace example_device "s12" example_vertices one_triangle
                    example_input []) 0 = Some e ->
       event_pre e 6%nat 0 =
         Efloat3 (Some f32_pos_inf) (Some f32_pos_inf) (Some f32_pos_inf) /\
       event_pre e 6%nat 1 =
         Efloat3 (Some f32_neg_inf) (Some f32_neg_inf) (Some f32_neg_inf)).
Proof.
  intros H.
  destruct (H _ (eq_trans (trace_nth_construction _ _ _ _ _ _ 0 ltac:(lia))
                   (first_submission _ _ _))) as [H0 _].
  discriminate H0.
Qed.

(** C1 (amended): for every mesh and every device, the first submission
    of the run is the bounds program, and the memory it starts from
    holds (1e20, 1e20, 1e20) in element 0 and (-1e20, -1e20, -1e20) in
    element 1 of the box buffer; both are finite binary32 values. *)
Theorem C1_root_box_seeded_before_first_launch dev av0 vs ts inp inputs :
  exists e,
    nth_error (trace dev av0 vs ts inp inputs) 0 = Some e /\
    stage_name e = "ComputeTriangleBounds" /\
    event_pre e 6%nat 0 = seed_lo /\
    event_pre e 6%nat 1 = seed_hi /\
    f32_is_finite lit_1e20f = true /\
    f32_is_finite (f32_neg lit_1e20f) = true /\
    lit_1e20f <> f32_pos_inf /\ f32_neg lit_1e20f <> f32_neg_inf.
Proof.
  eexists. split.
  - rewrite trace_nth_construction by lia. apply first_submission.
  - repeat split; try reflexivity; discriminate.
Qed.

(** C10: the record handed to every program names six buffers and no
    more; when the first program is launched, and nothing was submitted
    before it, the only elements of the output buffers that hold a
    value are elements 0 and 1 of the box buffer, the lower and the
    upper seed, stored there by the host through the mapped buffer. *)
Theorem C10_accumulator_is_box_slot_zero dev av0 vs ts inp inputs :
  exists e p,
    nth_error (trace dev av0 vs ts inp inputs) 0 = Some e /\
    event_params e = Some p /\
    lbvh_handles p = [2; 1; 4; 5; 6; 7]%nat /\
    aabbs p = 7%nat /\
    buf_type (get_buffer (buffers (final_context dev av0 vs ts inp inputs)) 6)
      = Tfloat3 /\
    2 <= buf_count (get_buffer (buffers (final_context dev av0 vs ts inp inputs)) 6) /\
    event_pre e 6%nat 0 = seed_lo /\
    event_pre e 6%nat 1 = seed_hi /\
    (forall i, i <> 0 -> i <> 1 -> event_pre e 6%nat i = uninit Tfloat3) /\
    (forall i, event_pre e 5%nat i = uninit Tint4) /\
    (forall i, event_pre e 4%nat i = uninit Tuint32) /\
    (forall i, event_pre e 3%nat i = uninit Tuint32) /\
    (forall i, event_pre e 2%nat i = uninit Tuint8).
Proof.
  do 2 eexists. split; [|split].
  - rewrite trace_nth_construction by lia. apply first_submission.
  - reflexivity.
  - destruct (final_meta dev av0 vs ts inp inputs 6 ltac:(lia)) as [Hc Ht].
    cbv zeta in Hc, Ht. rewrite Hc, Ht.
    cbn [seeded_buffers get_buffer nth buf_count buf_type].
    repeat split; try reflexivity.
    + apply aabbs_count_ge_2.
    + intros i H0 H1. apply seeded_other; assumption.
Qed.

(** C3: in every run the submissions that build the tree are the first
    six, in the order bounds, codes, sort, nodes, split, hierarchy;
    each of them starts from the memory its predecessor left, all of
    the predecessor's writes included. *)
Theorem C3_stages_in_order dev av0 vs ts inp inputs :
  map stage_name (filter is_construction (trace dev av0 vs ts inp inputs)) =
    ["ComputeTriangleBounds"; "ComputeTriangleMortonCodes";
     "gprtBufferSortPayload"; "MakeNodes"; "SplitNodes";
     "BuildTriangleHierarchy"] /\
  firstn 6 (trace dev av0 vs ts inp inputs) =
    filter is_construction (trace dev av0 vs ts inp inputs) /\
  forall n e e',
    nth_error (trace dev av0 vs ts inp inputs) n = Some e ->
    nth_error (trace dev av0 vs ts inp inputs) (S n) = Some e' ->
    is_construction e' = true ->
    forall b i, (b < 7)%nat ->
      event_pre e' b i =
      mem_after dev
        (count_of (buffers (final_context dev av0 vs ts inp inputs))) e b i.
Proof.
  rewrite trace_construction, trace_firstn. split; [reflexivity|].
  split; [reflexivity|].
  intros n e e' He He' Hc b i Hb.
  destruct (Nat.lt_ge_cases (S n) 6) as [Hn|Hn].
  - rewrite trace_nth_construction in He, He' by lia.
    rewrite (construction_chain dev vs ts n e e' b i He He' Hb).
    apply mem_after_counts. unfold count_of.
    destruct (final_meta dev av0 vs ts inp inputs b Hb) as [Hcnt _].
    symmetry. exact Hcnt.
  - destruct (trace_nth_later dev av0 vs ts inp inputs (S n) e' Hn He') as [Hf _].
    congruence.
Qed.

Lemma construction_params dev vs ts :
  map event_params (construction_events dev vs ts) =
  [Some (lbvh_params ts); Some (lbvh_params ts); None; Some (lbvh_params ts);
   Some (lbvh_params ts); Some (lbvh_params ts)].
Proof. reflexivity. Qed.

Lemma construction_threads dev vs ts :
  map threads (construction_events dev vs ts) =
  [Some (numPrims (lbvh_params ts)); Some (numPrims (lbvh_params ts)); None;
   Some (numNodes (lbvh_params ts)); Some (numInner (lbvh_params ts));
   Some (numPrims (lbvh_params ts))].
Proof. reflexivity. Qed.

Lemma length_huge_mesh n : 0 <= n -> Z.of_nat (length (huge_mesh n)) = n.
Proof. intros H. unfold huge_mesh. rewrite repeat_length. apply Z2Nat.id, H. Qed.

Lemma first_params dev av0 vs ts inp inputs :
  exists e,
    In e (trace dev av0 vs ts inp inputs) /\
    event_params e = Some (lbvh_params ts).
Proof.
  eexists. split.
  - apply (nth_error_In _ 0). rewrite trace_nth_construction by lia.
    apply first_submission.
  - reflexivity.
Qed.

Lemma node_count dev av0 vs ts inp inputs :
  buf_count (get_buffer (buffers (final_context dev av0 vs ts inp inputs)) 5) =
  numNodes (lbvh_params ts).
Proof.
  destruct (final_meta dev av0 vs ts inp inputs 5 ltac:(lia)) as [Hc _].
  exact Hc.
Qed.

Lemma box_count dev av0 vs ts inp inputs :
  buf_count (get_buffer (buffers (final_context dev av0 vs ts inp inputs)) 6) =
  u32_mul 2 (numNodes (lbvh_params ts)).
Proof.
  destruct (final_meta dev av0 vs ts inp inputs 6 ltac:(lia)) as [Hc _].
  exact Hc.
Qed.

Lemma params_huge n :
  0 <= n ->
  lbvh_params (huge_mesh n) =
  mk_LBVHData (wrap32 n) (u32_sub (wrap32 n) 1)
    (u32_sub (u32_mul 2 (wrap32 n)) 1) 2%nat 1%nat 4%nat 5%nat 6%nat 7%nat.
Proof. intros H. unfold lbvh_params. rewrite length_huge_mesh by exact H. reflexivity. Qed.

(** C2 (as stated): with no triangle the inner count is 4294967295, not
    minus one; with 2147483649 triangles the node count and the size of
    the node buffer are 1, not 4294967297. *)
Lemma C2_counts_for_every_P_counterexample :
  ~ (forall e p,
       In e (trace example_device "s12" example_vertices [] example_input []) ->
       event_params e = Some p ->
       numInner p = 0 - 1 /\ numNodes p = 2 * 0 - 1) /\
  ~ (let P := 2147483649 in
     (forall e p,
        In e (trace example_device "s12" example_vertices (huge_mesh P)
                example_input []) ->
        event_params e = Some p ->
        numInner p = P - 1 /\ numNodes p = 2 * P - 1) /\
     buf_count (get_buffer (buffers (final_context example_device "s12"
        example_vertices (huge_mesh P) example_input [])) 5) = 2 * P - 1).
Proof.
  split.
  - intros H.
    destruct (first_params example_device "s12" example_vertices []
                example_input []) as (e & He & Hp).
    destruct (H e _ He Hp) as [H1 _]. vm_compute in H1. discriminate H1.
  - cbv zeta. intros [_ H]. rewrite node_count in H.
    rewrite (params_huge 2147483649) in H by lia.
    vm_compute in H. discriminate H.
Qed.

(** C2 (amended): for a mesh of P triangles with 1 <= P <= 2^31, every
    program of the construction is launched on the same record, whose
    counts are P, P - 1 and 2P - 1, and the node buffer, the one the
    record names as [nodes], has 2P - 1 elements. *)
Theorem C2_build_parameters dev av0 vs ts inp inputs :
  let P := Z.of_nat (length ts) in
  let p := mk_LBVHData P (P - 1) (2 * P - 1) 2%nat 1%nat 4%nat 5%nat 6%nat 7%nat in
  1 <= P <= 2 ^ 31 ->
  map event_params (filter is_construction (trace dev av0 vs ts inp inputs)) =
    [Some p; Some p; None; Some p; Some p; Some p] /\
  (forall e q, In e (trace dev av0 vs ts inp inputs) ->
     event_params e = Some q ->
     numPrims q = P /\ numInner q = P - 1 /\ numNodes q = 2 * P - 1) /\
  nodes p = 6%nat /\
  buf_type (get_buffer (buffers (final_context dev av0 vs ts inp inputs)) 5)
    = Tint4 /\
  buf_count (get_buffer (buffers (final_context dev av0 vs ts inp inputs)) 5)
    = 2 * P - 1.
Proof.
  intros P p HP.
  assert (Hp : lbvh_params ts = p) by (apply params_in_range; exact HP).
  rewrite trace_construction, construction_params, node_count, Hp.
  split; [reflexivity|]. split; [|split; [reflexivity|split; [|reflexivity]]].
  - intros e q He Hq.
    destruct (trace_split dev av0 vs ts inp inputs) as (l & E & Hl).
    rewrite E in He. apply in_app_or in He. destruct He as [He|He].
    + assert (Hin : In (event_params e)
                (map event_params (construction_events dev vs ts)))
        by (apply in_map; exact He).
      rewrite construction_params, Hp, Hq in Hin. cbn [In] in Hin.
      assert (Hq' : q = p)
        by (destruct Hin as [H0|[H0|[H0|[H0|[H0|[H0|[]]]]]]]; congruence).
      subst q. repeat split.
    + rewrite Forall_forall in Hl. destruct (Hl e He) as [Hf _].
      destruct e; (discriminate Hf || discriminate Hq).
  - destruct (final_meta dev av0 vs ts inp inputs 5 ltac:(lia)) as [_ Ht].
    exact Ht.
Qed.

Lemma C2_build_parameters_witness :
  1 <= Z.of_nat (length two_triangles) <= 2 ^ 31 /\
  buf_count (get_buffer (buffers (final_context example_device "s12"
     example_vertices two_triangles example_input [])) 5) = 3.
Proof.
  split; [cbn; lia|].
  apply (C2_build_parameters example_device "s12" example_vertices
           two_triangles example_input []).
  cbn; lia.
Defined.

(** C4 (as stated): with two triangles the node program is launched
    with three threads, not two. *)
Lemma C4_one_thread_per_primitive_counterexample :
  ~ (let P := Z.of_nat (length two_triangles) in
     map threads
       (filter is_construction
          (trace example_device "s12" example_vertices two_triangles
             example_input [])) =
     [Some P; Some P; None; Some P; Some (P - 1); Some P]).
Proof.
  cbv zeta. rewrite trace_construction, construction_threads.
  vm_compute. discriminate.
Qed.

(** C4 (amended): for a mesh of P triangles with 1 <= P <= 2^31, the
    bounds, codes and hierarchy programs are launched with P threads
    (one per primitive, and so one per leaf), the node program with
    2P - 1 (one per node), the split program with P - 1 (one per inner
    node); the sort is no launch of threads by the host. *)
Theorem C4_launch_widths dev av0 vs ts inp inputs :
  let P := Z.of_nat (length ts) in
  1 <= P <= 2 ^ 31 ->
  map (fun e => (stage_name e, threads e))
    (filter is_construction (trace dev av0 vs ts inp inputs)) =
  [("ComputeTriangleBounds", Some P); ("ComputeTriangleMortonCodes", Some P);
   ("gprtBufferSortPayload", None); ("MakeNodes", Some (2 * P - 1));
   ("SplitNodes", Some (P - 1)); ("BuildTriangleHierarchy", Some P)].
Proof.
  intros P HP. rewrite trace_construction.
  unfold construction_events. cbn [replay construction fst map stage_name threads].
  rewrite (params_in_range ts HP). reflexivity.
Qed.

Lemma C4_launch_widths_witness :
  1 <= Z.of_nat (length two_triangles) <= 2 ^ 31 /\
  map (fun e => (stage_name e, threads e))
    (filter is_construction
       (trace example_device "s12" example_vertices two_triangles
          example_input [])) =
  [("ComputeTriangleBounds", Some 2); ("ComputeTriangleMortonCodes", Some 2);
   ("gprtBufferSortPayload", None); ("MakeNodes", Some 3);
   ("SplitNodes", Some 1); ("BuildTriangleHierarchy", Some 2)].
Proof.
  split; [cbn; lia|].
  apply (C4_launch_widths example_device "s12" example_vertices two_triangles
           example_input []).
  cbn; lia.
Defined.

Lemma Inv_console bs6 l6 con con' c :
  Inv bs6 l6 con c -> (exists l, console c = con' ++ l) -> Inv bs6 l6 con' c.
Proof. unfold Inv. tauto. Qed.

Lemma keeps_tail bs6 l6 con6 dev inp inputs mesh :
  keeps (Inv bs6 l6 con6)
    (frameBuffer <- main_render dev inp inputs ;; main_cleanup mesh frameBuffer)
    (fun _ => True).
Proof.
  eapply keeps_bind with (V := fun _ => True).
  - apply keeps_render.
  - intros fb _. apply keeps_quiet, quiet_cleanup.
Qed.

Lemma main_run_rows dev av0 vs ts inp inputs :
  let P := Z.of_nat (length ts) in
  1 <= P <= 2 ^ 30 ->
  exists l,
    console (final_context dev av0 vs ts inp inputs) =
    (greeting av0 ++
     map (fun j => node_row (mem_of (constructed_buffers dev vs ts)) (Z.of_nat j))
       (seq 0 (Z.to_nat (2 * P - 1)))) ++ l.
Proof.
  intros P HP.
  unfold final_context, run, main, empty_context.
  lazymatch goal with
  | |- context [@bind ?A ?B ?m ?f ?c] =>
      let r := op_eval (m c) in
      lazymatch r with
      | (?c', Some ?a) =>
          rewrite (@bind_some A B m f c c' a (eq_refl : m c = r)); cbv beta zeta
      end
  end.
  erewrite bind_some by apply main_build_run.
  cbv beta iota zeta. cbn [map repeat].
  match goal with
  | |- context [@bind _ _ (main_readback _ _ _) _ ?c] =>
      pose proof (quiet_readback (lbvh_params ts) 5 6 c) as Hq;
      assert (HI : Inv (constructed_buffers dev vs ts)
                     (construction_events dev vs ts) (greeting av0) c)
  end.
  { unfold Inv. cbn [buffers submitted raygens sbt_raygen console].
    repeat split; auto.
    - exists []. reflexivity.
    - exists []. rewrite app_nil_r. split; [reflexivity | constructor].
    - intros r [].
    - intros p []. }
  pose proof (Inv_same_dev _ _ _ _ _ HI Hq) as HI'.
  destruct (readback_run dev vs ts
              (map (fun entry => mk_Compute entry (lbvh_params ts))
                 ["ComputeTriangleBounds"; "ComputeTriangleMortonCodes";
                  "MakeNodes"; "SplitNodes"; "BuildTriangleHierarchy"])
              [] (repeat (lbvh_params ts) 5) [] (construction_events dev vs ts)
              (greeting av0) HP) as (bs' & E).
  cbn [map repeat] in E. unfold greeting in E.
  rewrite E in HI'. cbn [fst] in HI'.
  erewrite bind_some by exact E.
  match goal with
  | |- context [console (fst (?m ?c))] =>
      destruct (keeps_tail (constructed_buffers dev vs ts)
                  (construction_events dev vs ts) (console c) dev inp inputs
                  (mk_Mesh vs ts 0 1) c) as [((l & Hl) & _) _]
  end.
  - apply Inv_console with (con := greeting av0); [exact HI'|].
    exists []. cbn [console]. symmetry. apply app_nil_r.
  - exists l. exact Hl.
Qed.

(** C8 (as stated): with 1073741825 triangles the box buffer has 2
    elements, not 4294967298; with none it has 4294967294, not -2. *)
Lemma C8_box_count_counterexample :
  ~ (let P := 1073741825 in
     buf_count (get_buffer (buffers (final_context example_device "s12"
       example_vertices (huge_mesh P) example_input [])) 6) = 2 * (2 * P - 1)) /\
  ~ (let P := 0 in
     buf_count (get_buffer (buffers (final_context example_device "s12"
       example_vertices [] example_input [])) 6) = 2 * (2 * P - 1)).
Proof.
  split; cbv zeta; intros H; rewrite box_count in H.
  - rewrite (params_huge 1073741825) in H by lia.
    vm_compute in H. discriminate H.
  - vm_compute in H. discriminate H.
Qed.

(** C8 (amended): for a mesh of P triangles with 1 <= P <= 2^30, the
    node buffer has 2P - 1 elements of four integers, the box buffer
    has 2(2P - 1) elements of three floats, and the read-back prints,
    for every node i, element i of the node buffer together with
    elements 2i and 2i + 1 of the box buffer. *)
Theorem C8_boxes_indexed_like_nodes dev av0 vs ts inp inputs :
  let P := Z.of_nat (length ts) in
  let final := final_context dev av0 vs ts inp inputs in
  1 <= P <= 2 ^ 30 ->
  buf_type (get_buffer (buffers final) 5) = Tint4 /\
  buf_count (get_buffer (buffers final) 5) = 2 * P - 1 /\
  buf_type (get_buffer (buffers final) 6) = Tfloat3 /\
  buf_count (get_buffer (buffers final) 6) = 2 * (2 * P - 1) /\
  forall i, 0 <= i < 2 * P - 1 ->
    nth_error (console final) (S (Z.to_nat i)) =
    Some (OutNode (mem_of (buffers final) 5%nat i)
            (mem_of (buffers final) 6%nat (2 * i))
            (mem_of (buffers final) 6%nat (2 * i + 1))).
Proof.
  intros P final HP.
  assert (Hp := params_in_range ts). cbv zeta in Hp. fold P in Hp.
  destruct (final_meta dev av0 vs ts inp inputs 5 ltac:(lia)) as [C5 T5].
  destruct (final_meta dev av0 vs ts inp inputs 6 ltac:(lia)) as [C6 T6].
  cbv zeta in C5, T5, C6, T6. fold final in C5, T5, C6, T6.
  cbn [seeded_buffers get_buffer nth buf_count buf_type] in C5, T5, C6, T6.
  rewrite Hp in C5, C6 by lia. cbn [numNodes] in C5, C6.
  rewrite box_count_in_range in C6 by lia.
  repeat split; try assumption.
  intros i Hi.
  destruct (main_run_rows dev av0 vs ts inp inputs HP) as (l & Hl).
  fold final in Hl. rewrite Hl.
  rewrite nth_error_app1.
  2:{ rewrite length_app, length_map, length_seq. cbn [greeting length]. lia. }
  unfold greeting. cbn [app nth_error].
  rewrite nth_error_map, nth_error_seq. unfold P in *.
  destruct (Nat.ltb_spec (Z.to_nat i)
              (Z.to_nat (2 * Z.of_nat (length ts) - 1))) as [_|Hge]; [|lia].
  cbn [option_map Nat.add]. rewrite Z2Nat.id by lia.
  unfold node_row, final. rewrite !final_data by lia. reflexivity.
Qed.

Lemma C8_boxes_indexed_like_nodes_witness :
  1 <= Z.of_nat (length two_triangles) <= 2 ^ 30 /\
  buf_count (get_buffer (buffers (final_context example_device "s12"
     example_vertices two_triangles example_input [])) 6) = 6.
Proof.
  split; [cbn; lia|].
  apply (C8_boxes_indexed_like_nodes example_device "s12" example_vertices
           two_triangles example_input []).
  cbn; lia.
Defined.

(** *** What the construction and the rest of the run leave alone *)



Lemma replay_events dev ks :
  forall bs e, In e (fst (replay dev bs ks)) -> exists k m, In k ks /\ e = k m.
Proof.
  induction ks as [|k ks IH]; intros bs e He; cbn [replay fst] in He.
  - destruct He.
  - cbv zeta in He. destruct He as [<-|He].
    + exists k, (mem_of bs). split; [left|]; reflexivity.
    + destruct (IH _ _ He) as (k' & m & Hk & E).
      exists k', m. split; [right; exact Hk | exact E].
Qed.









(** The assumption on the compute programs is needed: they are handed
    the geometry, and a device whose programs overwrite what they can
    reach leaves the second submission with a triangle buffer that no
    longer holds the mesh. *)
Lemma geometry_is_in_the_hands_of_the_programs :
  exists e,
    In e (trace clobbering_device "s12" example_vertices one_triangle
            example_input []) /\
    event_pre e 1%nat 0 <>
      upload Tuint3 (Z.of_nat (length one_triangle))
        (map of_uint3 one_triangle) 0.
Proof.
  eexists. split.
  - apply (nth_error_In _ 1). rewrite trace_nth_construction by lia.
    reflexivity.
  - vm_compute. discriminate.
Qed.

(** * The refit of the specification *)

Section Refit.

Local Open Scope nat_scope.

Variable P : nat.
Variable t : list Node.

Let N := 2 * P - 1.

Lemma opt_is_true n o : opt_is n o = true -> o = Some n.
Proof.
  destruct o as [m|]; cbn; [|discriminate].
  intros H. apply Nat.eqb_eq in H. congruence.
Qed.

Lemma well_formed_facts : well_formed P t = true -> tree_facts P t.
Proof.
  unfold well_formed. fold N. intros H.
  repeat (apply andb_prop in H; destruct H as [H ?]).
  rename H into HP, H3 into Hlen, H2 into Hleaf, H1 into Hin, H0 into Hpar.
  rewrite forallb_forall in Hin, Hpar.
  constructor.
  - apply Nat.leb_le, HP.
  - intros p Hp. specialize (Hin p). rewrite in_seq in Hin.
    assert (Hr : P <= p < P + (P - 1)) by (unfold N in Hp; lia).
    specialize (Hin Hr).
    destruct (n_left (node_at t p)) as [l|]; [|discriminate].
    destruct (n_right (node_at t p)) as [r|]; [|discriminate].
    repeat (apply andb_prop in Hin; destruct Hin as [Hin ?]).
    exists l, r. repeat split; auto using opt_is_true.
    + apply negb_true_iff, Nat.eqb_neq in Hin. exact Hin.
    + apply Nat.ltb_lt. assumption.
    + apply Nat.ltb_lt. assumption.
  - intros c p Hc Hcp. specialize (Hpar c). rewrite in_seq in Hpar.
    specialize (Hpar ltac:(lia)). rewrite Hcp in Hpar.
    apply andb_prop in Hpar. destruct Hpar as [Hpar _].
    repeat (apply andb_prop in Hpar; destruct Hpar as [Hpar ?]).
    apply Nat.leb_le in Hpar. apply Nat.ltb_lt in H0.
    split; [lia|]. apply orb_prop in H.
    destruct H as [H|H]; apply opt_is_true in H; auto.
  - intros c Hc. specialize (Hpar c). rewrite in_seq in Hpar.
    specialize (Hpar ltac:(lia)).
    apply andb_prop in Hpar. destruct Hpar as [_ Hpar].
    destruct (steps_to_root t N c) as [d|] eqn:E; [|discriminate].
    exists d. exact E.
Qed.

Hypothesis TF : tree_facts P t.

Lemma steps_mono fuel : forall c d,
  steps_to_root t fuel c = Some d -> steps_to_root t (S fuel) c = Some d.
Proof.
  induction fuel as [|fuel IH]; intros c d H.
  - cbn in *. destruct (n_parent (node_at t c)); [discriminate | exact H].
  - cbn [steps_to_root] in *.
    destruct (n_parent (node_at t c)) as [p|]; [|exact H].
    destruct (steps_to_root t fuel p) as [d'|] eqn:E; [|discriminate].
    rewrite (IH p d' E). exact H.
Qed.

Lemma steps_bound fuel : forall c d,
  steps_to_root t fuel c = Some d -> d <= fuel.
Proof.
  induction fuel as [|fuel IH]; intros c d H; cbn [steps_to_root] in H;
    destruct (n_parent (node_at t c)) as [p|]; try discriminate;
    try (injection H as <-; lia).
  destruct (steps_to_root t fuel p) as [d'|] eqn:E; [|discriminate].
  injection H as <-. specialize (IH p d' E). lia.
Qed.

Lemma depth_of_child c p :
  c < N -> n_parent (node_at t c) = Some p ->
  exists d, steps_to_root t N p = Some d /\ steps_to_root t N c = Some (S d).
Proof.
  intros Hc Hp. destruct (tf_reach _ _ TF c Hc) as [dc Hdc]. fold N in Hdc.
  destruct N as [|N'] eqn:EN; [lia|].
  cbn [steps_to_root] in Hdc. rewrite Hp in Hdc.
  destruct (steps_to_root t N' p) as [d|] eqn:E; [|discriminate].
  injection Hdc as <-. exists d. split.
  - apply steps_mono, E.
  - cbn [steps_to_root]. rewrite Hp, E. reflexivity.
Qed.

Lemma depth_of_root c :
  n_parent (node_at t c) = None -> steps_to_root t N c = Some 0.
Proof. intros H. destruct N; cbn [steps_to_root]; rewrite H; reflexivity. Qed.

Lemma not_own_child p c :
  c < N -> n_parent (node_at t c) = Some p -> c <> p.
Proof.
  intros Hc Hp ->. destruct (depth_of_child p p Hc Hp) as (d & H1 & H2).
  rewrite H1 in H2. injection H2. lia.
Qed.


(** *** The invariant of the protocol *)

Lemma upd_same {A} (f : nat -> A) i a : upd f i a i = a.
Proof. unfold upd. rewrite Nat.eqb_refl. reflexivity. Qed.

Lemma upd_other {A} (f : nat -> A) i j a : j <> i -> upd f i a j = f j.
Proof. intros H. unfold upd. apply Nat.eqb_neq in H. rewrite H. reflexivity. Qed.

Lemma init_pc leaf_box th :
  pcs (refit_init P leaf_box) th = if Nat.ltb th P then Arrive th else Done.
Proof. reflexivity. Qed.

Lemma init_arrive leaf_box th c :
  pcs (refit_init P leaf_box) th = Arrive c -> c = th /\ th < P.
Proof.
  rewrite init_pc. destruct (Nat.ltb_spec th P); [|discriminate].
  intros [= <-]. auto.
Qed.

Lemma init_unite leaf_box th p :
  pcs (refit_init P leaf_box) th <> Unite p.
Proof. rewrite init_pc. destruct (Nat.ltb th P); discriminate. Qed.

Lemma inv_init leaf_box : refit_inv P t (refit_init P leaf_box).
Proof.
  pose proof (tf_P _ _ TF) as HP.
  constructor.
  - intros th c H. apply init_arrive in H. destruct H as [-> Hth].
    split; [lia|]. unfold finalized. apply Nat.ltb_lt in Hth. rewrite Hth.
    reflexivity.
  - intros th p H. exfalso. exact (init_unite _ _ _ H).
  - intros th th' c H H'. apply init_arrive in H, H'.
    destruct H as [-> _], H' as [-> _]. reflexivity.
  - intros th th' p H. exfalso. exact (init_unite _ _ _ H).
  - intros p l r Hp Hl Hr. exists false, false. cbn [refit_init arrivals b2n].
    split; [reflexivity|].
    assert (Hnd : forall x, ~ departed P (refit_init P leaf_box) x).
    { intros x [Hf Hth]. unfold finalized in Hf. cbn [unions refit_init] in Hf.
      rewrite orb_false_r in Hf. apply (Hth x). rewrite init_pc, Hf.
      reflexivity. }
    split; split; intros H; try discriminate; exfalso; eapply Hnd; eauto.
  - intros p Hp. cbn [refit_init unions arrivals pcs].
    repeat split; try lia; discriminate.
  - intros n Hn. reflexivity.
Qed.

Lemma departed_iff s s' x th nxt :
  pcs s' = upd (pcs s) th nxt ->
  finalized P s' x = finalized P s x ->
  pcs s th <> Arrive x -> nxt <> Arrive x ->
  (departed P s' x <-> departed P s x).
Proof.
  intros Hpcs Hfin Hold Hnew. unfold departed. rewrite Hfin, Hpcs.
  split; intros [Hf Hth]; (split; [exact Hf|]); intros th'.
  - destruct (Nat.eq_dec th' th) as [->|Hne]; [exact Hold|].
    specialize (Hth th'). rewrite upd_other in Hth by exact Hne. exact Hth.
  - destruct (Nat.eq_dec th' th) as [->|Hne].
    + rewrite upd_same. exact Hnew.
    + rewrite upd_other by exact Hne. apply Hth.
Qed.

Lemma children_of p l r c :
  P <= p < N -> n_left (node_at t p) = Some l -> n_right (node_at t p) = Some r ->
  c < N -> n_parent (node_at t c) = Some p -> c = l \/ c = r.
Proof.
  intros Hp Hl Hr Hc Hcp.
  destruct (tf_parent _ _ TF c p Hc Hcp) as [_ [H|H]]; [left|right]; congruence.
Qed.

Lemma child_facts p l r :
  P <= p < N -> n_left (node_at t p) = Some l -> n_right (node_at t p) = Some r ->
  l <> r /\ l < N /\ r < N /\
  n_parent (node_at t l) = Some p /\ n_parent (node_at t r) = Some p.
Proof.
  intros Hp Hl Hr.
  destruct (tf_inner _ _ TF p Hp) as (l' & r' & Hl' & Hr' & H).
  rewrite Hl in Hl'. rewrite Hr in Hr'. injection Hl' as <-. injection Hr' as <-.
  exact H.
Qed.

Lemma b2n_le a : b2n a <= 1.
Proof. destruct a; cbn; lia. Qed.

Lemma inv_step_arrive s th c p :
  refit_inv P t s -> pcs s th = Arrive c -> n_parent (node_at t c) = Some p ->
  refit_inv P t
    (mk_refit (upd (pcs s) th (if Nat.eqb (S (arrivals s p)) 2 then Unite p else Done))
       (upd (arrivals s) p (S (arrivals s p))) (boxes s) (unions s)).
Proof.
  intros I Hpc Hcp.
  destruct (iA _ _ _ I th c Hpc) as [Hc Hfc].
  destruct (tf_parent _ _ TF c p Hc Hcp) as [Hp _]. fold N in Hp.
  destruct (tf_inner _ _ TF p Hp) as (l & r & Hl & Hr & Hlr & HlN & HrN & Hpl & Hpr).
  pose proof (children_of p l r c Hp Hl Hr Hc Hcp) as Hclr.
  destruct (iE _ _ _ I p l r Hp Hl Hr) as (a & b & Hab & Ha & Hb).
  destruct (iF _ _ _ I p Hp) as (Hu1 & Hu2 & Hu3).
  set (nxt := if Nat.eqb (S (arrivals s p)) 2 then Unite p else Done).
  assert (Hcase : (nxt = Unite p /\ S (arrivals s p) = 2) \/
                  (nxt = Done /\ S (arrivals s p) <> 2))
    by (unfold nxt; destruct (Nat.eqb_spec (S (arrivals s p)) 2); auto).
  clearbody nxt.
  assert (Hnxt : forall x, nxt <> Arrive x)
    by (intros x; destruct Hcase as [[-> _]|[-> _]]; discriminate).
  set (s' := mk_refit (upd (pcs s) th nxt)
               (upd (arrivals s) p (S (arrivals s p))) (boxes s) (unions s)).
  assert (Hfin : forall x, finalized P s' x = finalized P s x) by reflexivity.
  assert (Hnd : ~ departed P s c) by (intros [_ H]; exact (H th Hpc)).
  assert (Hle : arrivals s p <= 1).
  { destruct Hclr as [->| ->]; destruct a, b; cbn [b2n] in Hab; try lia;
      exfalso; apply Hnd; tauto. }
  assert (Hu0 : unions s p = 0) by lia.
  assert (Hnou : forall th', pcs s th' <> Unite p).
  { intros th' H. destruct (iB _ _ _ I th' p H) as (_ & H2 & _). lia. }
  assert (Hdc : departed P s' c).
  { split; [rewrite Hfin; exact Hfc|]. intros th'. cbn [pcs s'].
    destruct (Nat.eq_dec th' th) as [->|Hne].
    - rewrite upd_same. apply Hnxt.
    - rewrite upd_other by exact Hne. intros H.
      apply Hne. exact (iC _ _ _ I th' th c H Hpc). }
  assert (Hoth : forall x, x <> c -> (departed P s' x <-> departed P s x)).
  { intros x Hx. apply (departed_iff s s' x th nxt eq_refl (Hfin x)).
    - rewrite Hpc. congruence.
    - apply Hnxt. }
  assert (Hpcs : forall th', th' <> th -> pcs s' th' = pcs s th').
  { intros th' Hne. cbn [pcs s']. apply upd_other, Hne. }
  assert (Hpcth : pcs s' th = nxt) by (cbn [pcs s']; apply upd_same).
  assert (Harr : forall q, q <> p -> arrivals s' q = arrivals s q).
  { intros q Hne. cbn [arrivals s']. apply upd_other, Hne. }
  assert (Harrp : arrivals s' p = S (arrivals s p))
    by (cbn [arrivals s']; apply upd_same).
  assert (Hun : forall q, unions s' q = unions s q) by reflexivity.
  clearbody s'.
  constructor.
  - intros th' c' H. destruct (Nat.eq_dec th' th) as [->|Hne].
    + rewrite Hpcth in H. exfalso. exact (Hnxt _ H).
    + rewrite Hpcs in H by exact Hne. rewrite Hfin. exact (iA _ _ _ I th' c' H).
  - intros th' q H. rewrite Hun. destruct (Nat.eq_dec th' th) as [->|Hne].
    + rewrite Hpcth in H. destruct Hcase as [[En E2]|[En E2]]; rewrite En in H;
        [|discriminate].
      injection H as <-. rewrite Harrp. repeat split; lia.
    + rewrite Hpcs in H by exact Hne.
      destruct (iB _ _ _ I th' q H) as (Hq1 & Hq2 & Hq3).
      assert (q <> p) by (intros ->; exact (Hnou th' H)).
      rewrite Harr by assumption. repeat split; lia.
  - intros th1 th2 c' H1 H2.
    destruct (Nat.eq_dec th1 th) as [->|Hne1];
      [rewrite Hpcth in H1; exfalso; exact (Hnxt _ H1)|].
    destruct (Nat.eq_dec th2 th) as [->|Hne2];
      [rewrite Hpcth in H2; exfalso; exact (Hnxt _ H2)|].
    rewrite Hpcs in H1, H2 by assumption. exact (iC _ _ _ I th1 th2 c' H1 H2).
  - intros th1 th2 q H1 H2.
    assert (Hq : forall th', th' <> th -> pcs s' th' = Unite q -> q <> p).
    { intros th' Hne H ->. rewrite Hpcs in H by exact Hne. exact (Hnou th' H). }
    assert (Hth : pcs s' th = Unite q -> q = p).
    { rewrite Hpcth. destruct Hcase as [[-> _]|[-> _]]; congruence. }
    destruct (Nat.eq_dec th1 th) as [->|Hne1];
      destruct (Nat.eq_dec th2 th) as [->|Hne2]; try reflexivity.
    + exfalso. apply (Hq th2 Hne2 H2). auto.
    + exfalso. apply (Hq th1 Hne1 H1). auto.
    + rewrite Hpcs in H1, H2 by assumption. exact (iD _ _ _ I th1 th2 q H1 H2).
  - intros q l' r' Hq Hl' Hr'. destruct (Nat.eq_dec q p) as [->|Hqp].
    + rewrite Hl in Hl'. rewrite Hr in Hr'. injection Hl' as <-.
      injection Hr' as <-. rewrite Harrp.
      destruct Hclr as [Ec|Ec]; subst c.
      * exists true, b. rewrite <- (Hoth r) in Hb by congruence.
        destruct a; [exfalso; apply Hnd; tauto|].
        cbn [b2n] in *. split; [lia|]. tauto.
      * exists a, true. rewrite <- (Hoth l) in Ha by congruence.
        destruct b; [exfalso; apply Hnd; tauto|].
        cbn [b2n] in *. split; [lia|]. tauto.
    + rewrite Harr by exact Hqp.
      destruct (child_facts q l' r' Hq Hl' Hr') as (_ & _ & _ & Hql & Hqr).
      destruct (iE _ _ _ I q l' r' Hq Hl' Hr') as (a' & b' & Hab' & Ha' & Hb').
      exists a', b'. split; [exact Hab'|].
      rewrite (Hoth l') by (intros ->; congruence).
      rewrite (Hoth r') by (intros ->; congruence). tauto.
  - intros q Hq. rewrite Hun. destruct (Nat.eq_dec q p) as [->|Hqp].
    + rewrite Harrp. repeat split; try lia.
      intros E2. right. exists th. rewrite Hpcth.
      destruct Hcase as [[En _]|[_ En]]; [exact En | lia].
    + rewrite Harr by exact Hqp.
      destruct (iF _ _ _ I q Hq) as (F1 & F2 & F3).
      repeat split; auto. intros E2.
      destruct (F3 E2) as [F|[th' F]]; [left; exact F|].
      right. exists th'. rewrite Hpcs; [exact F|]. intros ->. congruence.
  - intros n Hn. rewrite Hun. exact (iG _ _ _ I n Hn).
Qed.

Lemma inv_step_root s th c :
  refit_inv P t s -> pcs s th = Arrive c -> n_parent (node_at t c) = None ->
  refit_inv P t (mk_refit (upd (pcs s) th Done) (arrivals s) (boxes s) (unions s)).
Proof.
  intros I Hpc Hcp.
  set (s' := mk_refit (upd (pcs s) th Done) (arrivals s) (boxes s) (unions s)).
  assert (Hfin : forall x, finalized P s' x = finalized P s x) by reflexivity.
  assert (Hoth : forall x, x <> c -> (departed P s' x <-> departed P s x)).
  { intros x Hx. apply (departed_iff s s' x th Done eq_refl (Hfin x)).
    - rewrite Hpc. congruence.
    - discriminate. }
  assert (Hpcs : forall th', th' <> th -> pcs s' th' = pcs s th').
  { intros th' Hne. cbn [pcs s']. apply upd_other, Hne. }
  assert (Hpcth : pcs s' th = Done) by (cbn [pcs s']; apply upd_same).
  assert (Harr : forall q, arrivals s' q = arrivals s q) by reflexivity.
  assert (Hun : forall q, unions s' q = unions s q) by reflexivity.
  clearbody s'.
  assert (Hold : forall th' x, x <> Done -> pcs s' th' = x -> pcs s th' = x /\ th' <> th).
  { intros th' x Hx H. destruct (Nat.eq_dec th' th) as [->|Hne].
    - rewrite Hpcth in H. congruence.
    - rewrite Hpcs in H by exact Hne. auto. }
  constructor.
  - intros th' c' H. apply Hold in H; [|discriminate]. rewrite Hfin.
    exact (iA _ _ _ I th' c' (proj1 H)).
  - intros th' q H. apply Hold in H; [|discriminate]. rewrite Hun, Harr.
    exact (iB _ _ _ I th' q (proj1 H)).
  - intros th1 th2 c' H1 H2. apply Hold in H1, H2; try discriminate.
    exact (iC _ _ _ I th1 th2 c' (proj1 H1) (proj1 H2)).
  - intros th1 th2 q H1 H2. apply Hold in H1, H2; try discriminate.
    exact (iD _ _ _ I th1 th2 q (proj1 H1) (proj1 H2)).
  - intros q l' r' Hq Hl' Hr'. rewrite Harr.
    destruct (child_facts q l' r' Hq Hl' Hr') as (_ & _ & _ & Hql & Hqr).
    destruct (iE _ _ _ I q l' r' Hq Hl' Hr') as (a' & b' & Hab' & Ha' & Hb').
    exists a', b'. split; [exact Hab'|].
    rewrite (Hoth l') by (intros ->; congruence).
    rewrite (Hoth r') by (intros ->; congruence). tauto.
  - intros q Hq. rewrite Hun, Harr.
    destruct (iF _ _ _ I q Hq) as (F1 & F2 & F3).
    repeat split; auto. intros E2.
    destruct (F3 E2) as [F|[th' F]]; [left; exact F|].
    right. exists th'. rewrite Hpcs; [exact F|]. intros ->. congruence.
  - intros n Hn. rewrite Hun. exact (iG _ _ _ I n Hn).
Qed.

Lemma inv_step_unite s th p b :
  refit_inv P t s -> pcs s th = Unite p ->
  refit_inv P t
    (mk_refit (upd (pcs s) th (Arrive p)) (arrivals s) (upd (boxes s) p b)
       (upd (unions s) p (S (unions s p)))).
Proof.
  intros I Hpc.
  destruct (iB _ _ _ I th p Hpc) as (Hp & Harr2 & Hu0).
  set (s' := mk_refit (upd (pcs s) th (Arrive p)) (arrivals s) (upd (boxes s) p b)
               (upd (unions s) p (S (unions s p)))).
  assert (Hpcs : forall th', th' <> th -> pcs s' th' = pcs s th').
  { intros th' Hne. cbn [pcs s']. apply upd_other, Hne. }
  assert (Hpcth : pcs s' th = Arrive p) by (cbn [pcs s']; apply upd_same).
  assert (Harr : forall q, arrivals s' q = arrivals s q) by reflexivity.
  assert (Hun : forall q, q <> p -> unions s' q = unions s q).
  { intros q Hne. cbn [unions s']. apply upd_other, Hne. }
  assert (Hunp : unions s' p = 1).
  { cbn [unions s']. rewrite upd_same, Hu0. reflexivity. }
  assert (Hfin : forall x, x <> p -> finalized P s' x = finalized P s x).
  { intros x Hx. unfold finalized. rewrite Hun by exact Hx. reflexivity. }
  assert (Hfp : finalized P s' p = true).
  { unfold finalized. rewrite Hunp. apply orb_true_r. }
  assert (Hnfp : finalized P s p = false).
  { unfold finalized. rewrite Hu0.
    destruct (Nat.ltb_spec p P); [lia | reflexivity]. }
  assert (Hnoa : forall th', pcs s th' <> Arrive p).
  { intros th' H. destruct (iA _ _ _ I th' p H) as [_ Hf]. congruence. }
  assert (Hdep : forall x, departed P s' x <-> departed P s x).
  { intros x. destruct (Nat.eq_dec x p) as [->|Hx].
    - split; intros [Hf Hth]; exfalso.
      + exact (Hth th Hpcth).
      + congruence.
    - apply (departed_iff s s' x th (Arrive p) eq_refl (Hfin x Hx)).
      + rewrite Hpc. discriminate.
      + congruence. }
  clearbody s'.
  constructor.
  - intros th' c' H. destruct (Nat.eq_dec th' th) as [->|Hne].
    + rewrite Hpcth in H. injection H as <-. split; [lia | exact Hfp].
    + rewrite Hpcs in H by exact Hne.
      destruct (iA _ _ _ I th' c' H) as [Hc' Hf'].
      split; [exact Hc'|]. rewrite Hfin; [exact Hf'|]. intros ->. congruence.
  - intros th' q H. destruct (Nat.eq_dec th' th) as [->|Hne].
    + rewrite Hpcth in H. discriminate.
    + rewrite Hpcs in H by exact Hne.
      assert (q <> p).
      { intros ->. apply Hne. exact (iD _ _ _ I th' th p H Hpc). }
      rewrite Harr, Hun by assumption. exact (iB _ _ _ I th' q H).
  - intros th1 th2 c' H1 H2.
    destruct (Nat.eq_dec th1 th) as [->|Hne1];
      destruct (Nat.eq_dec th2 th) as [->|Hne2]; try reflexivity.
    + rewrite Hpcth in H1. injection H1 as <-.
      rewrite Hpcs in H2 by exact Hne2. exfalso. exact (Hnoa th2 H2).
    + rewrite Hpcth in H2. injection H2 as <-.
      rewrite Hpcs in H1 by exact Hne1. exfalso. exact (Hnoa th1 H1).
    + rewrite Hpcs in H1, H2 by assumption. exact (iC _ _ _ I th1 th2 c' H1 H2).
  - intros th1 th2 q H1 H2.
    destruct (Nat.eq_dec th1 th) as [->|Hne1];
      [rewrite Hpcth in H1; discriminate|].
    destruct (Nat.eq_dec th2 th) as [->|Hne2];
      [rewrite Hpcth in H2; discriminate|].
    rewrite Hpcs in H1, H2 by assumption. exact (iD _ _ _ I th1 th2 q H1 H2).
  - intros q l' r' Hq Hl' Hr'. rewrite Harr.
    destruct (iE _ _ _ I q l' r' Hq Hl' Hr') as (a' & b' & Hab' & Ha' & Hb').
    exists a', b'. split; [exact Hab'|]. rewrite !Hdep. tauto.
  - intros q Hq. rewrite Harr. destruct (Nat.eq_dec q p) as [->|Hqp].
    + rewrite Hunp. repeat split; auto.
    + rewrite Hun by exact Hqp.
      destruct (iF _ _ _ I q Hq) as (F1 & F2 & F3).
      repeat split; auto. intros E2.
      destruct (F3 E2) as [F|[th' F]]; [left; exact F|].
      right. exists th'. rewrite Hpcs; [exact F|]. intros ->. congruence.
  - intros n Hn. rewrite Hun by lia. exact (iG _ _ _ I n Hn).
Qed.

Lemma inv_step s th : refit_inv P t s -> refit_inv P t (refit_step t th s).
Proof.
  intros I. unfold refit_step. destruct (pcs s th) as [c|p|] eqn:Hpc.
  - destruct (n_parent (node_at t c)) as [p|] eqn:Hcp.
    + apply inv_step_arrive with (c := c); assumption.
    + apply inv_step_root with (c := c); assumption.
  - apply inv_step_unite; assumption.
  - exact I.
Qed.

Lemma inv_run schedule : forall s,
  refit_inv P t s -> refit_inv P t (refit_run t schedule s).
Proof.
  unfold refit_run. induction schedule as [|th schedule IH]; intros s I;
    cbn [fold_left]; [exact I|].
  apply IH, inv_step, I.
Qed.

(** *** What the invariant gives *)

Lemma unions_at_most_once s n : refit_inv P t s -> unions s n <= 1.
Proof.
  intros I. destruct (Nat.lt_ge_cases n P) as [H|H].
  - rewrite (iG _ _ _ I n) by lia. lia.
  - destruct (Nat.lt_ge_cases n N) as [H'|H'].
    + apply (iF _ _ _ I n). fold N. lia.
    + rewrite (iG _ _ _ I n) by (fold N; lia). lia.
Qed.

Lemma children_final_before_union s th p :
  refit_inv P t s -> pcs s th = Unite p ->
  exists l r, n_left (node_at t p) = Some l /\ n_right (node_at t p) = Some r /\
              finalized P s l = true /\ finalized P s r = true /\
              finalized P s p = false.
Proof.
  intros I Hpc. destruct (iB _ _ _ I th p Hpc) as (Hp & H2 & H0).
  destruct (tf_inner _ _ TF p Hp) as (l & r & Hl & Hr & _).
  destruct (iE _ _ _ I p l r Hp Hl Hr) as (a & b & Hab & Ha & Hb).
  exists l, r. rewrite H2 in Hab.
  destruct a, b; cbn [b2n] in Hab; try lia.
  repeat split; auto.
  - apply Ha. reflexivity.
  - apply Hb. reflexivity.
  - unfold finalized. rewrite H0. destruct (Nat.ltb_spec p P); [lia|reflexivity].
Qed.

Lemma final_stays_step s th n :
  refit_inv P t s -> finalized P s n = true ->
  finalized P (refit_step t th s) n = true /\
  boxes (refit_step t th s) n = boxes s n.
Proof.
  intros I Hf. unfold refit_step. destruct (pcs s th) as [c|p|] eqn:Hpc.
  - destruct (n_parent (node_at t c)); auto.
  - destruct (children_final_before_union s th p I Hpc) as (l0 & r0 & Hl0 & Hr0 & Hfl0 & Hfr0 & Hp).
    assert (n <> p) by congruence.
    unfold finalized. cbn [unions boxes]. rewrite !upd_other by assumption.
    auto.
  - auto.
Qed.

Lemma final_stays schedule : forall s n,
  refit_inv P t s -> finalized P s n = true ->
  finalized P (refit_run t schedule s) n = true /\
  boxes (refit_run t schedule s) n = boxes s n.
Proof.
  unfold refit_run. induction schedule as [|th schedule IH]; intros s n I Hf;
    cbn [fold_left]; [auto|].
  destruct (final_stays_step s th n I Hf) as [Hf' Hb'].
  destruct (IH (refit_step t th s) n (inv_step s th I) Hf') as [Hf'' Hb''].
  split; [exact Hf'' | congruence].
Qed.

Lemma boxes_united_step s th :
  refit_inv P t s -> boxes_united P t s -> boxes_united P t (refit_step t th s).
Proof.
  intros I H. unfold refit_step. destruct (pcs s th) as [c|q|] eqn:Hpc.
  - destruct (n_parent (node_at t c)); exact H.
  - destruct (children_final_before_union s th q I Hpc)
      as (lq & rq & Hlq & Hrq & Hfl & Hfr & Hfq).
    destruct (iB _ _ _ I th q Hpc) as (Hq & _ & _).
    rewrite Hlq, Hrq.
    intros p l r Hp Hl Hr Hu. cbn [boxes unions] in *.
    destruct (child_facts p l r Hp Hl Hr) as (_ & HlN & HrN & Hpl & Hpr).
    assert (Hlq' : l <> q -> r <> q ->
              upd (boxes s) q (union_opt (boxes s lq) (boxes s rq)) l = boxes s l /\
              upd (boxes s) q (union_opt (boxes s lq) (boxes s rq)) r = boxes s r).
    { intros A B. rewrite !upd_other by assumption. auto. }
    destruct (Nat.eq_dec p q) as [->|Hpq].
    + rewrite Hlq in Hl. rewrite Hrq in Hr. injection Hl as <-. injection Hr as <-.
      rewrite upd_same.
      destruct Hlq' as [-> ->]; try reflexivity.
      * apply (not_own_child q lq HlN Hpl).
      * apply (not_own_child q rq HrN Hpr).
    + rewrite upd_other in Hu by exact Hpq. rewrite upd_other by exact Hpq.
      destruct (iF _ _ _ I p Hp) as (_ & F2 & _).
      destruct (iE _ _ _ I p l r Hp Hl Hr) as (a & b & Hab & Ha & Hb).
      rewrite (F2 Hu) in Hab.
      destruct a, b; cbn [b2n] in Hab; try lia.
      destruct (proj1 Ha eq_refl) as [Hfl' _].
      destruct (proj1 Hb eq_refl) as [Hfr' _].
      destruct Hlq' as [-> ->]; try congruence.
      apply H; assumption.
  - exact H.
Qed.

Lemma boxes_united_init leaf_box : boxes_united P t (refit_init P leaf_box).
Proof. intros p l r _ _ _ H. discriminate H. Qed.

Lemma boxes_united_run schedule : forall s,
  refit_inv P t s -> boxes_united P t s -> boxes_united P t (refit_run t schedule s).
Proof.
  unfold refit_run. induction schedule as [|th schedule IH]; intros s I H;
    cbn [fold_left]; [exact H|].
  apply IH; [apply inv_step, I | apply boxes_united_step; assumption].
Qed.

Lemma all_final s :
  refit_inv P t s -> (forall th, pcs s th = Done) ->
  forall m n d, n < N -> steps_to_root t N n = Some d -> N - d <= m ->
    finalized P s n = true.
Proof.
  intros I Hdone. induction m as [|m IH]; intros n d Hn Hd Hm.
  all: destruct (Nat.lt_ge_cases n P) as [Hleaf|Hin];
    [unfold finalized; apply Nat.ltb_lt in Hleaf; rewrite Hleaf; reflexivity|].
  all: destruct (tf_inner _ _ TF n ltac:(fold N; lia))
         as (l & r & Hl & Hr & _ & HlN & HrN & Hpl & Hpr).
  all: destruct (depth_of_child l n HlN Hpl) as (dl & Hdl1 & Hdl2).
  all: destruct (depth_of_child r n HrN Hpr) as (dr & Hdr1 & Hdr2).
  all: assert (dl = d) by congruence; assert (dr = d) by congruence; subst dl dr.
  all: pose proof (steps_bound N l (S d) Hdl2) as Hb.
  - lia.
  - assert (Fl : finalized P s l = true) by (apply (IH l (S d)); auto; lia).
    assert (Fr : finalized P s r = true) by (apply (IH r (S d)); auto; lia).
    destruct (iE _ _ _ I n l r ltac:(fold N; lia) Hl Hr) as (a & b & Hab & Ha & Hb').
    assert (a = true).
    { apply Ha. split; [exact Fl|]. intros th. rewrite Hdone. discriminate. }
    assert (b = true).
    { apply Hb'. split; [exact Fr|]. intros th. rewrite Hdone. discriminate. }
    subst a b. cbn [b2n] in Hab.
    destruct (iF _ _ _ I n ltac:(fold N; lia)) as (_ & _ & F3).
    destruct (F3 Hab) as [F|[th F]].
    + unfold finalized. rewrite F. apply orb_true_r.
    + rewrite Hdone in F. discriminate.
Qed.

Lemma once_when_all_done s :
  refit_inv P t s -> (forall th, pcs s th = Done) ->
  forall p, P <= p < N -> unions s p = 1.
Proof.
  intros I Hdone p Hp.
  destruct (tf_reach _ _ TF p ltac:(fold N; lia)) as [d Hd]. fold N in Hd.
  pose proof (all_final s I Hdone N p d ltac:(lia) Hd ltac:(lia)) as Hf.
  unfold finalized in Hf. destruct (Nat.ltb_spec p P); [lia|].
  cbn [orb] in Hf. apply Nat.eqb_eq, Hf.
Qed.

(** *** Every thread stops *)

Lemma step_other_thread s th th' :
  th' <> th -> pcs (refit_step t th s) th' = pcs s th'.
Proof.
  intros Hne. unfold refit_step. destruct (pcs s th) as [c|p|].
  - destruct (n_parent (node_at t c)); cbn [pcs]; apply upd_other, Hne.
  - cbn [pcs]. apply upd_other, Hne.
  - reflexivity.
Qed.

Lemma step_done_stays s th th' :
  pcs s th' = Done -> pcs (refit_step t th s) th' = Done.
Proof.
  intros H. destruct (Nat.eq_dec th' th) as [->|Hne].
  - unfold refit_step. rewrite H. exact H.
  - rewrite step_other_thread by exact Hne. exact H.
Qed.

Lemma work_decreases s th :
  refit_inv P t s -> pcs s th <> Done ->
  work t N (pcs (refit_step t th s) th) < work t N (pcs s th).
Proof.
  intros I Hnd. unfold refit_step. destruct (pcs s th) as [c|p|] eqn:Hpc.
  - destruct (iA _ _ _ I th c Hpc) as [Hc _]. fold N in Hc.
    destruct (n_parent (node_at t c)) as [p|] eqn:Hcp; cbn [pcs];
      rewrite upd_same.
    + destruct (depth_of_child c p Hc Hcp) as (d & Hd1 & Hd2).
      cbn [work]. rewrite Hd2.
      destruct (Nat.eqb (S (arrivals s p)) 2); cbn [work]; [rewrite Hd1|]; lia.
    + cbn [work]. rewrite (depth_of_root c Hcp). lia.
  - destruct (iB _ _ _ I th p Hpc) as (Hp & _). fold N in Hp.
    destruct (tf_reach _ _ TF p ltac:(fold N; lia)) as [d Hd]. fold N in Hd.
    cbn [pcs]. rewrite upd_same. cbn [work]. rewrite Hd. lia.
  - congruence.
Qed.

Lemma work_zero s th :
  refit_inv P t s -> work t N (pcs s th) = 0 -> pcs s th = Done.
Proof.
  intros I H. destruct (pcs s th) as [c|p|] eqn:Hpc; [| |reflexivity];
    exfalso; cbn [work] in H.
  - destruct (iA _ _ _ I th c Hpc) as [Hc _].
    destruct (tf_reach _ _ TF c Hc) as [d Hd]. fold N in Hd.
    rewrite Hd in H. lia.
  - destruct (iB _ _ _ I th p Hpc) as (Hp & _).
    destruct (tf_reach _ _ TF p ltac:(lia)) as [d Hd]. fold N in Hd.
    rewrite Hd in H. lia.
Qed.

Lemma thread_stops schedule th : forall s,
  refit_inv P t s ->
  work t N (pcs s th) <= count_occ Nat.eq_dec schedule th ->
  pcs (refit_run t schedule s) th = Done.
Proof.
  unfold refit_run. induction schedule as [|th' schedule IH]; intros s I Hw.
  - cbn [fold_left count_occ] in *. apply work_zero; [exact I | lia].
  - cbn [fold_left]. apply IH; [apply inv_step, I|].
    cbn [count_occ] in Hw. destruct (Nat.eq_dec th' th) as [->|Hne].
    + destruct (pcs s th) as [c|p|] eqn:Hpc.
      * pose proof (work_decreases s th I ltac:(congruence)).
        rewrite Hpc in H. lia.
      * pose proof (work_decreases s th I ltac:(congruence)).
        rewrite Hpc in H. lia.
      * rewrite (step_done_stays s th th Hpc). cbn [work]. lia.
    + rewrite step_other_thread by congruence. exact Hw.
Qed.

Lemma initial_work leaf_box th :
  work t N (pcs (refit_init P leaf_box) th) <= 2 * N + 1.
Proof.
  rewrite init_pc. destruct (Nat.ltb th P); cbn [work]; [|lia].
  destruct (steps_to_root t N th) as [d|] eqn:E; [|lia].
  pose proof (steps_bound N th d E). lia.
Qed.

(** *** The boxes do not depend on the schedule *)

Lemma fair_all_done leaf_box schedule :
  (forall th, th < P -> 2 * N + 1 <= count_occ Nat.eq_dec schedule th) ->
  forall th, pcs (refit_run t schedule (refit_init P leaf_box)) th = Done.
Proof.
  intros Hfair th. apply thread_stops; [apply inv_init|].
  destruct (Nat.lt_ge_cases th P) as [Hth|Hth].
  - pose proof (initial_work leaf_box th). specialize (Hfair th Hth). lia.
  - rewrite init_pc. apply Nat.ltb_ge in Hth. rewrite Hth. cbn [work]. lia.
Qed.

Lemma leaf_box_kept leaf_box schedule n :
  n < P -> boxes (refit_run t schedule (refit_init P leaf_box)) n = leaf_box n.
Proof.
  intros Hn. apply Nat.ltb_lt in Hn.
  destruct (final_stays schedule (refit_init P leaf_box) n (inv_init leaf_box))
    as [_ Hb].
  - unfold finalized. rewrite Hn. reflexivity.
  - rewrite Hb. unfold refit_init. cbn [boxes]. rewrite Hn. reflexivity.
Qed.

Lemma boxes_agree s1 s2 :
  refit_inv P t s1 -> refit_inv P t s2 ->
  boxes_united P t s1 -> boxes_united P t s2 ->
  (forall th, pcs s1 th = Done) -> (forall th, pcs s2 th = Done) ->
  (forall n, n < P -> boxes s1 n = boxes s2 n) ->
  forall m n d, n < N -> steps_to_root t N n = Some d -> N - d <= m ->
    boxes s1 n = boxes s2 n.
Proof.
  intros I1 I2 U1 U2 D1 D2 Hleaf.
  induction m as [|m IH]; intros n d Hn Hd Hm.
  all: destruct (Nat.lt_ge_cases n P) as [Hl|Hin]; [apply Hleaf, Hl|].
  all: destruct (tf_inner _ _ TF n ltac:(fold N; lia))
         as (l & r & Hl & Hr & _ & HlN & HrN & Hpl & Hpr).
  all: destruct (depth_of_child l n HlN Hpl) as (dl & Hdl1 & Hdl2).
  all: destruct (depth_of_child r n HrN Hpr) as (dr & Hdr1 & Hdr2).
  all: assert (dl = d) by congruence; assert (dr = d) by congruence; subst dl dr.
  all: pose proof (steps_bound N l (S d) Hdl2) as Hb.
  - lia.
  - rewrite (U1 n l r ltac:(fold N; lia) Hl Hr
               (once_when_all_done s1 I1 D1 n ltac:(lia))).
    rewrite (U2 n l r ltac:(fold N; lia) Hl Hr
               (once_when_all_done s2 I2 D2 n ltac:(lia))).
    rewrite (IH l (S d)) by (auto; lia).
    rewrite (IH r (S d)) by (auto; lia).
    reflexivity.
Qed.

(** Two runs of the refit on the same tree and the same leaf boxes, each
    with a schedule that lets every thread finish, end with the same box
    in every node. *)
Lemma refit_schedule_independent leaf_box sched1 sched2 :
  (forall th, th < P -> 2 * N + 1 <= count_occ Nat.eq_dec sched1 th) ->
  (forall th, th < P -> 2 * N + 1 <= count_occ Nat.eq_dec sched2 th) ->
  forall n, n < N ->
    boxes (refit_run t sched1 (refit_init P leaf_box)) n =
    boxes (refit_run t sched2 (refit_init P leaf_box)) n.
Proof.
  intros F1 F2 n Hn.
  destruct (tf_reach _ _ TF n Hn) as [d Hd].
  apply (boxes_agree _ _
           (inv_run sched1 _ (inv_init leaf_box))
           (inv_run sched2 _ (inv_init leaf_box))
           (boxes_united_run sched1 _ (inv_init leaf_box) (boxes_united_init leaf_box))
           (boxes_united_run sched2 _ (inv_init leaf_box) (boxes_united_init leaf_box))
           (fair_all_done leaf_box sched1 F1)
           (fair_all_done leaf_box sched2 F2)) with (m := N) (d := d).
  - intros k Hk. rewrite !leaf_box_kept by exact Hk. reflexivity.
  - exact Hn.
  - exact Hd.
  - lia.
Qed.

End Refit.

(** *** The refit on any well-formed tree *)

(** C5 (refit single-write property).  On every tree that passes
    [well_formed] (any shape, chains included), in every interleaving
    [schedule] of the leaf threads and at every point of it: the
    union-and-write path of a node has run at most once; a thread that is
    about to run it for node [p] finds both children of [p] finalized and
    [p] itself not yet written; a finalized node stays finalized and its
    box is never changed by whatever is scheduled afterwards; the box
    written for a node is the union of the boxes of its two children; and
    once every thread has been scheduled [2 (2P - 1) + 1] times, all
    threads have stopped and the path has run exactly once for each of
    the [P - 1] internal nodes. *)
Theorem C5_refit_unites_each_node_once (P : nat) (t : list Node)
    (leaf_box : nat -> option aabb) (schedule : list nat)
    (WF : well_formed P t = true) :
  let s := refit_run t schedule (refit_init P leaf_box) in
  (forall n, (unions s n <= 1)%nat) /\
  (forall th p, pcs s th = Unite p ->
     exists l r, n_left (node_at t p) = Some l /\
                 n_right (node_at t p) = Some r /\
                 finalized P s l = true /\ finalized P s r = true /\
                 finalized P s p = false) /\
  (forall n more, finalized P s n = true ->
     finalized P (refit_run t more s) n = true /\
     boxes (refit_run t more s) n = boxes s n) /\
  (forall p l r, (P <= p < 2 * P - 1)%nat ->
     n_left (node_at t p) = Some l -> n_right (node_at t p) = Some r ->
     unions s p = 1%nat -> boxes s p = union_opt (boxes s l) (boxes s r)) /\
  ((forall th, (th < P)%nat ->
      (2 * (2 * P - 1) + 1 <= count_occ Nat.eq_dec schedule th)%nat) ->
   (forall th, pcs s th = Done) /\
   (forall p, (P <= p < 2 * P - 1)%nat -> unions s p = 1%nat)).
Proof.
  intros s.
  pose proof (well_formed_facts P t WF) as TF.
  assert (I : refit_inv P t s).
  { apply inv_run; [exact TF|]. apply inv_init, TF. }
  split; [|split; [|split; [|split]]].
  - intros n. apply (unions_at_most_once P t s n I).
  - intros th p. apply (children_final_before_union P t TF s th p I).
  - intros n more. apply (final_stays P t TF more s n I).
  - apply (boxes_united_run P t TF schedule); [apply inv_init, TF|].
    apply boxes_united_init.
  - intros Hfair.
    assert (Hdone : forall th, pcs s th = Done)
      by (apply (fair_all_done P t TF leaf_box schedule Hfair)).
    split; [exact Hdone|].
    apply (once_when_all_done P t TF s I Hdone).
Qed.

Lemma C5_refit_unites_each_node_once_witness :
  well_formed 4 chain4 = true /\
  forall p, (4 <= p < 7)%nat ->
    unions (refit_run chain4 (round_robin 4 15) (refit_init 4 (fun _ => None))) p
    = 1%nat.
Proof.
  split; [reflexivity|].
  destruct (C5_refit_unites_each_node_once 4 chain4 (fun _ => None)
              (round_robin 4 15) eq_refl) as (_ & _ & _ & _ & H).
  apply H. intros th Hth.
  destruct th as [|[|[|[|th]]]]; [vm_compute; lia ..|lia].
Defined.

(** *** One primitive *)




(** * One primitive *)




(** * The rest of the host program *)

(** *** The render loop, run *)

Lemma after_event_live dev bs e b :
  buf_live (get_buffer (after_event dev bs e) b) = buf_live (get_buffer bs b).
Proof. apply commit_live. Qed.

Lemma run_Present b bs cs rs sc sr sub con :
  buf_live (get_buffer bs b) = true ->
  gprtBufferPresent b (mk_context bs cs rs sc sr sub con) =
  (mk_context bs cs rs sc sr sub con, Some tt).
Proof.
  intros H. unfold gprtBufferPresent, bind, get. cbn [buffers]. rewrite H.
  reflexivity.
Qed.

Lemma render_loop_run dev entry fb cs sc con inputs :
  forall inp firstFrame pos lookFrom iFrame d bs sr sub,
    buf_live (get_buffer bs fb) = true ->
    let r := render_frames dev entry inputs inp firstFrame pos lookFrom iFrame d bs in
    render_loop dev 0 0 fb inputs inp firstFrame pos lookFrom iFrame
      (mk_context bs cs [mk_RayGen entry d] sc sr sub con) =
    (mk_context (r_buffers r) cs [mk_RayGen entry (r_data r)] sc [r_data r]
       (sub ++ r_events r) con, Some tt).
Proof.
  induction inputs as [|inp' inputs IH];
    intros inp firstFrame pos lookFrom iFrame d bs sr sub Hlive.
  all: cbn [render_loop render_frames].
  all: destruct (orbit dev lookFrom (if firstFrame then cursor inp else pos)
                   (cursor inp)) as [lf cam] eqn:Ho.
  all: cbn [fst snd].
  all: destruct (left_pressed inp || firstFrame) eqn:Hm.
  all: repeat step.
  all: erewrite bind_some
         by (apply run_Present; rewrite after_event_live; exact Hlive).
  all: destruct (should_close inp); try reflexivity.
  all: try (rewrite IH by (rewrite after_event_live; exact Hlive);
            cbn [r_buffers r_data r_events]; rewrite <- app_assoc; reflexivity).
  all: destruct firstFrame; [rewrite orb_true_r in Hm; discriminate|].
  all: rewrite IH by (rewrite after_event_live; exact Hlive);
         cbn [r_buffers r_data r_events]; rewrite <- app_assoc; reflexivity.
Qed.

Lemma get_buffer_app_r bs x : get_buffer (bs ++ [x]) (length bs) = x.
Proof. unfold get_buffer. apply nth_middle. Qed.

Lemma run_SaveImage b w h name bs cs rs sc sr sub con :
  buf_live (get_buffer bs b) = true ->
  gprtBufferSaveImage b w h name (mk_context bs cs rs sc sr sub con) =
  (mk_context bs cs rs sc sr sub con, Some tt).
Proof.
  intros H. unfold gprtBufferSaveImage, bind, get. cbn [buffers]. rewrite H.
  reflexivity.
Qed.

Lemma render_frames_live dev entry inputs :
  forall inp firstFrame pos lookFrom iFrame d bs b,
    buf_live (get_buffer (r_buffers
      (render_frames dev entry inputs inp firstFrame pos lookFrom iFrame d bs)) b)
    = buf_live (get_buffer bs b).
Proof.
  induction inputs as [|inp' inputs IH]; intros; cbn [render_frames].
  all: destruct (should_close inp); cbn [r_buffers];
    rewrite ?IH; apply after_event_live.
Qed.

Lemma main_render_run dev inp inputs bs cs sc sr sub con :
  let fbuf := mk_Buffer Tuint32 (i2_x fbSize * i2_y fbSize)
                (fun _ => uninit Tuint32) false true in
  let r := render_frames dev "simpleRayGen" inputs inp true
             (S754_zero false, S754_zero false) lookFrom_initial 0
             (set_frameBuffer (S (length bs)) RayGenData_zero) (bs ++ [fbuf]) in
  main_render dev inp inputs (mk_context bs cs [] sc sr sub con) =
  (mk_context (r_buffers r) cs [mk_RayGen "simpleRayGen" (r_data r)]
     (map c_params cs) [r_data r] (sub ++ r_events r)
     (con ++ [OutLog "launching ...";
              OutLog "done with launch, writing frame buffer to s12-swBVH.png";
              OutLog "written rendered frame buffer to file s12-swBVH.png"]),
   Some (length bs)).
Proof.
  intros fbuf r. unfold main_render.
  do 6 step.
  fold fbuf.
  erewrite bind_some.
  2:{ apply render_loop_run. apply (f_equal buf_live (get_buffer_app_r bs fbuf)). }
  fold r.
  step.
  erewrite bind_some.
  2:{ apply run_SaveImage. unfold r. rewrite render_frames_live.
      apply (f_equal buf_live (get_buffer_app_r bs fbuf)). }
  step.
  rewrite <- !app_assoc. reflexivity.
Qed.

(** *** The read-back leaves the buffers as they were *)

Lemma update_buffer_id bs b f :
  f (get_buffer bs b) = get_buffer bs b -> update_buffer bs b f = bs.
Proof.
  unfold get_buffer. revert b.
  induction bs as [|x bs IH]; intros [|b] H; cbn [update_buffer nth] in *;
    try reflexivity.
  - rewrite H. reflexivity.
  - rewrite IH by exact H. reflexivity.
Qed.

Lemma update_buffer_twice bs b f g :
  update_buffer (update_buffer bs b f) b g = update_buffer bs b (fun x => g (f x)).
Proof.
  revert b. induction bs as [|x bs IH]; intros [|b]; cbn [update_buffer];
    try reflexivity.
  rewrite IH. reflexivity.
Qed.

Lemma update_buffer_comm bs b b' f g :
  b <> b' ->
  update_buffer (update_buffer bs b f) b' g =
  update_buffer (update_buffer bs b' g) b f.
Proof.
  revert b b'. induction bs as [|x bs IH]; intros [|b] [|b'] H;
    cbn [update_buffer]; try reflexivity; try congruence.
  rewrite IH by congruence. reflexivity.
Qed.

Lemma map_unmap_id bs b :
  buf_mapped (get_buffer bs b) = false ->
  update_buffer bs b (fun x =>
    (fun y => mk_Buffer (buf_type y) (buf_count y) (buf_data y) false (buf_live y))
      (mk_Buffer (buf_type x) (buf_count x) (buf_data x) true (buf_live x))) = bs.
Proof.
  intros H. apply update_buffer_id. cbn [buf_type buf_count buf_data buf_live].
  destruct (get_buffer bs b). cbn in *. rewrite H. reflexivity.
Qed.

Lemma readback_id bs6 p n cs rs sc sr sub con :
  numNodes p = n -> 0 <= n < 2 ^ 31 ->
  (5 < length bs6)%nat -> (6 < length bs6)%nat ->
  buf_live (get_buffer bs6 5) = true -> buf_live (get_buffer bs6 6) = true ->
  buf_mapped (get_buffer bs6 5) = false -> buf_mapped (get_buffer bs6 6) = false ->
  buf_count (get_buffer bs6 5) = n -> buf_count (get_buffer bs6 6) = 2 * n ->
  main_readback p 5 6 (mk_context bs6 cs rs sc sr sub con) =
  (mk_context bs6 cs rs sc sr sub
     (con ++ map (fun j => node_row (mem_of bs6) (Z.of_nat j))
               (seq 0 (Z.to_nat n))),
   Some tt).
Proof.
  intros Hn Hr Hl5 Hl6 L5 L6 M5 M6 C5 C6.
  set (fm := fun x => mk_Buffer (buf_type x) (buf_count x) (buf_data x) true
                        (buf_live x)).
  set (fu := fun x => mk_Buffer (buf_type x) (buf_count x) (buf_data x) false
                        (buf_live x)).
  set (bs7 := update_buffer bs6 5 fm).
  set (bs8 := update_buffer bs7 6 fm).
  assert (G5 : get_buffer bs8 5 = fm (get_buffer bs6 5)).
  { unfold bs8. rewrite get_update_other by lia. unfold bs7.
    apply get_update_same. lia. }
  assert (G6 : get_buffer bs8 6 = fm (get_buffer bs6 6)).
  { unfold bs8. rewrite get_update_same
      by (unfold bs7; rewrite length_update_buffer; lia).
    unfold bs7. rewrite get_update_other by lia. reflexivity. }
  assert (Hid : update_buffer (update_buffer bs8 5 fu) 6 fu = bs6).
  { unfold bs8, bs7.
    rewrite (update_buffer_comm (update_buffer bs6 5 fm) 6 5) by lia.
    rewrite !update_buffer_twice.
    unfold fm, fu.
    rewrite (map_unmap_id (update_buffer bs6 5 _) 6)
      by (rewrite get_update_other by lia; exact M6).
    apply map_unmap_id. exact M5. }
  unfold main_readback. rewrite Hn.
  erewrite bind_some by (apply run_Map; exact L5). fold fm. fold bs7.
  erewrite bind_some.
  2:{ apply run_Map. unfold bs7. rewrite get_update_other by lia. exact L6. }
  fold fm. fold bs8. clearbody bs8. clear bs7.
  erewrite bind_some by reflexivity.
  erewrite bind_some by reflexivity.
  erewrite bind_some.
  2:{ apply (readback_loop bs8 cs rs sc sr sub n); try lia.
      - intros j Hj. rewrite G5. unfold fm, valid_access.
        cbn [buf_live buf_mapped buf_count]. rewrite L5, C5.
        destruct (Z.leb_spec 0 j), (Z.ltb_spec j n); (reflexivity || lia).
      - intros j Hj. rewrite G6. unfold fm, valid_access.
        cbn [buf_live buf_mapped buf_count]. rewrite L6, C6.
        destruct (Z.leb_spec 0 j), (Z.ltb_spec j (2 * n));
          (reflexivity || lia). }
  erewrite bind_some.
  2:{ apply run_Unmap. rewrite G5. reflexivity. }
  rewrite (map_ext _ (fun j => node_row (mem_of bs6) (Z.of_nat j))).
  2:{ intros j. unfold node_row, mem_of. rewrite G5, G6. reflexivity. }
  rewrite run_Unmap.
  2:{ rewrite get_update_other by lia. rewrite G6. reflexivity. }
  fold fu. rewrite Hid. reflexivity.
Qed.

(** *** The whole of [main], run *)

Lemma main_exact dev av0 vs ts inp inputs :
  let P := Z.of_nat (length ts) in
  1 <= P <= 2 ^ 30 ->
  let r := rendering dev vs ts inp inputs in
  run (main dev av0 vs ts inp inputs) =
  (mk_context
     (update_buffer (update_buffer (update_buffer (r_buffers r) 7 destroyed)
        0 destroyed) 1 destroyed)
     (map (fun entry => mk_Compute entry (lbvh_params ts))
        ["ComputeTriangleBounds"; "ComputeTriangleMortonCodes"; "MakeNodes";
         "SplitNodes"; "BuildTriangleHierarchy"])
     [mk_RayGen "simpleRayGen" (r_data r)]
     (repeat (lbvh_params ts) 5) [r_data r]
     (construction_events dev vs ts ++ r_events r)
     (greeting av0 ++
      map (fun j => node_row (mem_of (constructed_buffers dev vs ts)) (Z.of_nat j))
        (seq 0 (Z.to_nat (2 * P - 1))) ++ closing_lines),
   Some tt).
Proof.
  intros P HP r.
  assert (Hp := params_in_range ts). cbv zeta in Hp. fold P in Hp.
  specialize (Hp ltac:(lia)).
  destruct (constructed_meta dev vs ts 5) as (C5 & _ & L5 & M5).
  destruct (constructed_meta dev vs ts 6) as (C6 & _ & L6 & M6).
  pose proof (length_constructed dev vs ts) as Hlen.
  unfold run, main, empty_context.
  step.
  erewrite bind_some by apply main_build_run.
  cbv beta iota zeta. cbn [map repeat].
  erewrite bind_some.
  2:{ apply (readback_id (constructed_buffers dev vs ts) (lbvh_params ts)
               (2 * P - 1)); try lia; try assumption.
      - rewrite Hp. reflexivity.
      - rewrite C5. cbn [seeded_buffers get_buffer nth buf_count].
        rewrite Hp. reflexivity.
      - rewrite C6. cbn [seeded_buffers get_buffer nth buf_count].
        rewrite Hp. cbn [numNodes]. apply box_count_in_range. lia. }
  erewrite bind_some by apply main_render_run.
  rewrite Hlen. fold new_frame_buffer.
  change (render_frames dev "simpleRayGen" inputs inp true
            (S754_zero false, S754_zero false) lookFrom_initial 0
            (set_frameBuffer 8%nat RayGenData_zero)
            (constructed_buffers dev vs ts ++ [new_frame_buffer])) with r.
  cbn [map c_params].
  unfold main_cleanup, Mesh_cleanup.
  do 3 step.
  unfold LOG_OK, cout, bind, get, modify, with_console, greeting, closing_lines.
  cbn [console buffers computes raygens sbt_compute sbt_raygen submitted app].
  rewrite <- !app_assoc. cbn [app]. reflexivity.
Qed.

(** *** What the render loop submits *)

Lemma render_frames_length dev entry inputs :
  forall inp firstFrame pos lookFrom iFrame d bs,
    length (r_events (render_frames dev entry inputs inp firstFrame pos lookFrom
                        iFrame d bs)) = length (frames inputs inp).
Proof.
  induction inputs as [|inp' inputs IH]; intros; cbn [render_frames frames].
  all: destruct (should_close inp); cbn [r_events length]; try reflexivity.
  rewrite IH. reflexivity.
Qed.

Lemma frames_head inputs inp : nth_error (frames inputs inp) 0 = Some inp.
Proof. destruct inputs; reflexivity. Qed.

Lemma render_frames_head dev entry inputs inp firstFrame pos lookFrom iFrame0 d bs :
  exists p,
    nth_error (r_events (render_frames dev entry inputs inp firstFrame pos
                           lookFrom iFrame0 d bs)) 0 =
      Some (EvRayGen entry p (i2_x fbSize) (i2_y fbSize) (mem_of bs)) /\
    frameBuffer p = frameBuffer d /\ iFrame p = iFrame0 /\ iTime p = time inp /\
    camera p =
      if left_pressed inp || firstFrame
      then snd (orbit dev lookFrom (if firstFrame then cursor inp else pos)
                  (cursor inp))
      else camera d.
Proof.
  eexists. split.
  - destruct inputs; cbn [render_frames]; destruct (should_close inp);
      reflexivity.
  - destruct (left_pressed inp || firstFrame); repeat split; reflexivity.
Qed.

Lemma render_frames_nth dev entry inputs :
  forall inp firstFrame pos lookFrom iFrame0 d bs k e,
    nth_error (r_events (render_frames dev entry inputs inp firstFrame pos
                           lookFrom iFrame0 d bs)) k = Some e ->
    exists p f,
      e = EvRayGen entry p (i2_x fbSize) (i2_y fbSize) (event_pre e) /\
      nth_error (frames inputs inp) k = Some f /\
      frameBuffer p = frameBuffer d /\
      iFrame p = iFrame0 + Z.of_nat k /\ iTime p = time f.
Proof.
  induction inputs as [|inp' inputs IH];
    intros inp firstFrame pos lookFrom iFrame0 d bs k e He.
  all: destruct k as [|k].
  1,3: match type of He with
       | nth_error (r_events (render_frames _ _ ?l _ _ _ _ _ _ _)) 0 = _ =>
           destruct (render_frames_head dev entry l inp firstFrame pos
                       lookFrom iFrame0 d bs) as (p & Hp & Hfb & Hi & Ht & _)
       end;
            rewrite Hp in He; injection He as <-;
            exists p, inp; rewrite frames_head; cbn [event_pre];
            repeat split; auto; lia.
  - cbn [render_frames] in He. destruct (should_close inp);
      cbn [r_events nth_error] in He; destruct k; discriminate.
  - cbn [render_frames frames] in *.
    destruct (should_close inp); cbn [r_events nth_error] in *;
      [destruct k; discriminate|].
    destruct (IH _ _ _ _ _ _ _ _ _ He) as (p & f & E & Hf & Hfb & Hi & Ht).
    exists p, f. repeat split; auto.
    + rewrite Hfb. destruct (left_pressed inp || firstFrame); reflexivity.
    + lia.
Qed.

Lemma render_frames_step dev entry inputs :
  forall inp firstFrame pos lookFrom iFrame0 d bs k e e',
    let r := render_frames dev entry inputs inp firstFrame pos lookFrom iFrame0
               d bs in
    nth_error (r_events r) k = Some e ->
    nth_error (r_events r) (S k) = Some e' ->
    exists p p' f f',
      e = EvRayGen entry p (i2_x fbSize) (i2_y fbSize) (event_pre e) /\
      e' = EvRayGen entry p' (i2_x fbSize) (i2_y fbSize) (event_pre e') /\
      nth_error (frames inputs inp) k = Some f /\
      nth_error (frames inputs inp) (S k) = Some f' /\
      should_close f = false /\
      (left_pressed f' = false -> camera p' = camera p) /\
      (left_pressed f' = true ->
       exists from, camera p' = snd (orbit dev from (cursor f) (cursor f'))).
Proof.
  induction inputs as [|inp' inputs IH];
    intros inp firstFrame pos lookFrom iFrame0 d bs k e e' r He He'; subst r.
  - cbn [render_frames] in He'. destruct (should_close inp);
      cbn [r_events nth_error] in He'; destruct k; discriminate.
  - cbn [render_frames frames] in *.
    destruct (should_close inp) eqn:Hc; cbn [r_events nth_error] in *;
      [destruct k; discriminate|].
    destruct k as [|k].
    + injection He as <-.
      match type of He' with
      | nth_error (r_events (render_frames _ _ _ _ _ ?pos' ?lf' ?i' ?d' ?bs')) 0 = _ =>
          destruct (render_frames_head dev entry inputs inp' false pos' lf' i'
                      d' bs') as (p' & Hp' & _ & _ & _ & Hcam)
      end.
      rewrite Hp' in He'. injection He' as <-.
      eexists _, p', inp, inp'. cbn [event_pre].
      rewrite frames_head. rewrite orb_false_r in Hcam.
      repeat split; auto.
      * intros Hl. rewrite Hl in Hcam. rewrite Hcam.
        destruct (left_pressed inp || firstFrame); reflexivity.
      * intros Hl. rewrite Hl in Hcam. eexists. exact Hcam.
    + apply (IH _ _ _ _ _ _ _ _ _ _ He He').
Qed.

Lemma render_frames_meta dev entry inputs :
  forall inp firstFrame pos lookFrom iFrame0 d bs,
    let bs' := r_buffers (render_frames dev entry inputs inp firstFrame pos
                            lookFrom iFrame0 d bs) in
    length bs' = length bs /\
    forall b,
      buf_count (get_buffer bs' b) = buf_count (get_buffer bs b) /\
      buf_type (get_buffer bs' b) = buf_type (get_buffer bs b) /\
      buf_live (get_buffer bs' b) = buf_live (get_buffer bs b) /\
      buf_mapped (get_buffer bs' b) = buf_mapped (get_buffer bs b).
Proof.
  assert (Hone : forall bs e,
            length (after_event dev bs e) = length bs /\
            forall b,
              buf_count (get_buffer (after_event dev bs e) b) = buf_count (get_buffer bs b) /\
              buf_type (get_buffer (after_event dev bs e) b) = buf_type (get_buffer bs b) /\
              buf_live (get_buffer (after_event dev bs e) b) = buf_live (get_buffer bs b) /\
              buf_mapped (get_buffer (after_event dev bs e) b) = buf_mapped (get_buffer bs b)).
  { intros bs e. split; [apply length_after_event|]. intros b.
    unfold after_event.
    rewrite commit_count, commit_type, commit_live, commit_mapped. auto. }
  induction inputs as [|inp' inputs IH]; intros; subst bs';
    cbn [render_frames].
  all: destruct (should_close inp); cbn [r_buffers]; try apply Hone.
  match goal with
  | |- context [render_frames _ _ _ _ _ ?pos' ?lf' ?i' ?d' ?bs'] =>
      destruct (IH inp' false pos' lf' i' d' bs') as [Hl Hb];
      destruct (Hone bs
                  (EvRayGen entry d' (i2_x fbSize) (i2_y fbSize) (mem_of bs)))
        as [Hl1 Hb1]
  end.
  split; [congruence|]. intros b.
  destruct (Hb b) as (A1 & A2 & A3 & A4), (Hb1 b) as (B1 & B2 & B3 & B4).
  repeat split; congruence.
Qed.

Lemma final_exact dev av0 vs ts inp inputs :
  let P := Z.of_nat (length ts) in
  1 <= P <= 2 ^ 30 ->
  let r := rendering dev vs ts inp inputs in
  buffers (final_context dev av0 vs ts inp inputs) =
    update_buffer (update_buffer (update_buffer (r_buffers r) 7 destroyed)
      0 destroyed) 1 destroyed /\
  trace dev av0 vs ts inp inputs = construction_events dev vs ts ++ r_events r /\
  skipn 6 (trace dev av0 vs ts inp inputs) = r_events r /\
  console (final_context dev av0 vs ts inp inputs) =
    greeting av0 ++
    map (fun j => node_row (mem_of (constructed_buffers dev vs ts)) (Z.of_nat j))
      (seq 0 (Z.to_nat (2 * P - 1))) ++ closing_lines.
Proof.
  intros P HP r. unfold trace, final_context.
  rewrite (main_exact dev av0 vs ts inp inputs HP). fold r.
  cbn [fst buffers submitted console].
  repeat split.
Qed.

Lemma seeded_flags dev vs ts b :
  (b < 7)%nat ->
  buf_live (get_buffer (seeded_buffers dev vs ts) b) = true /\
  buf_mapped (get_buffer (seeded_buffers dev vs ts) b) = false.
Proof.
  intros H. do 7 (destruct b as [|b]; [split; reflexivity|]). lia.
Qed.

Lemma before_render_flags dev vs ts b :
  (b < 8)%nat ->
  buf_live (get_buffer (constructed_buffers dev vs ts ++ [new_frame_buffer]) b)
    = true /\
  buf_mapped (get_buffer (constructed_buffers dev vs ts ++ [new_frame_buffer]) b)
    = false.
Proof.
  intros H. pose proof (length_constructed dev vs ts) as Hlen.
  destruct (Nat.eq_dec b 7) as [->|Hb].
  - rewrite <- Hlen, get_buffer_app_r. split; reflexivity.
  - rewrite get_buffer_app_l by lia.
    destruct (constructed_meta dev vs ts b) as (_ & _ & L & Mp).
    rewrite L, Mp. apply seeded_flags. lia.
Qed.

Lemma destroyed_thrice bs b :
  (7 < length bs)%nat ->
  let bs' := update_buffer (update_buffer (update_buffer bs 7 destroyed)
               0 destroyed) 1 destroyed in
  length bs' = length bs /\
  buf_count (get_buffer bs' b) = buf_count (get_buffer bs b) /\
  buf_type (get_buffer bs' b) = buf_type (get_buffer bs b) /\
  buf_data (get_buffer bs' b) = buf_data (get_buffer bs b) /\
  buf_mapped (get_buffer bs' b) =
    (if Nat.eqb b 0 || Nat.eqb b 1 || Nat.eqb b 7 then false
     else buf_mapped (get_buffer bs b)) /\
  buf_live (get_buffer bs' b) =
    (if Nat.eqb b 0 || Nat.eqb b 1 || Nat.eqb b 7 then false
     else buf_live (get_buffer bs b)).
Proof.
  intros Hlen bs'. subst bs'.
  split; [rewrite !length_update_buffer; reflexivity|].
  split; [rewrite !(get_update_proj buf_count) by reflexivity; reflexivity|].
  split; [rewrite !(get_update_proj buf_type) by reflexivity; reflexivity|].
  split; [rewrite !(get_update_proj buf_data) by reflexivity; reflexivity|].
  destruct (Nat.eq_dec b 1) as [->|H1].
  { rewrite get_update_same by (rewrite !length_update_buffer; lia).
    split; reflexivity. }
  rewrite (get_update_other _ 1 b) by congruence.
  destruct (Nat.eq_dec b 0) as [->|H0].
  { rewrite get_update_same by (rewrite !length_update_buffer; lia).
    split; reflexivity. }
  rewrite (get_update_other _ 0 b) by congruence.
  destruct (Nat.eq_dec b 7) as [->|H7].
  { rewrite get_update_same by lia. split; reflexivity. }
  rewrite (get_update_other _ 7 b) by congruence.
  apply Nat.eqb_neq in H0, H1, H7. rewrite H0, H1, H7. split; reflexivity.
Qed.

(** ** Further properties of [main] *)



(** X2 (the frames).  For 1 <= P <= 2^30, the submissions after the six
    of the construction are the launches of the render loop, one per
    report of the window system up to and including the first that asks
    to close, and at least one.  Launch number k (below 2^31, the range
    of the frame counter) runs [simpleRayGen] over 1920 x 1080 with the
    record uploaded in its own turn: frame number k, the time reported
    in turn k, and the handle of the frame buffer. *)
Theorem X2_one_launch_per_frame dev av0 vs ts inp inputs :
  let P := Z.of_nat (length ts) in
  let launches := skipn 6 (trace dev av0 vs ts inp inputs) in
  1 <= P <= 2 ^ 30 ->
  length launches = length (frames inputs inp) /\
  (1 <= length launches)%nat /\
  forall k e,
    Z.of_nat k < 2 ^ 31 -> nth_error launches k = Some e ->
    exists p f,
      e = EvRayGen "simpleRayGen" p 1920 1080 (event_pre e) /\
      nth_error (frames inputs inp) k = Some f /\
      frameBuffer p = 8%nat /\ iFrame p = Z.of_nat k /\ iTime p = time f.
Proof.
  intros P launches HP.
  destruct (final_exact dev av0 vs ts inp inputs HP) as (_ & _ & Hl & _).
  subst launches. rewrite Hl. unfold rendering.
  rewrite render_frames_length.
  split; [reflexivity|]. split; [destruct inputs; cbn; lia|].
  intros k e _ He.
  destruct (render_frames_nth _ _ _ _ _ _ _ _ _ _ _ _ He)
    as (p & f & E & Hf & Hfb & Hi & Ht).
  exists p, f. repeat split; auto.
Qed.

Lemma X2_one_launch_per_frame_witness :
  1 <= Z.of_nat (length two_triangles) <= 2 ^ 30 /\
  length (skipn 6 (trace example_device "s12" example_vertices two_triangles
                     example_input [example_input])) = 1%nat.
Proof.
  split; [cbn; lia|].
  apply (X2_one_launch_per_frame example_device "s12" example_vertices
           two_triangles example_input [example_input]).
  cbn; lia.
Defined.

(** X3 (the camera).  For 1 <= P <= 2^30: the first launch always gets a
    camera, computed from the initial [lookFrom] with the last cursor
    position set to the current one (no drag); in a later turn the
    camera is recomputed only if the left button is reported pressed,
    from the cursor of the turn before to the cursor of this turn, and
    otherwise the launch runs with the camera of the launch before. *)
Theorem X3_camera_moves_only_on_drag dev av0 vs ts inp inputs :
  let P := Z.of_nat (length ts) in
  let launches := skipn 6 (trace dev av0 vs ts inp inputs) in
  1 <= P <= 2 ^ 30 ->
  (exists p pre,
     nth_error launches 0 = Some (EvRayGen "simpleRayGen" p 1920 1080 pre) /\
     camera p = snd (orbit dev lookFrom_initial (cursor inp) (cursor inp))) /\
  forall k e e',
    nth_error launches k = Some e -> nth_error launches (S k) = Some e' ->
    exists p p' f f',
      e = EvRayGen "simpleRayGen" p 1920 1080 (event_pre e) /\
      e' = EvRayGen "simpleRayGen" p' 1920 1080 (event_pre e') /\
      nth_error (frames inputs inp) k = Some f /\
      nth_error (frames inputs inp) (S k) = Some f' /\
      should_close f = false /\
      (left_pressed f' = false -> camera p' = camera p) /\
      (left_pressed f' = true ->
       exists from, camera p' = snd (orbit dev from (cursor f) (cursor f'))).
Proof.
  intros P launches HP.
  destruct (final_exact dev av0 vs ts inp inputs HP) as (_ & _ & Hl & _).
  subst launches. rewrite Hl. unfold rendering. split.
  - match goal with
    | |- context [render_frames _ _ _ _ _ ?pos ?lf ?i ?d ?bs] =>
        destruct (render_frames_head dev "simpleRayGen" inputs inp true pos lf
                    i d bs) as (p & Hp & _ & _ & _ & Hcam)
    end.
    exists p. eexists. split; [exact Hp|].
    rewrite orb_true_r in Hcam. exact Hcam.
  - intros k e e' He He'.
    apply (render_frames_step _ _ _ _ _ _ _ _ _ _ _ _ _ He He').
Qed.

Lemma X3_camera_moves_only_on_drag_witness :
  1 <= Z.of_nat (length two_triangles) <= 2 ^ 30 /\
  exists p pre,
    nth_error (skipn 6 (trace example_device "s12" example_vertices
                          two_triangles example_input [])) 0 =
      Some (EvRayGen "simpleRayGen" p 1920 1080 pre) /\
    camera p = Camera_zero.
Proof.
  split; [cbn; lia|].
  apply (X3_camera_moves_only_on_drag example_device "s12" example_vertices
           two_triangles example_input []).
  cbn; lia.
Defined.

(** X4 (what is destroyed).  For 1 <= P <= 2^30, [main] creates eight
    buffers and leaves none of them mapped; when it reaches the
    destruction of the context it has destroyed the frame buffer and
    the two buffers of the mesh, and none of the five buffers of the
    construction (scratch, codes, ids, nodes, boxes), which are still
    live. *)
Theorem X4_only_mesh_and_frame_buffer_destroyed dev av0 vs ts inp inputs :
  let P := Z.of_nat (length ts) in
  let bs := buffers (final_context dev av0 vs ts inp inputs) in
  1 <= P <= 2 ^ 30 ->
  length bs = 8%nat /\
  (forall b, buf_mapped (get_buffer bs b) = false) /\
  buf_live (get_buffer bs 0) = false /\
  buf_live (get_buffer bs 1) = false /\
  buf_live (get_buffer bs 7) = false /\
  (forall b, (2 <= b <= 6)%nat -> buf_live (get_buffer bs b) = true).
Proof.
  intros P bs HP.
  destruct (final_exact dev av0 vs ts inp inputs HP) as (Hb & _).
  subst bs. rewrite Hb. clear Hb. unfold rendering.
  match goal with
  | |- context [render_frames _ _ _ _ _ ?pos ?lf ?i ?d ?bs] =>
      destruct (render_frames_meta dev "simpleRayGen" inputs inp true pos lf i
                  d bs) as [Hlen Hm]; cbv zeta in Hlen, Hm;
      set (r := render_frames dev "simpleRayGen" inputs inp true pos lf i d bs)
        in *
  end.
  rewrite length_app, length_constructed in Hlen. cbn [length Nat.add] in Hlen.
  assert (H7 : (7 < length (r_buffers r))%nat) by lia.
  split; [|split; [|split; [|split; [|split]]]].
  - destruct (destroyed_thrice (r_buffers r) 0 H7) as (L & _). lia.
  - intros b.
    destruct (destroyed_thrice (r_buffers r) b H7) as (_ & _ & _ & _ & Mp & _).
    rewrite Mp.
    destruct (Nat.eqb b 0 || Nat.eqb b 1 || Nat.eqb b 7); [reflexivity|].
    destruct (Hm b) as (_ & _ & _ & ->).
    destruct (Nat.lt_ge_cases b 8) as [Hlt|Hge].
    + apply before_render_flags, Hlt.
    + unfold get_buffer. rewrite nth_overflow; [reflexivity|].
      rewrite length_app, length_constructed. cbn [length Nat.add]. lia.
  - destruct (destroyed_thrice (r_buffers r) 0 H7) as (_ & _ & _ & _ & _ & ->).
    reflexivity.
  - destruct (destroyed_thrice (r_buffers r) 1 H7) as (_ & _ & _ & _ & _ & ->).
    reflexivity.
  - destruct (destroyed_thrice (r_buffers r) 7 H7) as (_ & _ & _ & _ & _ & ->).
    reflexivity.
  - intros b Hb.
    destruct (destroyed_thrice (r_buffers r) b H7) as (_ & _ & _ & _ & _ & ->).
    assert (E : Nat.eqb b 0 || Nat.eqb b 1 || Nat.eqb b 7 = false).
    { destruct (Nat.eqb_spec b 0), (Nat.eqb_spec b 1), (Nat.eqb_spec b 7);
        (reflexivity || lia). }
    rewrite E. destruct (Hm b) as (_ & _ & -> & _).
    apply before_render_flags. lia.
Qed.

Lemma X4_only_mesh_and_frame_buffer_destroyed_witness :
  1 <= Z.of_nat (length two_triangles) <= 2 ^ 30 /\
  length (buffers (final_context example_device "s12" example_vertices
                     two_triangles example_input [])) = 8%nat.
Proof.
  split; [cbn; lia|].
  apply (X4_only_mesh_and_frame_buffer_destroyed example_device "s12"
           example_vertices two_triangles example_input []).
  cbn; lia.
Defined.

Lemma render_frames_last dev entry inputs :
  forall inp firstFrame pos lookFrom iFrame0 d bs,
    let r := render_frames dev entry inputs inp firstFrame pos lookFrom iFrame0
               d bs in
    exists bs0 e,
      nth_error (r_events r) (length (r_events r) - 1) = Some e /\
      r_buffers r = after_event dev bs0 e /\
      event_pre e = mem_of bs0 /\
      length bs0 = length bs /\
      forall b, buf_count (get_buffer bs0 b) = buf_count (get_buffer bs b).
Proof.
  induction inputs as [|inp' inputs IH]; intros; subst r;
    cbn [render_frames].
  all: destruct (should_close inp); cbn [r_events r_buffers].
  1-3: eexists bs, _; cbn [nth_error length Nat.sub]; repeat split; reflexivity.
  match goal with
  | |- context [render_frames _ _ _ _ _ ?pos' ?lf' ?i' ?d' ?bs'] =>
      destruct (IH inp' false pos' lf' i' d' bs') as (bs0 & e & Hn & Hb & Hp & Hl & Hc);
      pose proof (render_frames_length dev entry inputs inp' false pos' lf' i'
                    d' bs') as Hlen;
      set (r := render_frames dev entry inputs inp' false pos' lf' i' d' bs') in *
  end.
  exists bs0, e.
  assert (Hpos : (1 <= length (r_events r))%nat).
  { rewrite Hlen. destruct inputs; cbn; lia. }
  split.
  { cbn [length].
    replace (S (length (r_events r)) - 1)%nat
      with (S (length (r_events r) - 1)) by lia.
    exact Hn. }
  split; [exact Hb|]. split; [exact Hp|].
  split; [rewrite Hl; apply length_after_event|].
  intros b. rewrite Hc. unfold after_event. apply commit_count.
Qed.

(** X5 (the frame buffer).  For 1 <= P <= 2^30: the frame buffer is the
    eighth buffer, with one 32-bit element per pixel of a launch
    (1920 * 1080); none of the six submissions of the construction can
    write it; every launch of the render loop can write it and nothing
    else; and when the loop has ended (the image is saved, the program
    exits) it holds what the last launch left in it. *)
Theorem X5_frame_buffer_holds_last_frame dev av0 vs ts inp inputs :
  let P := Z.of_nat (length ts) in
  let final := final_context dev av0 vs ts inp inputs in
  let launches := skipn 6 (trace dev av0 vs ts inp inputs) in
  1 <= P <= 2 ^ 30 ->
  buf_type (get_buffer (buffers final) 7) = Tuint32 /\
  buf_count (get_buffer (buffers final) 7) = 1920 * 1080 /\
  (forall e, In e (firstn 6 (trace dev av0 vs ts inp inputs)) ->
     in_handles 7 (event_writes e) = false) /\
  (forall e, In e launches -> event_writes e = [8%nat]) /\
  exists e,
    nth_error launches (length launches - 1) = Some e /\
    forall i, mem_of (buffers final) 7%nat i =
              mem_after dev (count_of (buffers final)) e 7%nat i.
Proof.
  intros P final launches HP.
  destruct (final_exact dev av0 vs ts inp inputs HP) as (Hb & Ht & Hl & _).
  subst final launches. rewrite Hb, Hl. clear Hb Hl Ht. unfold rendering.
  match goal with
  | |- context [render_frames _ _ _ _ _ ?pos ?lf ?i ?d ?bs] =>
      destruct (render_frames_meta dev "simpleRayGen" inputs inp true pos lf i
                  d bs) as [Hlen Hm]; cbv zeta in Hlen, Hm;
      destruct (render_frames_last dev "simpleRayGen" inputs inp true pos lf i
                  d bs) as (bs0 & e & Hn & Hbs & Hpre & Hl0 & Hc0);
      pose proof (fun k e => render_frames_nth dev "simpleRayGen" inputs inp
                               true pos lf i d bs k e) as Hnth;
      set (r := render_frames dev "simpleRayGen" inputs inp true pos lf i d bs)
        in *
  end.
  rewrite length_app, length_constructed in Hlen, Hl0.
  cbn [length Nat.add] in Hlen, Hl0.
  assert (H7 : (7 < length (r_buffers r))%nat) by lia.
  destruct (destroyed_thrice (r_buffers r) 7 H7) as (_ & Cn & Ty & Da & _).
  cbv zeta in Cn, Ty, Da.
  assert (G7 : get_buffer (constructed_buffers dev vs ts ++ [new_frame_buffer]) 7
               = new_frame_buffer).
  { rewrite <- (length_constructed dev vs ts). apply get_buffer_app_r. }
  split; [rewrite Ty; destruct (Hm 7%nat) as (_ & -> & _); rewrite G7; reflexivity|].
  split; [rewrite Cn; destruct (Hm 7%nat) as (-> & _); rewrite G7; reflexivity|].
  split.
  { intros e' He'. rewrite trace_firstn in He'.
    unfold construction_events in He'.
    cbn [replay construction fst] in He'.
    repeat (destruct He' as [<-|He']; [reflexivity|]). destruct He'. }
  split.
  { intros e' He'. apply In_nth_error in He'. destruct He' as [k Hk].
    destruct (Hnth k e' Hk) as (p & f & E & _ & Hfb & _).
    rewrite E. cbn [event_writes]. unfold raygen_handles. rewrite Hfb.
    reflexivity. }
  exists e. split; [exact Hn|].
  intros i. unfold mem_after at 1, count_of. rewrite Cn.
  destruct (Hm 7%nat) as (-> & _).
  unfold mem_of at 1. rewrite Da. rewrite Hbs.
  change (buf_data (get_buffer (after_event dev bs0 e) 7) i)
    with (mem_of (after_event dev bs0 e) 7%nat i).
  rewrite (mem_after_event dev bs0 e Hpre) by lia.
  unfold mem_after, count_of. rewrite Hc0. reflexivity.
Qed.

Lemma X5_frame_buffer_holds_last_frame_witness :
  1 <= Z.of_nat (length two_triangles) <= 2 ^ 30 /\
  buf_count (get_buffer (buffers (final_context example_device "s12"
     example_vertices two_triangles example_input [])) 7) = 2073600.
Proof.
  split; [cbn; lia|].
  apply (X5_frame_buffer_holds_last_frame example_device "s12" example_vertices
           two_triangles example_input []).
  cbn; lia.
Defined.

(** *** The read-back beyond the end of the box buffer *)








(** X7 (what is sorted).  In every run the third submission is the sort,
    and its keys and values are the buffers that the record of the
    compute programs names as [mortonCodes] and [ids]: two buffers of
    [numPrims] 32-bit elements each.  Its third operand is the scratch
    buffer, of bytes, created without a count, which the record does not
    name; only a sort can write it.  The sort
    can write these three buffers and no other. *)
Theorem X7_sort_runs_on_codes_and_ids dev av0 vs ts inp inputs :
  let tr := trace dev av0 vs ts inp inputs in
  let final := final_context dev av0 vs ts inp inputs in
  let p := lbvh_params ts in
  exists sort,
    nth_error tr 2 = Some sort /\
    sort = EvSort 3 4 2 (event_pre sort) /\
    mortonCodes p = 4%nat /\ ids p = 5%nat /\
    resolve [mortonCodes p; ids p] = [3; 4]%nat /\
    in_handles 2 (lbvh_handles p) = false /\
    buf_type (get_buffer (buffers final) 3) = Tuint32 /\
    buf_count (get_buffer (buffers final) 3) = numPrims p /\
    buf_type (get_buffer (buffers final) 4) = Tuint32 /\
    buf_count (get_buffer (buffers final) 4) = numPrims p /\
    buf_type (get_buffer (buffers final) 2) = Tuint8 /\
    buf_count (get_buffer (buffers final) 2) = default_count dev /\
    (forall b, in_handles b (event_writes sort) = true <->
               (b = 2 \/ b = 3 \/ b = 4)%nat) /\
    (forall e, In e tr -> in_handles 2 (event_writes e) = true ->
       exists pre, e = EvSort 3 4 2 pre).
Proof.
  intros tr final p. subst tr final p.
  eexists. split.
  { rewrite trace_nth_construction by lia. reflexivity. }
  cbn [event_pre].
  destruct (final_meta dev av0 vs ts inp inputs 2 ltac:(lia)) as [C2 T2].
  destruct (final_meta dev av0 vs ts inp inputs 3 ltac:(lia)) as [C3 T3].
  destruct (final_meta dev av0 vs ts inp inputs 4 ltac:(lia)) as [C4 T4].
  cbv zeta in C2, T2, C3, T3, C4, T4.
  rewrite C2, T2, C3, T3, C4, T4.
  cbn [seeded_buffers get_buffer nth buf_count buf_type].
  do 11 (split; [reflexivity|]).
  split.
  - intros b.
    match goal with
    | |- context [event_writes (EvSort ?k ?v ?sc ?m)] =>
        change (event_writes (EvSort k v sc m)) with [S k; S v; S sc]
    end.
    unfold in_handles. cbn [resolve flat_map app existsb].
    rewrite !orb_true_iff, !Nat.eqb_eq. split.
    + intros [H|[H|[H|H]]]; [auto | auto | auto | discriminate H].
    + intros [H|[H|H]]; auto 6.
  - intros e He Hw.
    destruct (trace_split dev av0 vs ts inp inputs) as (l & Ht & Hl).
    rewrite Ht in He. apply in_app_or in He. destruct He as [He|He].
    + unfold construction_events in He.
      destruct (replay_events dev _ _ _ He) as (k & m & Hk & ->).
      unfold construction in Hk. cbn [In] in Hk.
      destruct Hk as [<-|[<-|[<-|[<-|[<-|[<-|[]]]]]]];
        try discriminate Hw; eexists; reflexivity.
    + rewrite Forall_forall in Hl. destruct (Hl e He) as (_ & Hno & _).
      rewrite Hno in Hw by (rewrite length_constructed; lia). discriminate Hw.
Qed.

(** X8 (the construction part is safe for every mesh).  Whatever the
    mesh, the empty one and those beyond the 32-bit range included, the
    part of [main] up to the sixth submission completes without an
    invalid access: the box buffer has at least two elements, so the two
    seed elements stored through the mapped pointer are inside it.  It
    leaves seven buffers, none mapped, all live, and six submissions. *)
Theorem X8_construction_part_completes dev vs ts :
  let c := fst (run (main_build dev vs ts)) in
  snd (run (main_build dev vs ts)) =
    Some (mk_Mesh vs ts 0 1, lbvh_params ts, 5%nat, 6%nat) /\
  2 <= buf_count (get_buffer (buffers c) 6) /\
  length (buffers c) = 7%nat /\
  (forall b, (b < 7)%nat ->
     buf_live (get_buffer (buffers c) b) = true /\
     buf_mapped (get_buffer (buffers c) b) = false) /\
  length (submitted c) = 6%nat /\
  Forall (fun e => is_construction e = true) (submitted c).
Proof.
  intros c. subst c. unfold run, empty_context.
  rewrite main_build_run. cbn [fst snd buffers submitted].
  split; [reflexivity|]. split.
  { destruct (constructed_meta dev vs ts 6) as (-> & _).
    cbn [seeded_buffers get_buffer nth buf_count]. apply aabbs_count_ge_2. }
  split; [apply length_constructed|]. split.
  { intros b Hb. destruct (constructed_meta dev vs ts b) as (_ & _ & -> & ->).
    apply seeded_flags, Hb. }
  split; [reflexivity|].
  unfold construction_events. cbn [replay construction fst].
  repeat constructor.
Qed.

(** *** The constructor of [Mesh] *)

Lemma after_next_S {St A} (g : Stream St A) s k :
  after_next g (s_next g s) k = after_next g s (S k).
Proof.
  unfold after_next. symmetry. apply Nat.iter_succ_r.
Qed.

Lemma drain_stops {St A B} (g : Stream St A) (f : A -> B) n :
  forall s v fuel,
    stops_after g s n -> (n < fuel)%nat ->
    drain g f fuel s v = Some (v ++ map (fun k => f (item g s k)) (seq 0 n)).
Proof.
  induction n as [|n IH]; intros s v fuel [Hrun Hstop] Hfuel;
    (destruct fuel as [|fuel]; [lia|]); cbn [drain].
  - change (s_done g s = true) in Hstop. rewrite Hstop. cbn [seq map].
    rewrite app_nil_r. reflexivity.
  - pose proof (Hrun 0%nat ltac:(lia)) as H0. change (s_done g s = false) in H0.
    rewrite H0. rewrite (IH (s_next g s)); [| |lia].
    + rewrite <- app_assoc. cbn [seq map app]. f_equal. f_equal.
      rewrite <- seq_shift, map_map.
      change (f (item g s 0)) with (f (s_generate g s)). f_equal.
      apply map_ext. intros k.
      unfold item. rewrite after_next_S. reflexivity.
    + split.
      * intros k Hk. rewrite after_next_S. apply Hrun. lia.
      * rewrite after_next_S. exact Hstop.
Qed.

Lemma drain_runs_on {St A B} (g : Stream St A) (f : A -> B) fuel :
  forall s v,
    (forall k, s_done g (after_next g s k) = false) ->
    drain g f fuel s v = None.
Proof.
  induction fuel as [|fuel IH]; intros s v H; cbn [drain]; [reflexivity|].
  pose proof (H 0%nat) as H0. change (s_done g s = false) in H0. rewrite H0.
  apply IH. intros k. rewrite after_next_S. apply H.
Qed.

Lemma upload_nth {A} (f : A -> elem) t (l : list A) d k :
  (k < length l)%nat ->
  upload t (Z.of_nat (length l)) (map f l) (Z.of_nat k) = f (nth k l d).
Proof.
  intros H. unfold upload.
  destruct (Z.leb_spec 0 (Z.of_nat k)); [|lia].
  destruct (Z.ltb_spec (Z.of_nat k) (Z.of_nat (length l))); [|lia].
  cbn [andb]. rewrite Nat2Z.id.
  rewrite (nth_indep _ (uninit t) (f d)) by (rewrite length_map; exact H).
  apply map_nth.
Qed.

(** X9 (the constructor of the mesh).  If the vertex stream of the
    generator reports done after [nv] items and the triangle stream
    after [nt], the two loops of the constructor end, and the vectors
    hold the converted items, all of them and in the order generated
    (none, if a stream is done at once).  The two buffers then created
    are the next two of the context, with [nv] and [nt] elements, and
    element [k] of each is item [k] of its vector.  A stream that never
    reports done keeps the constructor in its loop. *)
Theorem X9_mesh_holds_what_was_generated (T : MeshGenerator) nv nt fuel c :
  stops_after (vertGenerator T) (vert_start T) nv ->
  stops_after (triGenerator T) (tri_start T) nt ->
  (nv < fuel)%nat -> (nt < fuel)%nat ->
  let vs := map (fun k => position3 T (item (vertGenerator T) (vert_start T) k))
              (seq 0 nv) in
  let ts := map (fun k => vertices3 T (item (triGenerator T) (tri_start T) k))
              (seq 0 nt) in
  let r := Mesh_create vs ts c in
  let vb := length (buffers c) in
  Mesh_generated T fuel = Some (vs, ts) /\
  length vs = nv /\ length ts = nt /\
  snd r = Some (mk_Mesh vs ts vb (S vb)) /\
  length (buffers (fst r)) = S (S vb) /\
  buf_type (get_buffer (buffers (fst r)) vb) = Tfloat3 /\
  buf_count (get_buffer (buffers (fst r)) vb) = Z.of_nat nv /\
  buf_type (get_buffer (buffers (fst r)) (S vb)) = Tuint3 /\
  buf_count (get_buffer (buffers (fst r)) (S vb)) = Z.of_nat nt /\
  (forall k, (k < nv)%nat ->
     buf_data (get_buffer (buffers (fst r)) vb) (Z.of_nat k) =
       of_float3 (nth k vs zero3)) /\
  (forall k, (k < nt)%nat ->
     buf_data (get_buffer (buffers (fst r)) (S vb)) (Z.of_nat k) =
       of_uint3 (nth k ts (mk_uint3 0 0 0))).
Proof.
  intros Hv Ht Hfv Hft vs ts r vb.
  assert (Lv : length vs = nv) by (unfold vs; rewrite length_map; apply length_seq).
  assert (Lt : length ts = nt) by (unfold ts; rewrite length_map; apply length_seq).
  split.
  { unfold Mesh_generated.
    rewrite (drain_stops _ _ nv) by assumption.
    rewrite (drain_stops _ _ nt) by assumption. reflexivity. }
  split; [exact Lv|]. split; [exact Lt|].
  clearbody vs ts. subst r vb. unfold Mesh_create, gprtDeviceBufferCreate, bind, ret.
  cbn [with_buffers buffers computes raygens sbt_compute sbt_raygen submitted
         console fst snd].
  rewrite length_app. cbn [length]. rewrite Nat.add_1_r.
  split; [reflexivity|]. split; [rewrite !length_app; cbn [length]; lia|].
  set (b0 := mk_Buffer Tfloat3 _ _ _ _). set (b1 := mk_Buffer Tuint3 _ _ _ _).
  assert (G0 : get_buffer ((buffers c ++ [b0]) ++ [b1]) (length (buffers c)) = b0).
  { rewrite get_buffer_app_l by (rewrite length_app; cbn [length]; lia).
    apply get_buffer_app_r. }
  assert (G1 : get_buffer ((buffers c ++ [b0]) ++ [b1]) (S (length (buffers c)))
               = b1).
  { replace (S (length (buffers c))) with (length (buffers c ++ [b0]))
      by (rewrite length_app; cbn [length]; lia).
    apply get_buffer_app_r. }
  rewrite G0, G1. unfold b0, b1. cbn [buf_type buf_count buf_data].
  rewrite Lv, Lt. do 4 (split; [reflexivity|]).
  split; intros k Hk.
  - rewrite <- Lv. apply upload_nth. lia.
  - rewrite <- Lt. apply upload_nth. lia.
Qed.

Lemma X9_mesh_holds_what_was_generated_witness :
  stops_after (vertGenerator example_generator) (vert_start example_generator) 4 /\
  stops_after (triGenerator example_generator) (tri_start example_generator) 2 /\
  (4 < 5)%nat /\ (2 < 5)%nat /\
  Mesh_generated example_generator 5 = Some (example_vertices, two_triangles).
Proof.
  assert (Hv : stops_after (vertGenerator example_generator)
                 (vert_start example_generator) 4).
  { split; [|reflexivity].
    intros k Hk. destruct k as [|[|[|[|k]]]]; (reflexivity || lia). }
  assert (Ht : stops_after (triGenerator example_generator)
                 (tri_start example_generator) 2).
  { split; [|reflexivity].
    intros k Hk. destruct k as [|[|k]]; (reflexivity || lia). }
  assert (H4 : (4 < 5)%nat) by lia. assert (H2 : (2 < 5)%nat) by lia.
  split; [exact Hv|]. split; [exact Ht|]. split; [exact H4|].
  split; [exact H2|].
  exact (proj1 (X9_mesh_holds_what_was_generated example_generator 4 2 5
                  empty_context Hv Ht H4 H2)).
Defined.

(** A stream that never reports done: the loop is still running after
    any number of tests. *)
Lemma mesh_constructor_needs_a_finite_stream (T : MeshGenerator) fuel :
  (forall k, s_done (vertGenerator T) (after_next (vertGenerator T)
                                         (vert_start T) k) = false) ->
  Mesh_generated T fuel = None.
Proof.
  intros H. unfold Mesh_generated. rewrite drain_runs_on by exact H.
  reflexivity.
Qed.
